(* ===== verification/_CoqProject ===== *)
-Q . S2P
Prelude.v
Stream.v
Interrupt.v
Graph.v
Tool.v
RtcServer.v
Calculator.v
Agent.v
Scenarios.v
Engine.v
Fanout.v
Examples.v
