(* ===== verification/Prelude.v ===== *)
(** * A verification development of moego's state-graph engine

    moego (src/) is a Go library for running multi-step computations
    over a shared typed state.  Its core lives in package [core]:

    - src/pkg/core/stream.go: the [Streamer], which gates emission of
      lifecycle [Event]s and state snapshots ([StreamEvent]) by the
      active [StreamMode]s;
    - src/unnamed/part_001 (interrupt.go): the [InterruptManager], a
      mutex-guarded [interrupted] flag, a breakpoint set and a
      rendezvous pair of unbuffered channels for pause/resume;
    - src/unnamed/part_000 (graph.go): the [StateGraph] builder
      (nodes, conditional edges, entry point, recursion limit), its
      [Compile] step and the execution loop [RunnableState.Invoke],
      plus [Stream], which runs [Invoke] in a goroutine and forwards
      the streamer's channels to buffered output channels.

    The engine calls the streamer to publish progress and the interrupt
    manager to pause; an external controller answers each pause with
    [Resume].  Step functions and routers are opaque user code.

    Beside the core, src/pkg/core/tool.go declares the [Tool] interface
    and [BaseTool] with its schema check [Validate]; src/unnamed/part_002
    (package tools) the [Calculator] tool built on it; and
    src/pkg/agent/openai_agent.go the [OpenAIAgent], which registers
    tools, sends the chat history to the OpenAI API and runs the tool
    calls the streamed completion asks for.

    ** Files and what they model

    - [Prelude] (this file): the result type [res] standing for Go's
      [(value, error)] pairs, the outcome type [exec] of a computation
      that may fail or block forever, a small state monad [ST] with its
      notation in [moego_scope], bind inversion ([st_bind_inv],
      [st_inv]) and extensionality ([st_bind_ext]), the first-match
      lemmas on [List.find], invariants of reachable states
      ([rtc_preserved]), the interleavings [interleave] of two lists
      (the orders a [select] takes two channels' values in), the hint
      databases [moego] and [moego_rw].
    - [Stream]: stream.go.  The channels are abstracted to the value a
      send would carry: [EmitEvent] and [EmitValue], [EmitUpdate],
      [EmitCustom], [EmitMessage] (through [emit_mode]) return [Some]
      output when the mode is active and [None] otherwise; [hasMode] is
      the [range] loop [hasMode_loop].
    - [Interrupt]: interrupt.go.  The manager is the record
      [InterruptManager] (flag, breakpoint [gset]); [Interrupt],
      [Resume], [AddBreakpoint], [RemoveBreakpoint], [HasBreakpoint] are
      functions from manager to manager and result.  [json.Marshal] is
      the class [Marshaler], [json.Unmarshal] the class [Unmarshaler],
      Go's zero
      value the class [GoZero]; step
      errors are [GoError] (sentinel, plain, wrapped with [%w]).  Calls
      from several goroutines are serialised by the mutex: [run_calls]
      runs any sequence of them.
    - [Graph]: the builder half of graph.go: [StateGraph] with its node
      registry as a [gmap string StateNode], the builder methods (and
      [build], any sequence of them as [BuilderCall]s from
      [NewStateGraph]), [Compile], [MarshalState]/[UnmarshalState], and
      routing ([find_edge], [apply_mapping], [route]), the edge scan of
      [Invoke].
    - [Scenarios]: concrete graphs over [Z] states for spec section 8
      (scenarios A to D, an approval node using [core.Interrupt], a
      wrapped interrupt, an empty router), and the witnesses of the
      [Interrupt] and [Graph] theorems.
    - [Engine]: [RunnableState.Invoke].  [iteration] is one pass of the
      [for] loop (limit check, [END] check, [breakpoint_check],
      [run_node]); [loop] iterates it with fuel; [Invoke] computes the
      fuel ([invoke_fuel]) and emits the run-level values.  Effects go
      through [ST World]: the interrupt manager, the controller's queued
      [Response]s (edit breakpoints then [Resume(s)], or cancel the
      context) and the trace of [Output]s sent on the three channels.
      A pause ([pause]) is [Interrupt] then [WaitForResume]; with no
      response left the engine blocks ([Hang]).  [Path] and [path_out]
      are the abstract semantics of pause-free runs; [loop_reach] the
      reachable loop states.
    - [Tool]: tool.go.  A Go [interface{}] is the inductive [Value]
      (nil, bool, int, float64, float32, string, []string,
      []interface{}, map[string]interface{}), a Go map the association
      list [Obj] in one of its iteration orders, [float64] Rocq's
      primitive binary64 floats.  [validateType] returns [None] where Go
      panics; [Validate] is [check_required] then [validate_args] over
      [validate_field], returning a [go_result] (an [error] or a panic);
      [deep_equal] is [reflect.DeepEqual].  The [Tool] interface is the
      record of its methods.
    - [Calculator]: part_002.  [getNumber] and [Execute] over primitive
      floats; [strconv.ParseFloat] is the class [ParseFloat], and
      [calculator_tool] is the [Tool] a [*Calculator] is.
    - [Agent]: openai_agent.go.  The record [OpenAIAgent], [Configure],
      [AddTool] and [ProcessMessage] from the history update to the
      reply, with the tool-schema loop [tool_params], the stream loop
      [process_chunks] and the tool dispatch [process_tool_call]; the
      completion stream is the input [StreamRun], json and fmt are the
      classes [Marshaler], [Unmarshaler] and [Sprint].  The interface
      [agent.Agent] (agent.go) is the class [Agent], with the
      [OpenAIAgent] instance and the contract [SingleReply] it meets.
    - [Fanout]: [RunnableState.Stream].  The runner goroutine ([Runner]:
      [Invoke]'s sends, the error event, the deferred [cancel] and
      [close] calls), the forwarder goroutine ([Forwarder]) and the
      consumer share the state [SState] (two buffered channels [Chan]
      and the derived context); [fstep] is one atomic step of one of
      them, every [select] with several ready cases a choice between
      steps, and reachability is stdpp's [rtc].  [Stream] starts it on
      the output trace of [RunInvoke].  The streamer's own unbuffered
      channels, with their getters and [Streamer.Close], are
      [StreamerChans] of capacity 0.
    - [RtcServer]: src/examples/rtc/main.go, a separate program that
      hands out cached OpenAI Realtime tokens.  The cache
      ([TokenCache], [tc_get], [tc_set]) and the world [Server] (clock
      in nanoseconds, API key, the HTTP exchanges to come, the requests
      sent, a history of stored tokens); [createEphemeralToken] in the
      state monad as its three critical sections [ce_lookup],
      [ce_fetch], [ce_store]; [handleWebRTCSignaling] and its reply;
      concurrent requests and the clock as the step relation [rstep];
      [main]'s start-up checks and routes ([rtc_main], [rtc_mux]);
      the serving of one request ([serve_request]: the [ServeMux]
      dispatch, [loggerMiddleware], the 404 reply).
    - [Examples]: src/examples/basic and src/examples/graph.  The
      start-up of both [main]s ([startup]: the [.env] warning, the zap
      configuration and its build, the API key; the libraries as the
      class [ExampleEnv]), the agent set-up ([basic_main],
      [graph_agents]) and their composition ([basic_program],
      [graph_program]), the
      graph example's [State], its node closures [calculate] and
      [write_poem] over any [Agent]'s [ProcessMessage] (a [go_result], with the
      index panic), the builder sequence [example_graph] for any step
      functions, [Compile] and [Stream] from the initial state
      ([graph_main_stream]), the consumer goroutine ([consumer_step],
      [consume]) over the receives [Fanout]'s interleavings allow, and
      [main]'s wait for it ([graph_main_done]).

    ** Theorems (claim ids in the doc comments)

    - Engine, the run as a whole: refinement of pause-free runs by
      [Path] with the exact trace (C1); the recursion limit, checked
      before [END] (C2); termination of [Invoke] (C3);
      default-configuration runs (C34); edges from a name that
      is not a node, [START] included, change no run (C36).
    - Engine, one pass: breakpoint pause before the node runs, on the
      state the controller resumes with (C4); interrupt-error
      retry without advancing [steps], with the state the step returned
      in the [InterruptInfo] (C5); fatal errors, including a wrapped
      sentinel (C10).
    - Engine, the manager flag: normal returns leave it clear (C7); a
      cancelled pause leaves it set and breaks later runs (C6).
    - Engine, bounds: the step counter stays in [0, max(0, limit)] on
      every reachable loop state, so it never overflows (C35).
    - Interrupt: exclusion of interrupts until [Resume] over any call
      sequence (C8); a marshal failure leaks the flag (C14).
    - Graph: first-match, first-candidate routing against a declarative
      statement (C9); every graph the builder API produces is well
      formed (C16, by induction on the calls).
    - Tool: [Validate] accepts exactly the maps its declarative reading
      [field_accepted] allows (C19), but for every schema with an
      ["array"] field, whether a map with a [null] there and an unknown
      field panics or errors depends on the iteration order (C22); an
      ["integer"] field
      rejects every JSON-decoded value (C23).
    - Calculator: validated arguments reach the operation switch (C25);
      the [[]string] enum is never enforced: every operation outside
      it passes [Validate] in any iteration order and fails in
      [Execute] (C24).
    - Agent: a tool call runs every tool of that name and never
      validates (C21); only user messages enter the history (C32);
      panics of the model assertion happen exactly without a successful
      [Configure] (C31, C30).
    - Fanout, by induction over the steps: for every graph and
      controller the consumer reads each channel in the order [Invoke]
      produced the values, without duplicates (C13; [Invoke] only emits
      events without error metadata, [ag_Invoke]).  By explicit
      schedules, for every run that returns: the forwarder can send on
      a closed channel and panic (C11) or lose the last value (C12);
      the runner's error event can overtake the run's last send when
      that send is an event (C28).  A
      run blocked in a pause never closes its channels (C29).
    - RtcServer: under every interleaving of concurrent requests, a
      token is only ever handed out less than 50 s after it was stored
      (C17, by rule induction on [rstep] with the history [stored]);
      concurrent misses both fetch a token (C18); a fetched token is
      served for exactly 50 s (C38); on any server, a reply that
      decodes to the zero [SessionResponse] is answered, cached and
      served again as an empty token (C39).  For every rooted path, only
      [/rtc] reaches the token handler, without the access log (C20).
    - Examples: the nodes never hit the index panic once the agents
      answer (C40); the example run's exact trace, without any message
      although the mode is on (C26); the consumer can return before
      reading the result and the poem (C27, a [Fanout] schedule), or on
      the closed [streamCh] before reading any event (C15); in every
      interleaving, a return on a received value happens only at the
      run's last event (C33, from [Fanout]'s ordering and
      [error_events] invariants); when the math expert fails, only the
      runner's error event can stop it that way and [write_poem] never
      runs (C37).

    Other theorems of the files (the [hasMode] loop, order
    independence of [Validate], the [square] and [divide] cases of
    [Execute], the reply of [ProcessMessage], the cache hit and the
    uncached failures of [createEphemeralToken], the node-not-found
    run, the examples' agents, [Streamer.Close] closing both channels once
    and panicking the second time ([Close_once]), the start-up of the
    examples: a missing [.env] only warns ([startup_dotenv_only_warns]),
    a logger error is fatal before the key is read
    ([basic_program_cases], [graph_program_cases]), no key means no
    agents ([program_no_key])) are proved as well and serve as library
    lemmas.

    ** Fuel

    [Invoke] gives its loop [invoke_fuel] = [1 + Z.to_nat recursionLimit
    + number of queued responses] passes.  Every pass that continues
    either increments [steps] below the limit or consumes one response
    ([iteration_progress]), and a pass at [steps >= limit] stops, so the
    measure [loop_measure] bounds the passes and [Engine.invoke_terminates]
    shows the fuel never runs out.

    ** Not modelled

    The cancellation of the caller's context passed to [Stream] (the
    model cancels only through the runner's deferred [cancel]).  Not
    modelled at all: clock values ([RunID],
    [Timestamp]) of events, the OpenAI client and logger, the text encodings of encoding/json,
    strconv and fmt (classes the theorems quantify over), net/http and
    the file system of the rtc example (its [ServeMux] is modelled by
    [mux_route] and [serve_request]; [http.FileServer] is the class
    [FileServer]), what dotenv and zap do beyond the results
    [ExampleEnv] reports, and the HTML page (browser code).  The graph
    example's closures enter its run as step functions, not as nodes:
    a node of the model returns, while the closures can panic on an
    empty reply ([example_nodes_return] says when they do not). *)

From stdpp Require Export base gmap strings list.
From Stdlib Require Export ZArith Lia.

Declare Scope moego_scope.
Delimit Scope moego_scope with moego.
Open Scope moego_scope.

Create HintDb moego discriminated.
Create Rewrite HintDb moego_rw.

(** ** Go results *)

(** A Go function returning [(T, error)] where exactly one of the two is
    meaningful: [Ok v] is [(v, nil)], [Err msg] is [(zero, err)] with
    [err.Error() = msg]. *)
Inductive res (A : Type) : Type :=
| Ok (a : A)
| Err (msg : string).
Arguments Ok {A} a.
Arguments Err {A} msg.

Definition res_bind {A B} (r : res A) (k : A -> res B) : res B :=
  match r with
  | Ok a => k a
  | Err m => Err m
  end.

Notation "x <-? r ;; k" := (res_bind r (fun x => k))
  (at level 96, r at next level, right associativity) : moego_scope.

(** The outcome of a Go function that may panic: it returns [a], or
    panics (which ends the program). *)
Inductive go_result (A : Type) := Returns (a : A) | Panics.
Arguments Returns {A} a.
Arguments Panics {A}.

(** ** Computations that may fail or block *)

(** The outcome of a Go computation observed from outside: it returns
    [a], returns an error [e], blocks forever on a channel operation
    ([Hang]), or the model ran out of fuel ([NoFuel], never a behaviour
    of the code, see the termination theorems). *)
Inductive exec (E A : Type) : Type :=
| Ret (a : A)
| Throw (e : E)
| Hang
| NoFuel.
Arguments Ret {E A} a.
Arguments Throw {E A} e.
Arguments Hang {E A}.
Arguments NoFuel {E A}.

(** State monad over a world [W] with outcome [exec E]. *)
Definition ST (W E A : Type) : Type := W -> exec E A * W.

Section ST.
Context {W E : Type}.

Definition st_ret {A} (a : A) : ST W E A := fun w => (Ret a, w).

Definition st_bind {A B} (c : ST W E A) (k : A -> ST W E B) : ST W E B :=
  fun w =>
    match c w with
    | (Ret a, w') => k a w'
    | (Throw e, w') => (Throw e, w')
    | (Hang, w') => (Hang, w')
    | (NoFuel, w') => (NoFuel, w')
    end.

Definition st_get : ST W E W := fun w => (Ret w, w).
Definition st_put (w : W) : ST W E unit := fun _ => (Ret tt, w).
Definition st_throw {A} (e : E) : ST W E A := fun w => (Throw e, w).
Definition st_hang {A} : ST W E A := fun w => (Hang, w).
Definition st_nofuel {A} : ST W E A := fun w => (NoFuel, w).
End ST.

Notation "x <- c ;; k" := (st_bind c (fun x => k))
  (at level 96, c at next level, right associativity) : moego_scope.
Notation "c ;;; k" := (st_bind c (fun _ => k))
  (at level 96, right associativity) : moego_scope.

Section STLaws.
Context {W E : Type}.

Lemma st_bind_ret_l {A B} (a : A) (k : A -> ST W E B) w :
  st_bind (st_ret a) k w = k a w.
Proof. reflexivity. Qed.

Lemma st_bind_assoc {A B C} (c : ST W E A) (f : A -> ST W E B)
      (g : B -> ST W E C) w :
  st_bind (st_bind c f) g w = st_bind c (fun a => st_bind (f a) g) w.
Proof. unfold st_bind. destruct (c w) as [[] ?]; reflexivity. Qed.

(** Running a bind whose first computation returns. *)
Lemma st_bind_Ret {A B} (c : ST W E A) (k : A -> ST W E B) w a w' :
  c w = (Ret a, w') -> st_bind c k w = k a w'.
Proof. unfold st_bind. intros ->. reflexivity. Qed.

(** A bind whose first computation does not return propagates it. *)
Lemma st_bind_not_Ret {A B} (c : ST W E A) (k : A -> ST W E B) w o w' :
  c w = (o, w') -> (forall a, o <> Ret a) ->
  st_bind c k w = (match o with
                   | Throw e => Throw e | Hang => Hang | _ => NoFuel
                   end, w').
Proof.
  unfold st_bind. intros -> Hn. destruct o; try reflexivity.
  exfalso. eapply Hn. reflexivity.
Qed.

(** Replace the first computation of a bind by one that behaves the same. *)
Lemma st_bind_cong {A B} (c1 c2 : ST W E A) (k : A -> ST W E B) w1 w2 :
  c1 w1 = c2 w2 -> st_bind c1 k w1 = st_bind c2 k w2.
Proof. unfold st_bind. by intros ->. Qed.

(** Inversion of a bind: either the first computation returned and the
    continuation produced the outcome, or the first computation's
    non-returning outcome is propagated unchanged. *)
(** Binding a computation to two continuations that agree everywhere. *)
Lemma st_bind_ext {A B} (c : ST W E A) (k1 k2 : A -> ST W E B) w :
  (forall a w', k1 a w' = k2 a w') -> st_bind c k1 w = st_bind c k2 w.
Proof. intros Hk. unfold st_bind. destruct (c w) as [[] ?]; auto. Qed.

Lemma st_bind_inv {A B} (c : ST W E A) (k : A -> ST W E B) w o w'' :
  st_bind c k w = (o, w'') ->
  (exists a w', c w = (Ret a, w') /\ k a w' = (o, w'')) \/
  (exists e, c w = (Throw e, w'') /\ o = Throw e) \/
  (c w = (Hang, w'') /\ o = Hang) \/
  (c w = (NoFuel, w'') /\ o = NoFuel).
Proof. unfold st_bind. destruct (c w) as [[] ?]; naive_solver. Qed.
End STLaws.

#[export] Hint Rewrite @st_bind_ret_l @st_bind_assoc : moego_rw.

(** ** Lists: first match *)

Section FirstMatch.
Context {A : Type} (p : A -> bool).

(** [List.find] returns the first element satisfying [p]: everything
    before it fails [p]. *)
Lemma find_first l x :
  List.find p l = Some x <->
  exists pre post, l = pre ++ x :: post /\ p x = true /\
                   Forall (fun y => p y = false) pre.
Proof.
  split.
  - induction l as [|y l IH]; simpl; [discriminate|].
    destruct (p y) eqn:Hy.
    + intros [= ->]. exists [], l. eauto.
    + intros H. destruct (IH H) as (pre & post & -> & Hx & Hpre).
      exists (y :: pre), post. simpl. eauto.
  - intros (pre & post & -> & Hx & Hpre). induction Hpre as [|y pre Hy _ IH];
      simpl; [by rewrite Hx|by rewrite Hy].
Qed.

Lemma find_app_l l1 l2 x :
  List.find p l1 = Some x -> List.find p (l1 ++ l2) = Some x.
Proof.
  induction l1 as [|y l1 IH]; simpl; [discriminate|].
  destruct (p y); auto.
Qed.

Lemma find_app_r l1 l2 :
  List.find p l1 = None -> List.find p (l1 ++ l2) = List.find p l2.
Proof.
  induction l1 as [|y l1 IH]; simpl; [done|].
  destruct (p y); [discriminate|auto].
Qed.
End FirstMatch.

#[export] Hint Resolve find_app_l : moego.

(** ** Reachability *)

(** An invariant of every step holds on every reachable state. *)
Lemma rtc_preserved {A} (R : relation A) (P : A -> Prop) x y :
  (forall a b, P a -> R a b -> P b) -> P x -> rtc R x y -> P y.
Proof. intros Hpres Hx Hr. induction Hr; eauto. Qed.

(** ** Interleavings *)

(** [interleave l1 l2 l]: [l] merges [l1] and [l2], keeping the order of
    each: the order in which a [select] over two channels can take
    their values. *)
Inductive interleave {A} : list A -> list A -> list A -> Prop :=
| il_nil : interleave [] [] []
| il_left x l1 l2 l : interleave l1 l2 l -> interleave (x :: l1) l2 (x :: l)
| il_right x l1 l2 l : interleave l1 l2 l -> interleave l1 (x :: l2) (x :: l).

(** All of [l1], then all of [l2]. *)
Lemma interleave_app {A} (l1 l2 : list A) : interleave l1 l2 (l1 ++ l2).
Proof. induction l1; simpl; [induction l2|]; by constructor. Qed.

Lemma interleave_elem_of {A} (l1 l2 l : list A) x :
  interleave l1 l2 l -> x ∈ l -> x ∈ l1 \/ x ∈ l2.
Proof. induction 1; rewrite ?elem_of_cons; naive_solver. Qed.

Lemma interleave_Forall {A} (P : A -> Prop) (l1 l2 l : list A) :
  interleave l1 l2 l -> Forall P l1 -> Forall P l2 -> Forall P l.
Proof. induction 1; rewrite ?Forall_cons; naive_solver. Qed.

Lemma filter_Forall_id {A} (P : A -> Prop) `{!∀ x, Decision (P x)} (l : list A) :
  Forall P l -> filter P l = l.
Proof. induction 1; [done|]. rewrite filter_cons_True by done. by f_equal. Qed.

(** A prefix of [pre ++ [x]] that contains an element with [p], when no
    element of [pre] has [p], is the whole list. *)
Lemma prefix_snoc_marked {A} (p : A -> bool) (l pre : list A) x y :
  l `prefix_of` pre ++ [x] -> Forall (fun z => p z = false) pre ->
  y ∈ l -> p y = true -> l = pre ++ [x].
Proof.
  intros [k Hk] Hpre Hy Hp. destruct k as [|z k] using rev_ind.
  - by rewrite app_nil_r in Hk.
  - rewrite app_assoc in Hk. apply app_inj_tail in Hk as [Hk _].
    assert (y ∈ pre) as Hin by (rewrite Hk; set_solver).
    rewrite Forall_forall in Hpre. by rewrite Hpre in Hp.
Qed.

(** ** Tactics *)

(** Invert a hypothesis and clean up. *)
Ltac invc H := inversion H; subst; clear H.

(** Case on every [match] of the goal's head, remembering the equation. *)
Ltac case_goal :=
  match goal with
  | |- context [match ?x with _ => _ end] => destruct x eqn:?
  end.

(** Step through a monadic program whose first computation is known. *)
Ltac st_step H := rewrite (st_bind_Ret _ _ _ _ _ H).

(** Split a hypothesis [st_bind c k w = (o, w'')] into its four cases;
    [Hc] names the equation of the first computation. *)
Ltac st_inv H Hc :=
  apply st_bind_inv in H as
      [(?a & ?w & Hc & H) | [(?e & Hc & ?Ho) | [(Hc & ?Ho) | (Hc & ?Ho)]]];
  try discriminate; try subst.

(** The same, naming the returned value [x]. *)
Ltac st_inv_as H Hc x :=
  apply st_bind_inv in H as
      [(x & ?w & Hc & H) | [(?e & Hc & ?Ho) | [(Hc & ?Ho) | (Hc & ?Ho)]]];
  try discriminate; try subst.
