(* ===== verification/Stream.v ===== *)
(** * Stream: the streamer of src/pkg/core/stream.go

    Stream modes, event types, the [Event] and [StreamEvent] records and
    the [Streamer] with its mode-gated emission functions.  The two
    unbuffered channels of a [Streamer] are abstracted to the value a
    call would send: each [Emit*] returns [Some] output when its mode is
    active (the Go call performs a blocking send) and [None] when it is
    not (the Go call does nothing).  The delivery of these values is
    modelled by the engine's output trace; the channels themselves, with
    their getters and [Close], are [Fanout.StreamerChans].  [RunID] and [Timestamp]
    (clock readings), and [Tags], [Data], [ParentIDs] (never set by the
    engine) are not modelled. *)

From S2P Require Import Prelude.

(** ** Data *)

Inductive StreamMode :=
| StreamValues
| StreamUpdates
| StreamCustom
| StreamMessages
| StreamDebug.

#[export] Instance StreamMode_eq_dec : EqDecision StreamMode.
Proof. solve_decision. Defined.

Inductive EventType :=
| EventChainStart
| EventChainEnd
| EventChainStream
| EventChatModelStart
| EventChatModelStream
| EventChatModelEnd
| EventChannelWrite.

#[export] Instance EventType_eq_dec : EqDecision EventType.
Proof. solve_decision. Defined.

(** The [Metadata] maps the engine builds: none, the per-node map
    [{"langgraph_step": steps, "langgraph_node": node}], or the map
    [{"error": msg}] of [Stream]'s terminal event. *)
Inductive Metadata :=
| NoMetadata
| StepMetadata (step : Z) (node : string)
| ErrorMetadata (msg : string).

#[export] Instance Metadata_eq_dec : EqDecision Metadata.
Proof. solve_decision. Defined.

Record Event := {
  EvType : EventType;  (* Go field [Type]; [Type] is a keyword here *)
  Name : string;
  Meta : Metadata
}.

#[export] Instance Event_eq_dec : EqDecision Event.
Proof.
  intros [t1 n1 m1] [t2 n2 m2].
  destruct (decide (t1 = t2)), (decide (n1 = n2)), (decide (m1 = m2));
    subst; [left; reflexivity|right; congruence..].
Defined.

(** [StreamEvent{Mode, Data}]: [Data] is [interface{}] in Go; the engine
    only ever stores a state there, so it is a parameter. *)
Record StreamEvent (A : Type) := {
  Mode : StreamMode;
  Data : A
}.
Arguments Mode {A} s.
Arguments Data {A} s.

Record Streamer := {
  modes : list StreamMode
}.

Record StreamConfig := {
  Modes : list StreamMode;
  BufferSize : Z
}.

(** ** Operations *)

Definition NewStreamer (ms : list StreamMode) : Streamer :=
  {| modes := ms |}.

(** The [for _, m := range s.modes] loop of [hasMode]. *)
Fixpoint hasMode_loop (ms : list StreamMode) (mode : StreamMode) : bool :=
  match ms with
  | [] => false
  | m :: ms' => if decide (m = mode) then true else hasMode_loop ms' mode
  end.

Definition hasMode (s : Streamer) (mode : StreamMode) : bool :=
  hasMode_loop (modes s) mode.

Definition EmitEvent (s : Streamer) (evt : Event) : option Event :=
  if hasMode s StreamDebug then Some evt else None.

Section Emit.
Context {A : Type}.

(** The four data emitters share one shape: send [{mode, data}] on the
    stream channel when [mode] is active. *)
Definition emit_mode (s : Streamer) (mode : StreamMode) (x : A)
  : option (StreamEvent A) :=
  if hasMode s mode then Some {| Mode := mode; Data := x |} else None.

Definition EmitValue (s : Streamer) (state : A) := emit_mode s StreamValues state.
Definition EmitUpdate (s : Streamer) (update : A) := emit_mode s StreamUpdates update.
Definition EmitCustom (s : Streamer) (data : A) := emit_mode s StreamCustom data.
Definition EmitMessage (s : Streamer) (msg : A) := emit_mode s StreamMessages msg.
End Emit.

Definition DefaultStreamConfig : StreamConfig :=
  {| Modes := [StreamValues]; BufferSize := 100 |}.

(** ** Lemmas *)

(** The [for ... range] loop of [hasMode] decides membership: it
    returns [true] exactly when the mode is among the active modes. *)
Lemma hasMode_loop_spec ms mode : hasMode_loop ms mode = true <-> mode ∈ ms.
Proof.
  induction ms as [|m ms IH]; simpl.
  - split; [discriminate|]. intros H. by apply elem_of_nil in H.
  - rewrite elem_of_cons. case_decide; subst; [by intuition|].
    rewrite IH. intuition congruence.
Qed.

Lemma hasMode_spec s mode : hasMode s mode = true <-> mode ∈ modes s.
Proof. apply hasMode_loop_spec. Qed.

Lemma hasMode_false s mode : hasMode s mode = false <-> mode ∉ modes s.
Proof. rewrite <- hasMode_spec. destruct (hasMode s mode); intuition congruence. Qed.

Lemma emit_mode_active {A} s mode (x : A) :
  mode ∈ modes s -> emit_mode s mode x = Some {| Mode := mode; Data := x |}.
Proof. unfold emit_mode. by intros ->%hasMode_spec. Qed.

Lemma emit_mode_inactive {A} s mode (x : A) :
  mode ∉ modes s -> emit_mode s mode x = None.
Proof. unfold emit_mode. by intros ->%hasMode_false. Qed.

#[export] Hint Resolve emit_mode_active emit_mode_inactive : moego.
