(* ===== verification/Interrupt.v ===== *)
(** * Interrupt: the interrupt manager of src/unnamed/part_001 (interrupt.go)

    The manager's state is the record [InterruptManager]: the
    mutex-guarded [interrupted] flag and the breakpoint set (a Go
    [map[string]struct{}], here a [gset string]).  Its methods are pure
    functions returning the new manager state together with the Go
    result.  The two unbuffered channels are abstracted: a successful
    [Interrupt] returns the [InterruptInfo] it sends on [interruptCh],
    a successful [Resume] returns the state it sends on [resumeCh]; the
    rendezvous with the engine is modelled in [Engine].  Each method
    holds the mutex for its whole check-and-set, so in the sequential
    model a call is one atomic transition.

    [json.Marshal] and [json.Unmarshal] are the interfaces [Marshaler] and
    [Unmarshaler] (the code only calls the
    library); the [interface{}] payload of an interrupt is a value of a
    type [D] with its own marshaler, and Go's [nil] is [None].
    Step-function errors are the type [GoError]: the sentinel
    [*InterruptError], a plain error, or an error wrapped with [%w]. *)

From S2P Require Import Prelude.

(** ** Interfaces the code consumes *)

(** [json.RawMessage]: the JSON text. *)
Abbreviation RawMessage := string (only parsing).

(** [json.Marshal] at one type. *)
Class Marshaler (A : Type) := marshal : A -> res RawMessage.

(** The zero value [var zero T] of a Go type. *)
Class GoZero (A : Type) := zero : A.

(** [json.Unmarshal] into a Go value of type [A]. *)
Class Unmarshaler (A : Type) := unmarshal : RawMessage -> res A.

(** ** Data *)

Record InterruptInfo := {
  NodeName : string;
  IData : RawMessage;   (* Go field [Data] *)
  IState : RawMessage   (* Go field [State] *)
}.

#[export] Instance InterruptInfo_eq_dec : EqDecision InterruptInfo.
Proof.
  intros [a b c] [a' b' c'].
  destruct (decide (a = a')), (decide (b = b')), (decide (c = c'));
    subst; [left; reflexivity|right; congruence..].
Defined.

Record InterruptManager := {
  interrupted : bool;
  breakpoints : gset string
}.

Section Errors.
Context {D : Type}.

(** The errors a step function can return.  [InterruptError] is the
    sentinel [*InterruptError{Data}]; [ErrorString] an error built by
    [errors.New] or [fmt.Errorf] without [%w]; [Wrapped p e] is
    [fmt.Errorf(p + "%w", e)]. *)
Inductive GoError :=
| InterruptError (data : option D)
| ErrorString (msg : string)
| Wrapped (prefix : string) (inner : GoError).

Fixpoint Error (e : GoError) : string :=
  match e with
  | InterruptError _ => "interrupt requested"
  | ErrorString m => m
  | Wrapped p e' => p +:+ Error e'
  end.

(** [_, ok := err.( *InterruptError)]: a type assertion on the dynamic
    type, which does not look through wrapping. *)
Definition IsInterruptError (e : GoError) : bool :=
  match e with
  | InterruptError _ => true
  | _ => false
  end.

Definition GetInterruptData (e : GoError) : option D * bool :=
  match e with
  | InterruptError d => (d, true)
  | _ => (None, false)
  end.

(** The helper [core.Interrupt[T](ctx, data)] a step function calls to
    request a pause: it returns the zero state and the sentinel. *)
Definition InterruptHelper {T} `{GoZero T} (data : option D)
  : T * option GoError :=
  (zero, Some (InterruptError data)).
End Errors.
Arguments GoError : clear implicits.

(** ** Operations *)

Definition NewInterruptManager : InterruptManager :=
  {| interrupted := false; breakpoints := ∅ |}.

Definition AddBreakpoint (m : InterruptManager) (nodeName : string) : InterruptManager :=
  {| interrupted := interrupted m; breakpoints := {[nodeName]} ∪ breakpoints m |}.

Definition RemoveBreakpoint (m : InterruptManager) (nodeName : string) : InterruptManager :=
  {| interrupted := interrupted m; breakpoints := breakpoints m ∖ {[nodeName]} |}.

Definition HasBreakpoint (m : InterruptManager) (nodeName : string) : bool :=
  bool_decide (nodeName ∈ breakpoints m).

Definition set_interrupted (m : InterruptManager) (b : bool) : InterruptManager :=
  {| interrupted := b; breakpoints := breakpoints m |}.

Section Methods.
Context {T D : Type} `{Marshaler T} `{Marshaler D}.

(** [json.Marshal(data)] with [data : interface{}]: [nil] is "null". *)
Definition marshal_data (data : option D) : res RawMessage :=
  match data with
  | None => Ok "null"
  | Some d => marshal d
  end.

(** [Interrupt]: under the lock, fail if already interrupted, else set
    the flag; then marshal payload and state (an error returns with the
    flag still set) and send the info.  The result [Ok info] is the
    value sent on [interruptCh]. *)
Definition Interrupt (m : InterruptManager) (nodeName : string)
           (data : option D) (state : T) : InterruptManager * res InterruptInfo :=
  if interrupted m then (m, Err "already interrupted")
  else
    let m' := set_interrupted m true in
    match marshal_data data with
    | Err e => (m', Err e)
    | Ok dataBytes =>
        match marshal state with
        | Err e => (m', Err e)
        | Ok stateBytes =>
            (m', Ok {| NodeName := nodeName; IData := dataBytes;
                       IState := stateBytes |})
        end
    end.

(** [Resume]: under the lock, fail if not interrupted, else clear the
    flag; then send [state] on [resumeCh] ([Ok state]). *)
Definition Resume (m : InterruptManager) (state : T) : InterruptManager * res T :=
  if negb (interrupted m) then (m, Err "not interrupted")
  else (set_interrupted m false, Ok state).
(** A call a goroutine makes on the shared manager.  Every method
    takes the mutex for its check-and-set, so concurrent calls are
    serialised into some sequence of these. *)
Inductive ManagerCall :=
| CallInterrupt (nodeName : string) (data : option D) (state : T)
| CallResume (state : T)
| CallAddBreakpoint (nodeName : string)
| CallRemoveBreakpoint (nodeName : string)
| CallHasBreakpoint (nodeName : string).

Inductive CallResult :=
| RInterrupt (r : res InterruptInfo)
| RResume (r : res T)
| RHas (b : bool)
| RNone.

Definition call (m : InterruptManager) (c : ManagerCall) : InterruptManager * CallResult :=
  match c with
  | CallInterrupt n d s => let '(m', r) := Interrupt m n d s in (m', RInterrupt r)
  | CallResume s => let '(m', r) := Resume m s in (m', RResume r)
  | CallAddBreakpoint n => (AddBreakpoint m n, RNone)
  | CallRemoveBreakpoint n => (RemoveBreakpoint m n, RNone)
  | CallHasBreakpoint n => (m, RHas (HasBreakpoint m n))
  end.

Fixpoint run_calls (m : InterruptManager) (cs : list ManagerCall)
  : InterruptManager * list CallResult :=
  match cs with
  | [] => (m, [])
  | c :: cs' =>
      let '(m1, r) := call m c in
      let '(m2, rs) := run_calls m1 cs' in (m2, r :: rs)
  end.

Definition is_resume (c : ManagerCall) : bool :=
  match c with CallResume _ => true | _ => false end.

Definition is_interrupt (c : ManagerCall) : bool :=
  match c with CallInterrupt _ _ _ => true | _ => false end.
End Methods.
Arguments ManagerCall : clear implicits.
Arguments CallResult : clear implicits.

(** ** Lemmas *)

Lemma HasBreakpoint_spec m n : HasBreakpoint m n = true <-> n ∈ breakpoints m.
Proof. apply bool_decide_eq_true. Qed.

Lemma HasBreakpoint_Add m n n' :
  HasBreakpoint (AddBreakpoint m n) n' = bool_decide (n' = n) || HasBreakpoint m n'.
Proof.
  unfold HasBreakpoint, AddBreakpoint; simpl.
  rewrite <- bool_decide_or. apply bool_decide_ext. set_solver.
Qed.

Lemma HasBreakpoint_Remove m n n' :
  HasBreakpoint (RemoveBreakpoint m n) n' = negb (bool_decide (n' = n)) && HasBreakpoint m n'.
Proof.
  unfold HasBreakpoint, RemoveBreakpoint; simpl.
  rewrite <- bool_decide_not, <- bool_decide_and. apply bool_decide_ext. set_solver.
Qed.

Section Exclusion.
Context {T D : Type} `{!Marshaler T} `{!Marshaler D}.

Lemma call_no_resume_interrupted m (c : ManagerCall T D) :
  interrupted m = true -> is_resume c = false ->
  interrupted (call m c).1 = true /\
  (is_interrupt c = true -> (call m c).2 = RInterrupt (Err "already interrupted")).
Proof.
  intros Hi Hr. destruct c; simpl in *; try done.
  unfold Interrupt. by rewrite Hi.
Qed.

(** C8: Interrupts are exclusive.  Once the manager is interrupted,
    in any sequence of calls without a [Resume] (breakpoint edits,
    queries and further interrupts, from any goroutine), every
    [Interrupt] fails with "already interrupted" and the manager stays
    interrupted. *)
Theorem interrupt_exclusive m (cs : list (ManagerCall T D)) :
  interrupted m = true -> Forall (fun c => is_resume c = false) cs ->
  interrupted (run_calls m cs).1 = true /\
  Forall2 (fun c r => is_interrupt c = true -> r = RInterrupt (Err "already interrupted"))
          cs (run_calls m cs).2.
Proof.
  intros Hi Hcs. revert m Hi. induction Hcs as [|c cs Hc Hcs IH]; intros m Hi; simpl; [done|].
  destruct (call_no_resume_interrupted m c Hi Hc) as [Hi1 Hr].
  destruct (call m c) as [m1 r] eqn:E. simpl in *.
  destruct (IH m1 Hi1) as [Hi2 Hrs]. destruct (run_calls m1 cs) as [m2 rs]. simpl in *.
  split; [done|]. by constructor.
Qed.

(** C14: A failed marshal leaks the flag.  When the payload or the
    state cannot be marshalled, [Interrupt] returns the marshalling
    error and sends nothing, yet leaves the manager interrupted: every
    later [Interrupt] fails with "already interrupted" until someone
    calls [Resume], for which no engine is waiting. *)
Theorem interrupt_marshal_error_sets_flag m n (data : option D) (st : T) e n' data' (st' : T) :
  interrupted m = false ->
  (marshal_data data = Err e \/ (exists db, marshal_data data = Ok db) /\ marshal st = Err e) ->
  Interrupt m n data st = (set_interrupted m true, Err e) /\
  (Interrupt (set_interrupted m true) n' data' st').2 = Err "already interrupted".
Proof.
  intros Hi Hm. unfold Interrupt at 1. rewrite Hi.
  destruct Hm as [-> | [[db ->] ->]]; split; done.
Qed.
End Exclusion.
