(* ===== verification/Graph.v ===== *)
(** * Graph: the builder half of src/unnamed/part_000 (graph.go)

    [StateNode], [ConditionalEdge], the [StateGraph] record and its
    builder methods ([build] runs any sequence of them, [graph_wf] is
    the well-formedness they preserve), [Compile],
    [MarshalState]/[UnmarshalState], and the
    routing step of [Invoke]
    (the scan of [r.graph.edges], lines 264-302) as the pure functions
    [find_edge], [apply_mapping] and [route].  A step function is a Gallina
    function from state to new state and optional error (the [context]
    argument is not modelled: the engine only forwards it); a router
    maps a state to [res (list string)].  A Go [map[string]string] that
    may be [nil] is an [option (gmap string string)].  The constants
    [END] and [START] and the sentinel errors [ErrEntryPointNotSet],
    [ErrNodeNotFound], [ErrNoOutgoingEdge] are declared outside src/;
    they are modelled from the spec. *)

From S2P Require Import Prelude Stream Interrupt.

(** ** Constants declared outside src/ *)

Definition END : string := "__end__".
Definition START : string := "__start__".
Definition ErrEntryPointNotSet : string := "entry point not set".

(** ** Data *)

Section Data.
Context {T D : Type}.

Record StateNode := {
  NName : string;                      (* Go field [Name] *)
  Function : T -> T * option (GoError D)
}.

Definition Router := T -> res (list string).

Record ConditionalEdge := {
  From : string;
  ERouter : Router;                     (* Go field [Router] *)
  Mapping : option (gmap string string)
}.

Record StateGraph := {
  nodes : gmap string StateNode;
  edges : list ConditionalEdge;
  entryPoint : string;
  recursionLimit : Z;
  interruptManager : InterruptManager;
  streamer : Streamer;
  streamConfig : StreamConfig
}.

Record RunnableState := { graph : StateGraph }.

(** [Send] and [Command] are declared for a future extension; the
    engine never consumes them. *)
Record Send := { SNode : string; SState : T }.
Record Command := { Update : T; Goto : string }.
End Data.
Arguments StateNode : clear implicits.
Arguments ConditionalEdge : clear implicits.
Arguments StateGraph : clear implicits.
Arguments RunnableState : clear implicits.

(** ** Builder operations *)

Section Builder.
Context {T D : Type}.
Implicit Types (g : StateGraph T D).

Definition NewStateGraph : StateGraph T D :=
  {| nodes := ∅; edges := []; entryPoint := ""; recursionLimit := 25;
     interruptManager := NewInterruptManager;
     streamer := NewStreamer (Modes DefaultStreamConfig);
     streamConfig := DefaultStreamConfig |}.

Definition SetStreamConfig g (config : StreamConfig) : StateGraph T D :=
  {| nodes := nodes g; edges := edges g; entryPoint := entryPoint g;
     recursionLimit := recursionLimit g; interruptManager := interruptManager g;
     streamer := NewStreamer (Modes config); streamConfig := config |}.

Definition AddNode g (name : string) (fn : T -> T * option (GoError D)) : StateGraph T D :=
  {| nodes := <[name := {| NName := name; Function := fn |}]> (nodes g);
     edges := edges g; entryPoint := entryPoint g;
     recursionLimit := recursionLimit g; interruptManager := interruptManager g;
     streamer := streamer g; streamConfig := streamConfig g |}.

Definition AddConditionalEdges g (from : string) (router : Router)
           (mapping : option (gmap string string)) : StateGraph T D :=
  {| nodes := nodes g;
     edges := edges g ++ [{| From := from; ERouter := router; Mapping := mapping |}];
     entryPoint := entryPoint g;
     recursionLimit := recursionLimit g; interruptManager := interruptManager g;
     streamer := streamer g; streamConfig := streamConfig g |}.

Definition SetEntryPoint g (name : string) : StateGraph T D :=
  {| nodes := nodes g; edges := edges g; entryPoint := name;
     recursionLimit := recursionLimit g; interruptManager := interruptManager g;
     streamer := streamer g; streamConfig := streamConfig g |}.

Definition SetRecursionLimit g (limit : Z) : StateGraph T D :=
  {| nodes := nodes g; edges := edges g; entryPoint := entryPoint g;
     recursionLimit := limit; interruptManager := interruptManager g;
     streamer := streamer g; streamConfig := streamConfig g |}.

(** The manager is shared by pointer: writing a new manager state back
    into the graph is how its mutations become visible to later calls. *)
Definition with_manager g (m : InterruptManager) : StateGraph T D :=
  {| nodes := nodes g; edges := edges g; entryPoint := entryPoint g;
     recursionLimit := recursionLimit g; interruptManager := m;
     streamer := streamer g; streamConfig := streamConfig g |}.

Definition GAddBreakpoint g (nodeName : string) : StateGraph T D :=
  with_manager g (AddBreakpoint (interruptManager g) nodeName).

Definition GRemoveBreakpoint g (nodeName : string) : StateGraph T D :=
  with_manager g (RemoveBreakpoint (interruptManager g) nodeName).

Definition GResume g (state : T) : StateGraph T D * res T :=
  let '(m, r) := Resume (interruptManager g) state in (with_manager g m, r).

Definition Compile g : res (RunnableState T D) :=
  if bool_decide (entryPoint g = "") then Err ErrEntryPointNotSet
  else Ok {| graph := g |}.

(** A call of the builder API: the methods of [*StateGraph] that write
    the graph (lines 80-141).  A program builds a graph by a sequence of
    them from [NewStateGraph]. *)
Inductive BuilderCall :=
| BSetStreamConfig (config : StreamConfig)
| BAddNode (name : string) (fn : T -> T * option (GoError D))
| BAddConditionalEdges (from : string) (router : Router (T:=T)) (mapping : option (gmap string string))
| BSetEntryPoint (name : string)
| BSetRecursionLimit (limit : Z)
| BAddBreakpoint (nodeName : string)
| BRemoveBreakpoint (nodeName : string)
| BResume (state : T).

Definition builder_step g (c : BuilderCall) : StateGraph T D :=
  match c with
  | BSetStreamConfig config => SetStreamConfig g config
  | BAddNode name fn => AddNode g name fn
  | BAddConditionalEdges from router mapping => AddConditionalEdges g from router mapping
  | BSetEntryPoint name => SetEntryPoint g name
  | BSetRecursionLimit limit => SetRecursionLimit g limit
  | BAddBreakpoint n => GAddBreakpoint g n
  | BRemoveBreakpoint n => GRemoveBreakpoint g n
  | BResume state => (GResume g state).1
  end.

Definition build (cs : list BuilderCall) : StateGraph T D := foldl builder_step NewStateGraph cs.

(** Well-formedness of a graph: every node is registered under its own
    [Name], the streamer carries the configured modes, and the manager
    is not interrupted. *)
Definition graph_wf g : Prop :=
  map_Forall (fun n node => NName node = n) (nodes g) /\
  streamer g = NewStreamer (Modes (streamConfig g)) /\
  interrupted (interruptManager g) = false.
End Builder.
Arguments BuilderCall : clear implicits.

(** ** State serialization *)

Section Serialization.
Context {T : Type}.

(** [MarshalState]: [json.Marshal(state)]. *)
Definition MarshalState `{!Marshaler T} (state : T) : res RawMessage := marshal state.

(** [UnmarshalState]: the decoded state, or the zero value with the
    error. *)
Definition UnmarshalState `{!Unmarshaler T} `{!GoZero T} (data : RawMessage) : T * option string :=
  match unmarshal data with
  | Ok state => (state, None)
  | Err e => (zero, Some e)
  end.
End Serialization.

(** ** Routing *)

Section Routing.
Context {T : Type}.
Implicit Types (es : list (ConditionalEdge T)).

(** [for _, edge := range edges { if edge.From == currentNode { ... break } }] *)
Definition find_edge (cur : string) es : option (ConditionalEdge T) :=
  List.find (fun e => bool_decide (From e = cur)) es.

(** One name through the mapping: [mapping[node]] if present, else the
    name unchanged. *)
Definition map_name (mp : gmap string string) (n : string) : string :=
  match mp !! n with
  | Some mapped => mapped
  | None => n
  end.

Definition apply_mapping (mapping : option (gmap string string)) (ns : list string)
  : list string :=
  match mapping with
  | None => ns
  | Some mp => map (map_name mp) ns
  end.

(** The outcome of the routing step of one iteration. *)
Inductive RouteResult :=
| NextNode (n : string)
| NoOutgoingEdge
| RouterError (msg : string)
| InvalidRouterOutput.

Definition route es (cur : string) (st : T) : RouteResult :=
  match find_edge cur es with
  | None => NoOutgoingEdge
  | Some e =>
      match ERouter e st with
      | Err msg => RouterError msg
      | Ok [] => InvalidRouterOutput
      | Ok (n :: ns) => NextNode (hd n (apply_mapping (Mapping e) (n :: ns)))
      end
  end.
End Routing.
Arguments RouteResult : clear implicits.

(** ** Lemmas *)

Section RoutingLemmas.
Context {T : Type}.
Implicit Types (es : list (ConditionalEdge T)).

Lemma apply_mapping_length mapping ns :
  length (apply_mapping mapping ns) = length ns.
Proof. destruct mapping; simpl; [apply length_map|done]. Qed.

Lemma apply_mapping_head mapping n ns :
  hd n (apply_mapping mapping (n :: ns)) =
  match mapping with None => n | Some mp => map_name mp n end.
Proof. by destruct mapping. Qed.

Lemma find_edge_first cur es e :
  find_edge cur es = Some e <->
  exists pre post, es = pre ++ e :: post /\ From e = cur /\
                   Forall (fun e' => From e' <> cur) pre.
Proof.
  unfold find_edge. rewrite find_first.
  setoid_rewrite bool_decide_eq_true. setoid_rewrite bool_decide_eq_false.
  done.
Qed.
End RoutingLemmas.

Section RoutingTheorems.
Context {T D : Type}.
Implicit Types (es : list (ConditionalEdge T)).

(** C9: Routing is first-match, first-candidate.  The routing step
    yields node [n] exactly when some edge [e] is the first edge of the
    list leaving [cur], its router returns a non-empty list whose first
    name is [r], and [n] is [r] translated by [e]'s mapping (names
    absent from the mapping pass through). *)
Theorem route_first_match es cur (st : T) n :
  route es cur st = NextNode n <->
  exists pre e post r rs,
    es = pre ++ e :: post /\ From e = cur /\ Forall (fun e' => From e' <> cur) pre /\
    ERouter e st = Ok (r :: rs) /\
    n = match Mapping e with None => r | Some mp => map_name mp r end.
Proof.
  unfold route. split.
  - destruct (find_edge cur es) as [e|] eqn:Hf; [|done].
    apply find_edge_first in Hf as (pre & post & -> & Hfrom & Hpre).
    destruct (ERouter e st) as [[|r rs]|msg] eqn:Hr; try done.
    intros [= <-]. exists pre, e, post, r, rs. by rewrite apply_mapping_head.
  - intros (pre & e & post & r & rs & -> & Hfrom & Hpre & Hr & ->).
    assert (find_edge cur (pre ++ e :: post) = Some e) as -> by
      (apply find_edge_first; eauto).
    by rewrite Hr, apply_mapping_head.
Qed.

(** Adding edges never reroutes a node that already has one: the
    first-match rule makes later [AddConditionalEdges] calls from the
    same node dead, whatever their router. *)
Theorem AddConditionalEdges_shadowed (g : StateGraph T D) cur from router mapping (st : T) e :
  find_edge cur (edges g) = Some e ->
  route (edges (AddConditionalEdges g from router mapping)) cur st = route (edges g) cur st.
Proof.
  intros Hf. unfold route. simpl. unfold find_edge in *.
  by rewrite (find_app_l _ _ _ _ Hf), Hf.
Qed.
End RoutingTheorems.

Section BuilderTheorems.
Context {T D : Type}.
Implicit Types (g : StateGraph T D).

Lemma NewStateGraph_wf : graph_wf (NewStateGraph (T:=T) (D:=D)).
Proof. split_and!; [apply map_Forall_empty|done|done]. Qed.

Lemma builder_step_wf g c : graph_wf g -> graph_wf (builder_step g c).
Proof.
  intros (Hn & Hs & Hi).
  destruct c as [config|name fn|from router mapping|name|limit|n|n|state];
    try (by split_and!).
  - simpl. split_and!; [|done|done]. by apply map_Forall_insert_2.
  - simpl. unfold GResume, Resume. rewrite Hi. by split_and!.
Qed.

(** C16: Every graph a program builds from [NewStateGraph] with any
    sequence of builder calls is well formed: each node is stored under
    its own name, the streamer's modes are the configured ones, and the
    manager is not interrupted, so the first pause of a run can send. *)
Theorem build_wf (cs : list (BuilderCall T D)) : graph_wf (build cs).
Proof.
  unfold build. generalize NewStateGraph_wf.
  generalize (NewStateGraph (T:=T) (D:=D)). induction cs as [|c cs IH]; intros g Hg; [done|].
  simpl. apply IH, builder_step_wf, Hg.
Qed.
End BuilderTheorems.
