(* ===== verification/Tool.v ===== *)
(** * Tool: the [Tool] interface and [BaseTool] of src/pkg/core/tool.go

    A Go [interface{}] value is a [Value] tree with the dynamic types the
    tools meet: [nil], [bool], [int], [float64], [float32], [string],
    [[]string], [[]interface{}] and [map[string]interface{}].  A Go map
    is an association list [Obj]: its order is one iteration order of
    the map, so a theorem that holds for every permutation of the list
    holds for every order the Go runtime picks.  [float64] is Rocq's
    primitive binary64 float, whose [PrimFloat.eqb] is Go's [==]
    (IEEE: [0 == -0], [NaN != NaN]).

    [validateType] returns [None] where the Go code panics (the
    [reflect.TypeOf(nil).Kind()] call of the ["array"] case), and
    [Validate] returns a [go_result]: a normal return carrying the
    [error] ([None] for [nil]), or a panic.  [deep_equal] is
    [reflect.DeepEqual] on such trees; it does not model the
    same-pointer shortcut of [DeepEqual] nor the difference between a
    [nil] and an empty slice or map, which the model identifies. *)

From S2P Require Import Prelude.
From Stdlib Require Import Floats.

#[local] Set Warnings "-register-all".


(** ** Values *)

Inductive Value :=
| VNil
| VBool (b : bool)
| VInt (z : Z)                          (* Go [int], 64 bits *)
| VFloat64 (f : float)
| VFloat32 (f : float)                  (* a [float32], held exactly *)
| VString (s : string)
| VStringSlice (l : list string)        (* [[]string] *)
| VSlice (l : list Value)               (* [[]interface{}] *)
| VObject (m : list (string * Value)).  (* [map[string]interface{}] *)

Abbreviation Obj := (list (string * Value)).

(** ** Maps *)

Fixpoint lookup_obj (m : Obj) (k : string) : option Value :=
  match m with
  | [] => None
  | (k', v) :: m' => if bool_decide (k = k') then Some v else lookup_obj m' k
  end.

(** [m[k]]: the zero value [nil] when the key is absent. *)
Definition index (m : Obj) (k : string) : Value := default VNil (lookup_obj m k).

(** [m[k] = v]. *)
Fixpoint insert_obj (m : Obj) (k : string) (v : Value) : Obj :=
  match m with
  | [] => [(k, v)]
  | (k', v') :: m' =>
      if bool_decide (k = k') then (k, v) :: m' else (k', v') :: insert_obj m' k v
  end.

(** ** Type assertions [v.(T)] *)

Definition as_string (v : Value) : option string :=
  match v with VString s => Some s | _ => None end.
Definition as_object (v : Value) : option Obj :=
  match v with VObject m => Some m | _ => None end.
Definition as_string_slice (v : Value) : option (list string) :=
  match v with VStringSlice l => Some l | _ => None end.
Definition as_slice (v : Value) : option (list Value) :=
  match v with VSlice l => Some l | _ => None end.

(** [fmt]'s [%T]. *)
Definition type_name (v : Value) : string :=
  match v with
  | VNil => "<nil>"
  | VBool _ => "bool"
  | VInt _ => "int"
  | VFloat64 _ => "float64"
  | VFloat32 _ => "float32"
  | VString _ => "string"
  | VStringSlice _ => "[]string"
  | VSlice _ => "[]interface {}"
  | VObject _ => "map[string]interface {}"
  end.

(** [reflect.DeepEqual]: same dynamic type and equal contents; floats
    by [==]; maps of the same length whose keys all map to deeply equal
    values. *)
Fixpoint deep_equal (v w : Value) : bool :=
  match v, w with
  | VNil, VNil => true
  | VBool a, VBool b => Bool.eqb a b
  | VInt a, VInt b => Z.eqb a b
  | VFloat64 a, VFloat64 b => PrimFloat.eqb a b
  | VFloat32 a, VFloat32 b => PrimFloat.eqb a b
  | VString a, VString b => bool_decide (a = b)
  | VStringSlice a, VStringSlice b => bool_decide (a = b)
  | VSlice a, VSlice b =>
      (fix go (l1 l2 : list Value) : bool :=
         match l1, l2 with
         | [], [] => true
         | x :: l1', y :: l2' => deep_equal x y && go l1' l2'
         | _, _ => false
         end) a b
  | VObject a, VObject b =>
      Nat.eqb (length a) (length b) &&
      forallb (fun kv => match lookup_obj b kv.1 with
                         | Some y => deep_equal kv.2 y
                         | None => false
                         end) a
  | _, _ => false
  end.

(** Values as [encoding/json] decodes them into [interface{}]: numbers
    become [float64], arrays [[]interface{}], objects
    [map[string]interface{}]. *)
Fixpoint json_decoded (v : Value) : bool :=
  match v with
  | VNil | VBool _ | VFloat64 _ | VString _ => true
  | VInt _ | VFloat32 _ | VStringSlice _ => false
  | VSlice l => forallb json_decoded l
  | VObject m => forallb (fun kv => json_decoded kv.2) m
  end.

(** ** [BaseTool] *)

Record BaseTool := {
  name : string;
  description : string;
  schema : Obj
}.

Definition NewBaseTool (name description : string) (schema : Obj) : BaseTool :=
  {| name := name; description := description; schema := schema |}.

Definition Name (t : BaseTool) : string := name t.
Definition Description (t : BaseTool) : string := description t.
Definition JSONSchema (t : BaseTool) : Obj := schema t.

(** The errors [Validate] builds with [fmt.Errorf]. *)
Inductive ValidateError :=
| ErrInvalidSchema                                   (* missing or invalid properties *)
| ErrMissingRequired (field : string)
| ErrUnknownField (name : string)
| ErrInvalidType (name expectedType : string)
| ErrNotInEnum (name : string) (enum : list Value).

(** [validateType]; [None] is the panic of [reflect.TypeOf(nil).Kind()]. *)
Definition validateType (value : Value) (expectedType : string) : option bool :=
  if bool_decide (expectedType = "string") then
    Some (match value with VString _ => true | _ => false end)
  else if bool_decide (expectedType = "number") then
    Some (match value with VFloat64 _ => true | _ => false end)
  else if bool_decide (expectedType = "integer") then
    Some (match value with VInt _ => true | _ => false end)
  else if bool_decide (expectedType = "boolean") then
    Some (match value with VBool _ => true | _ => false end)
  else if bool_decide (expectedType = "object") then
    Some (match value with VObject _ => true | _ => false end)
  else if bool_decide (expectedType = "array") then
    match value with
    | VNil => None
    | VStringSlice _ | VSlice _ => Some true
    | _ => Some false
    end
  else Some true.

(** The keys of the [required] map, in the order [Validate] visits them. *)
Definition required_fields (t : BaseTool) : list string :=
  match as_string_slice (index (schema t) "required") with
  | Some req => remove_dups req
  | None => []
  end.

(** [for field := range required { if _, exists := args[field]; !exists ... }] *)
Definition check_required (fields : list string) (args : Obj) : option ValidateError :=
  match List.find (fun f => bool_decide (lookup_obj args f = None)) fields with
  | Some f => Some (ErrMissingRequired f)
  | None => None
  end.

(** The body of [for name, value := range args], one field. [None]
    continues the loop. *)
Definition validate_field (properties : Obj) (name : string) (value : Value)
  : go_result (option ValidateError) :=
  match as_object (index properties name) with
  | None => Returns (Some (ErrUnknownField name))
  | Some prop =>
      match as_string (index prop "type") with
      | None => Returns None                          (* continue *)
      | Some expectedType =>
          match validateType value expectedType with
          | None => Panics
          | Some false => Returns (Some (ErrInvalidType name expectedType))
          | Some true =>
              match as_slice (index prop "enum") with
              | Some enum =>
                  if existsb (deep_equal value) enum then Returns None
                  else Returns (Some (ErrNotInEnum name enum))
              | None => Returns None
              end
          end
      end
  end.

Fixpoint validate_args (properties : Obj) (args : Obj) : go_result (option ValidateError) :=
  match args with
  | [] => Returns None
  | (n, v) :: rest =>
      match validate_field properties n v with
      | Returns None => validate_args properties rest
      | r => r
      end
  end.

Definition Validate (t : BaseTool) (args : Obj) : go_result (option ValidateError) :=
  match as_object (index (schema t) "properties") with
  | None => Returns (Some ErrInvalidSchema)
  | Some properties =>
      match check_required (required_fields t) args with
      | Some e => Returns (Some e)
      | None => validate_args properties args
      end
  end.

(** ** The [Tool] interface *)

(** A value of the Go interface type [Tool]: its method set.  [Execute]
    drops the [context.Context] argument, which no tool reads. *)
Record Tool := {
  tName : string;
  tDescription : string;
  tJSONSchema : Obj;
  tExecute : Obj -> res Value;
  tValidate : Obj -> go_result (option ValidateError)
}.

(** ** What [Validate] accepts *)

(** A field passes the loop body: its property is an object, and when
    that property has a ["type"] string the value has that type and, when
    it also has an ["enum"] of type [[]interface{}], the value is deeply
    equal to one of its members. *)
Definition field_accepted (properties : Obj) (n : string) (v : Value) : Prop :=
  exists prop, as_object (index properties n) = Some prop /\
    forall ty, as_string (index prop "type") = Some ty ->
      validateType v ty = Some true /\
      forall enum, as_slice (index prop "enum") = Some enum ->
        Exists (fun e => deep_equal v e = true) enum.

(** ** Lemmas *)

Lemma lookup_obj_None m k : lookup_obj m k = None <-> k ∉ m.*1.
Proof.
  induction m as [|[k' v] m IH]; simpl; [set_solver|].
  rewrite not_elem_of_cons. case_bool_decide; naive_solver.
Qed.

Lemma check_required_ok fields args :
  check_required fields args = None <-> Forall (fun f => f ∈ args.*1) fields.
Proof.
  unfold check_required. induction fields as [|f fields IH]; simpl; [split; constructor|].
  rewrite Forall_cons. case_bool_decide as Hf.
  - apply lookup_obj_None in Hf. naive_solver.
  - rewrite lookup_obj_None in Hf. apply dec_stable in Hf. naive_solver.
Qed.

Lemma validate_args_ok properties args :
  validate_args properties args = Returns None <->
  Forall (fun nv => validate_field properties nv.1 nv.2 = Returns None) args.
Proof.
  induction args as [|[n v] args IH]; simpl; [split; constructor|].
  rewrite Forall_cons. simpl.
  destruct (validate_field properties n v) as [[e|]|]; naive_solver.
Qed.

Lemma validate_field_ok properties n v :
  validate_field properties n v = Returns None <-> field_accepted properties n v.
Proof.
  unfold validate_field, field_accepted.
  destruct (as_object (index properties n)) as [prop|]; [|naive_solver]. split.
  - intros Hr. exists prop. split; [done|]. intros ty Ht. rewrite Ht in Hr.
    destruct (validateType v ty) as [[|]|]; try discriminate. split; [done|].
    intros enum Hs. rewrite Hs in Hr. destruct (existsb _ _) eqn:He; [|discriminate].
    apply existsb_exists in He as (e & ? & ?). apply Exists_exists.
    exists e. by rewrite list_elem_of_In.
  - intros (? & [= <-] & Hty).
    destruct (as_string (index prop "type")) as [ty|] eqn:Ht; [|done].
    destruct (Hty ty) as [-> Hen]; [done|].
    destruct (as_slice (index prop "enum")) as [enum|] eqn:Hs; [|done].
    assert (Hex : Exists (fun e => deep_equal v e = true) enum) by (apply Hen; done).
    apply Exists_exists in Hex as (e & Hin%list_elem_of_In & ?).
    assert (existsb (deep_equal v) enum = true) as -> by (apply existsb_exists; eauto).
    done.
Qed.

Lemma required_fields_spec t f :
  f ∈ required_fields t <->
  exists req, index (schema t) "required" = VStringSlice req /\ f ∈ req.
Proof.
  unfold required_fields. destruct (index (schema t) "required"); simpl;
    try (split; [set_solver | naive_solver]).
  rewrite elem_of_remove_dups. naive_solver.
Qed.

Lemma Validate_ok_fields t args :
  Validate t args = Returns None <->
  exists properties, as_object (index (schema t) "properties") = Some properties /\
    Forall (fun f => f ∈ args.*1) (required_fields t) /\
    Forall (fun nv => validate_field properties nv.1 nv.2 = Returns None) args.
Proof.
  unfold Validate. destruct (as_object _) as [properties|]; [|naive_solver].
  setoid_rewrite <-check_required_ok. setoid_rewrite <-validate_args_ok.
  destruct (check_required _ _); naive_solver.
Qed.

Lemma lookup_obj_elem m k v : lookup_obj m k = Some v -> (k, v) ∈ m.
Proof.
  induction m as [|[k' v'] m IH]; simpl; [done|].
  case_bool_decide; [intros [= <-]; subst; by left|]. intros; right; auto.
Qed.

(** With distinct keys, a Go map's lookups do not depend on the order
    the association list stands for. *)
Lemma lookup_obj_NoDup m k v : NoDup m.*1 -> (k, v) ∈ m -> lookup_obj m k = Some v.
Proof.
  induction m as [|[k' v'] m IH]; simpl; [set_solver|].
  intros [Hk Hnd]%NoDup_cons [[= -> ->]|Hin]%elem_of_cons; case_bool_decide; subst; try done.
  - destruct Hk. apply (list_elem_of_fmap_2 fst _ (k', v) Hin).
  - by apply IH.
Qed.

Lemma lookup_obj_perm m m' k : NoDup m.*1 -> m ≡ₚ m' -> lookup_obj m k = lookup_obj m' k.
Proof.
  intros Hnd Hp. assert (Hnd' : NoDup m'.*1) by (by rewrite <-Hp).
  destruct (lookup_obj m k) as [v|] eqn:H.
  - apply lookup_obj_elem in H. symmetry. apply lookup_obj_NoDup; [done|by rewrite <-Hp].
  - apply lookup_obj_None in H. symmetry. apply lookup_obj_None. by rewrite <-Hp.
Qed.

Lemma lookup_obj_insert m k v : lookup_obj (insert_obj m k v) k = Some v.
Proof.
  induction m as [|[k' v'] m IH]; simpl; [by rewrite bool_decide_true|].
  case_bool_decide; simpl; [by rewrite bool_decide_true|].
  by rewrite bool_decide_false.
Qed.

Lemma Validate_ok_required t args f :
  Validate t args = Returns None -> f ∈ required_fields t ->
  exists v, lookup_obj args f = Some v.
Proof.
  intros (? & _ & Hreq & _)%Validate_ok_fields Hf.
  rewrite Forall_forall in Hreq. specialize (Hreq f Hf).
  destruct (lookup_obj args f) eqn:Hl; [eauto|]. by apply lookup_obj_None in Hl.
Qed.

Lemma Validate_ok_lookup t args properties n v :
  Validate t args = Returns None ->
  as_object (index (schema t) "properties") = Some properties ->
  lookup_obj args n = Some v -> validate_field properties n v = Returns None.
Proof.
  intros (properties' & Hp & _ & Hall)%Validate_ok_fields Hp' Hl.
  rewrite Hp in Hp'. injection Hp' as <-.
  rewrite Forall_forall in Hall. apply (Hall (n, v)), lookup_obj_elem, Hl.
Qed.

(** ** Theorems *)

(** C19: [Validate] accepts exactly the argument maps whose every
    required field is present and whose every field passes the loop
    body: the schema has a [properties] object, each key of the
    [required] [[]string] is a key of [args], and each field is
    [field_accepted]. *)
Theorem Validate_ok_iff t args :
  Validate t args = Returns None <->
  exists properties, as_object (index (schema t) "properties") = Some properties /\
    (forall req f, index (schema t) "required" = VStringSlice req -> f ∈ req -> f ∈ args.*1) /\
    Forall (fun nv => field_accepted properties nv.1 nv.2) args.
Proof.
  rewrite Validate_ok_fields. setoid_rewrite Forall_forall.
  setoid_rewrite required_fields_spec. setoid_rewrite validate_field_ok.
  naive_solver.
Qed.

(** Whether [Validate] accepts an argument map does not depend on
    the order in which Go iterates over it. *)
Theorem Validate_ok_perm t args args' :
  args ≡ₚ args' -> Validate t args = Returns None <-> Validate t args' = Returns None.
Proof.
  intros Hp. rewrite !Validate_ok_fields.
  assert (Hk : args.*1 ≡ₚ args'.*1) by (by rewrite Hp).
  setoid_rewrite Hk. by setoid_rewrite Hp.
Qed.

(** C22: Which error [Validate] reports, and whether it panics instead,
    depends on the map's iteration order: for every schema with an
    ["array"] property [f] and every argument map that passes the
    required check and holds [f] with a [nil] value (a JSON [null]) and
    a field [x] that is not a property, the order that visits [f] first
    panics in [validateType], and the one that visits [x] first returns
    the unknown-field error. *)
Theorem Validate_order_dependent t properties prop f x v rest :
  as_object (index (schema t) "properties") = Some properties ->
  as_object (index properties f) = Some prop -> as_string (index prop "type") = Some "array" ->
  as_object (index properties x) = None ->
  check_required (required_fields t) ((f, VNil) :: (x, v) :: rest) = None ->
  Validate t ((f, VNil) :: (x, v) :: rest) = Panics /\
  Validate t ((x, v) :: (f, VNil) :: rest) = Returns (Some (ErrUnknownField x)).
Proof.
  intros Hp Hf Ht Hx Hr. unfold Validate. rewrite Hp, Hr.
  assert (Hr' : check_required (required_fields t) ((x, v) :: (f, VNil) :: rest) = None).
  { rewrite check_required_ok in *. eapply Forall_impl; [exact Hr|]. simpl. set_solver. }
  rewrite Hr'. simpl. unfold validate_field. rewrite Hf, Ht, Hx. done.
Qed.

(** C23: An ["integer"] field never accepts a value decoded by
    [encoding/json], which turns every JSON number into a [float64]: an
    argument map that holds such a field is rejected. *)
Theorem Validate_rejects_json_integer t properties prop args n v :
  as_object (index (schema t) "properties") = Some properties ->
  as_object (index properties n) = Some prop ->
  as_string (index prop "type") = Some "integer" ->
  (n, v) ∈ args -> json_decoded v = true ->
  Validate t args <> Returns None.
Proof.
  intros Hp Hn Ht Hin Hj (properties' & Hp' & _ & Hall)%Validate_ok_fields.
  rewrite Hp in Hp'. injection Hp' as <-.
  rewrite Forall_forall in Hall. specialize (Hall _ Hin). simpl in Hall.
  apply validate_field_ok in Hall as (prop' & Hn' & Hty). rewrite Hn in Hn'.
  injection Hn' as <-. destruct (Hty _ Ht) as [Hv _].
  destruct v; simpl in *; discriminate.
Qed.

(** ** Witnesses *)

Lemma Validate_ok_perm_witness :
  let t := NewBaseTool "t" "d"
             [("properties", VObject [("a", VObject []); ("b", VObject [])])] in
  (Validate t [("a", VNil); ("b", VNil)] = Returns None <->
   Validate t [("b", VNil); ("a", VNil)] = Returns None).
Proof. intros t. apply Validate_ok_perm. apply perm_swap. Defined.

Lemma Validate_order_dependent_witness :
  let t := NewBaseTool "t" "d"
             [("properties", VObject [("tags", VObject [("type", VString "array")])])] in
  Validate t [("tags", VNil); ("x", VBool true)] = Panics /\
  Validate t [("x", VBool true); ("tags", VNil)] = Returns (Some (ErrUnknownField "x")).
Proof.
  apply (Validate_order_dependent _ [("tags", VObject [("type", VString "array")])]
           [("type", VString "array")]); reflexivity.
Defined.

Lemma Validate_rejects_json_integer_witness :
  Validate (NewBaseTool "t" "d"
              [("properties", VObject [("count", VObject [("type", VString "integer")])])])
           [("count", VFloat64 PrimFloat.two)] <> Returns None.
Proof.
  apply (Validate_rejects_json_integer _ [("count", VObject [("type", VString "integer")])]
           [("type", VString "integer")] _ "count" (VFloat64 PrimFloat.two));
    [reflexivity | reflexivity | reflexivity | by left | reflexivity].
Defined.
