(* ===== verification/RtcServer.v ===== *)
(** * RtcServer: the token server of src/examples/rtc/main.go

    The example serves a static page and one endpoint, [/rtc], that hands
    the browser an ephemeral OpenAI Realtime token.  Tokens are cached in
    the global [tokenCache] for 50 seconds after they are stored.

    - The cache is the record [TokenCache] (the [*SessionResponse], nil
      as [None], and [expiresAt]); [tc_get] and [tc_set] are its [get]
      and [set] at the current clock, in nanoseconds.
    - The server's world is [Server]: the cache, the clock, the value
      of [OPENAI_API_KEY], the HTTP exchanges still to come (what
      [client.Do] and [io.ReadAll] report, in order), the requests sent,
      the log lines, and a history [stored] of the tokens [set] put in
      the cache with their times.  [stored] is a history variable: the
      code does not keep it, the theorems read it.
    - [createEphemeralToken] is a computation of [ST Server] composed of
      its three critical sections: [ce_lookup] (the [get] under the read
      lock and its log line), [ce_fetch] (the request, lines 79-122) and
      [ce_store] (the [set] under the write lock).  [http_do] blocks
      forever when no exchange is left ([Hang]): the client has no
      timeout.  [handleWebRTCSignaling] turns its result into the HTTP
      reply.
    - The HTTP server runs each request in a goroutine: [rstep] is one
      atomic step of one request (a new request, a critical section of
      [createEphemeralToken]) or the clock advancing, so its
      reachability covers every interleaving of concurrent requests.
    - [serve_request] serves one request as [http.ServeMux] does with
      the routes of [main]: the longest matching pattern wins, no match
      is a 404; [serve_handler] runs [loggerMiddleware] before the
      static file server, which is the class [FileServer].
    - [json.Marshal] and [json.Unmarshal] are the classes of [Interrupt];
      the payload and the replies are maps of [Tool]'s [Value]s. *)

From S2P Require Import Prelude Interrupt Tool.
Local Open Scope Z_scope.

(** ** Data *)

(** [time.Second], in nanoseconds. *)
Definition Second : Z := 1000000000.

(** The lifetime [set] gives a cached token. *)
Definition token_ttl : Z := 50 * Second.

(** [SessionResponse]: only [ClientSecret.Value] is declared. *)
Record SessionResponse := { ClientSecretValue : string }.

#[export] Instance SessionResponse_eq_dec : EqDecision SessionResponse.
Proof. intros [a] [b]. destruct (decide (a = b)); [left|right]; congruence. Defined.

(** [upgrader.CheckOrigin]: every origin is accepted.  The upgrader is
    declared, but no handler upgrades a connection to a WebSocket. *)
Definition CheckOrigin (origin : string) : bool := true.

(** [WebRTCMessage] (declared; no handler decodes one). *)
Record WebRTCMessage := { MsgType : string; MsgData : RawMessage }.

Record TokenCache := {
  token : option SessionResponse;
  expiresAt : Z
}.

(** [tokenCache = &TokenCache{}]. *)
Definition NewTokenCache : TokenCache := {| token := None; expiresAt := 0 |}.

(** [TokenCache.get] at clock [now]: the token while [now] is before
    [expiresAt] ([time.Time.Before] is strict). *)
Definition tc_get (tc : TokenCache) (now : Z) : option SessionResponse :=
  match token tc with
  | Some t => if bool_decide (now < expiresAt tc) then Some t else None
  | None => None
  end.

(** [TokenCache.set] at clock [now]. *)
Definition tc_set (tc : TokenCache) (t : SessionResponse) (now : Z) : TokenCache :=
  {| token := Some t; expiresAt := now + token_ttl |}.

(** The request [createEphemeralToken] builds. *)
Record Request := {
  RMethod : string;
  RURL : string;
  RHeaders : list (string * string);
  RBody : RawMessage
}.

(** What [client.Do] and [io.ReadAll] report for one request. *)
Inductive HttpOutcome :=
| DoError (err : string)                         (* [client.Do] fails *)
| Reply (status : Z) (body : res string).        (* status, [io.ReadAll] result *)

Record Server := {
  cache : TokenCache;
  clock : Z;
  api_key : string;           (* [os.Getenv("OPENAI_API_KEY")] *)
  net : list HttpOutcome;
  sent : list Request;
  logs : list string;
  stored : list (SessionResponse * Z)
}.

Abbreviation SM := (ST Server Empty_set).

(** ** The handler *)

Section Handler.
Context `{!Marshaler Obj} `{!Unmarshaler SessionResponse}.

Definition log_printf (line : string) : SM unit :=
  fun s => (Ret tt, {| cache := cache s; clock := clock s; api_key := api_key s; net := net s;
                      sent := sent s; logs := logs s ++ [line]; stored := stored s |}).

(** [tokenCache.get()], under the read lock. *)
Definition cache_get : SM (option SessionResponse) :=
  s <- st_get ;; st_ret (tc_get (cache s) (clock s)).

(** [tokenCache.set(token)], under the write lock. *)
Definition cache_set (t : SessionResponse) : SM unit :=
  fun s => (Ret tt, {| cache := tc_set (cache s) t (clock s); clock := clock s;
                      api_key := api_key s; net := net s; sent := sent s; logs := logs s;
                      stored := stored s ++ [(t, clock s)] |}).

(** [client.Do(req)] and the read of the body: the next exchange. *)
Definition http_do (req : Request) : SM HttpOutcome :=
  fun s => match net s with
           | [] => (Hang, s)
           | o :: os => (Ret o, {| cache := cache s; clock := clock s; api_key := api_key s;
                                  net := os; sent := sent s ++ [req]; logs := logs s;
                                  stored := stored s |})
           end.

Definition session_payload : Obj :=
  [("model", VString "gpt-4o-mini-realtime-preview-2024-12-17"); ("voice", VString "verse")].

Definition sessions_url : string := "https://api.openai.com/v1/realtime/sessions".

(** [http.NewRequest] and the two [Header.Set] calls ([NewRequest]
    cannot fail on this method and URL). *)
Definition session_request (apiKey : string) (jsonData : RawMessage) : Request :=
  {| RMethod := "POST"; RURL := sessions_url;
     RHeaders := [("Authorization", "Bearer " +:+ apiKey); ("Content-Type", "application/json")];
     RBody := jsonData |}.

(** Lines 110-122: the read error, the status check, the decoding. *)
Definition read_session (o : HttpOutcome) : res SessionResponse :=
  match o with
  | DoError e => Err e
  | Reply status body =>
      match body with
      | Err e => Err e
      | Ok b =>
          if bool_decide (status = 200) then unmarshal b
          else Err ("OpenAI API error: " +:+ b)
      end
  end.

(** Lines 74-77: the cache check. *)
Definition ce_lookup : SM (option SessionResponse) :=
  t <- cache_get ;;
  match t with
  | Some tok => log_printf "Using cached ephemeral token" ;;; st_ret (Some tok)
  | None => st_ret None
  end.

(** Lines 79-122: a new token from the API. *)
Definition ce_fetch : SM (res SessionResponse) :=
  log_printf "Creating new ephemeral token" ;;;
  s <- st_get ;;
  if bool_decide (api_key s = "") then
    st_ret (Err "OPENAI_API_KEY environment variable not set")
  else
    match marshal session_payload with
    | Err e => st_ret (Err e)
    | Ok jsonData =>
        o <- http_do (session_request (api_key s) jsonData) ;;
        st_ret (read_session o)
    end.

(** Lines 124-126: cache the token. *)
Definition ce_store (sr : SessionResponse) : SM unit := cache_set sr.

Definition createEphemeralToken : SM (res SessionResponse) :=
  t <- ce_lookup ;;
  match t with
  | Some tok => st_ret (Ok tok)
  | None =>
      r <- ce_fetch ;;
      match r with
      | Err e => st_ret (Err e)
      | Ok sr => ce_store sr ;;; st_ret (Ok sr)
      end
  end.

(** An HTTP reply: status, [Content-Type] and body. *)
Inductive ReplyBody := BodyText (s : string) | BodyJSON (o : Obj).
Record HttpReply := { Status : Z; ContentType : string; RBodyOut : ReplyBody }.

Definition newline : string := String (Ascii.ascii_of_nat 10) EmptyString.

(** [http.Error(w, msg, code)]. *)
Definition http_error (msg : string) (code : Z) : HttpReply :=
  {| Status := code; ContentType := "text/plain; charset=utf-8"; RBodyOut := BodyText (msg +:+ newline) |}.

(** The reply for a result of [createEphemeralToken] (lines 143-154);
    the error of [Encode] is ignored by the code. *)
Definition signaling_reply (r : res SessionResponse) : HttpReply :=
  match r with
  | Err e => http_error e 500
  | Ok session =>
      {| Status := 200; ContentType := "application/json";
         RBodyOut := BodyJSON [("token", VString (ClientSecretValue session))] |}
  end.

(** [handleWebRTCSignaling] (the remote address in its log line is
    the request's, not modelled). *)
Definition handleWebRTCSignaling : SM HttpReply :=
  log_printf "New token request" ;;;
  r <- createEphemeralToken ;;
  match r with
  | Err e => log_printf ("Failed to create ephemeral token: " +:+ e) ;;; st_ret (signaling_reply r)
  | Ok _ => st_ret (signaling_reply r)
  end.

(** [sendError]: the JSON message [conn.WriteJSON] writes (a write
    error is only logged). *)
Definition sendError (message : string) : Obj :=
  [("type", VString "error"); ("message", VString message)].
End Handler.

(** ** Concurrent requests *)

(** The progress of one request through [createEphemeralToken]: not yet
    at the cache, missed it, holding a fetched token, or done with its
    result at a clock value. *)
Inductive Phase :=
| PStart
| PMissed
| PGot (sr : SessionResponse)
| PDone (r : res SessionResponse) (at_ : Z).

Record RState := { srv : Server; reqs : list Phase }.

(** The clock moves forward by [d]. *)
Definition tick (s : Server) (d : Z) : Server :=
  {| cache := cache s; clock := clock s + d; api_key := api_key s; net := net s;
     sent := sent s; logs := logs s; stored := stored s |}.

Section Concurrent.
Context `{!Marshaler Obj} `{!Unmarshaler SessionResponse}.

(** One atomic step: a new request arrives (its goroutine logs it), the
    clock advances, or a request runs its next critical section. *)
Inductive rstep : RState -> RState -> Prop :=
| rs_request rs :
    rstep rs {| srv := (log_printf "New token request" (srv rs)).2; reqs := reqs rs ++ [PStart] |}
| rs_tick rs d :
    0 < d -> rstep rs {| srv := tick (srv rs) d; reqs := reqs rs |}
| rs_lookup rs i r s' :
    reqs rs !! i = Some PStart -> ce_lookup (srv rs) = (Ret r, s') ->
    rstep rs {| srv := s';
                reqs := <[i := match r with Some tok => PDone (Ok tok) (clock s') | None => PMissed end]>
                          (reqs rs) |}
| rs_fetch rs i r s' :
    reqs rs !! i = Some PMissed -> ce_fetch (srv rs) = (Ret r, s') ->
    rstep rs {| srv := s';
                reqs := <[i := match r with Ok sr => PGot sr | Err e => PDone (Err e) (clock s') end]>
                          (reqs rs) |}
| rs_store rs i sr s' :
    reqs rs !! i = Some (PGot sr) -> ce_store sr (srv rs) = (Ret tt, s') ->
    rstep rs {| srv := s'; reqs := <[i := PDone (Ok sr) (clock s')]> (reqs rs) |}.
End Concurrent.

(** The server at start-up: the empty cache, clock [t0], nothing sent. *)
Definition server_init (t0 : Z) (key : string) (os : list HttpOutcome) : Server :=
  {| cache := NewTokenCache; clock := t0; api_key := key; net := os; sent := [];
     logs := []; stored := [] |}.

(** ** Start-up and routing *)

(** What [main] asks of the operating system: [os.Getwd], whether
    [os.Stat] reports [os.IsNotExist] for a path, [filepath.Join], and
    the error [http.ListenAndServe] returns (it returns only on error). *)
Class OS := {
  getwd : res string;
  not_exist : string -> bool;
  path_join : list string -> string;
  listen_error : string
}.

(** The handlers [main] registers. *)
Inductive Handler :=
| HSignaling                       (* [handleWebRTCSignaling] *)
| HFileServer (dir : string)       (* [http.FileServer(http.Dir(dir))] *)
| HLogged (next : Handler).        (* [loggerMiddleware(next)] *)

(** A [ServeMux] pattern without a trailing slash matches that path
    only; one ending in a slash matches every path it prefixes; the
    longest matching pattern wins. *)
Definition pattern_matches (pat path : string) : bool :=
  if bool_decide (last (String.list_ascii_of_string pat) = Some (Ascii.ascii_of_nat 47))
  then bool_decide (String.list_ascii_of_string pat `prefix_of` String.list_ascii_of_string path)
  else bool_decide (pat = path).

Definition mux_route (mux : list (string * Handler)) (path : string) : option Handler :=
  snd <$> foldl (fun best '(pat, h) =>
                   if pattern_matches pat path then
                     match best with
                     | Some (p, _) => if bool_decide (String.length p < String.length pat)%nat then Some (pat, h) else best
                     | None => Some (pat, h)
                     end
                   else best) None mux.

(** The outcome of [main]: [log.Fatal] with its message, or the
    server returning from [ListenAndServe] with an error (also fatal). *)
Inductive MainOutcome :=
| Fatal (msg : string)
| ServeFailed (addr : string) (mux : list (string * Handler)) (msg : string).

Definition rtc_mux (staticDir : string) : list (string * Handler) :=
  [("/rtc", HSignaling); ("/", HLogged (HFileServer staticDir))].

(** [main], lines 157-204 (the log lines between the checks are not
    modelled). *)
Definition rtc_main `{!OS} : MainOutcome :=
  match getwd with
  | Err e => Fatal ("Failed to get current working directory:" +:+ e)
  | Ok cwd =>
      let staticDir := path_join [cwd; "examples"; "rtc"; "static"] in
      if not_exist staticDir then Fatal ("Static directory not found:" +:+ staticDir)
      else
        let indexPath := path_join [staticDir; "index.html"] in
        if not_exist indexPath then Fatal ("index.html not found:" +:+ indexPath)
        else ServeFailed ":8080" (rtc_mux staticDir) ("Server failed to start:" +:+ listen_error)
  end.

(** ** Serving a request *)

(** The parts of an [*http.Request] the handlers read. *)
Record HttpRequest := { Method : string; Path : string; RemoteAddr : string }.

(** [http.FileServer(http.Dir(dir))] answering for a path: a library
    handler, here a class. *)
Class FileServer := serve_file : string -> string -> HttpReply.

(** [http.NotFound]: the reply of a [ServeMux] without a matching pattern. *)
Definition not_found : HttpReply :=
  {| Status := 404; ContentType := "text/plain; charset=utf-8";
     RBodyOut := BodyText ("404 page not found" +:+ newline) |}.

Section Serve.
Context `{!Marshaler Obj} `{!Unmarshaler SessionResponse} `{!FileServer}.

(** A registered handler on a request; [loggerMiddleware] (lines 53-59)
    logs the method, path and remote address, then calls [next]. *)
Fixpoint serve_handler (h : Handler) (r : HttpRequest) : SM HttpReply :=
  match h with
  | HSignaling => handleWebRTCSignaling
  | HFileServer dir => st_ret (serve_file dir (Path r))
  | HLogged next =>
      log_printf ("[" +:+ Method r +:+ "] " +:+ Path r +:+ " " +:+ RemoteAddr r) ;;;
      serve_handler next r
  end.

(** The server [ListenAndServe] runs: the mux picks the handler. *)
Definition serve_request (mux : list (string * Handler)) (r : HttpRequest) : SM HttpReply :=
  match mux_route mux (Path r) with
  | Some h => serve_handler h r
  | None => st_ret not_found
  end.
End Serve.

(** ** Codecs for the concrete runs *)

Definition dq : string := String (Ascii.ascii_of_nat 34) EmptyString.

(** [json.Marshal] of a map whose values are strings, keys in order. *)
Definition string_map_json : Marshaler Obj := fun o =>
  Ok ("{" +:+ foldr (fun kv acc =>
                      let sep := match acc with EmptyString => "" | _ => "," end in
                      match kv.2 with
                      | VString v => dq +:+ kv.1 +:+ dq +:+ ":" +:+ dq +:+ v +:+ dq +:+ sep +:+ acc
                      | _ => acc
                      end) "" o +:+ "}").

(** [json.Unmarshal] into a [SessionResponse] for bodies of two shapes:
    the empty object, which Go decodes to the zero value (an empty
    secret), and a bare secret; anything else is a syntax error. *)
Definition secret_json : Unmarshaler SessionResponse := fun b =>
  if bool_decide (b = "{}") then Ok {| ClientSecretValue := "" |}
  else if bool_decide (String.prefix "ek_" b = true) then Ok {| ClientSecretValue := b |}
  else Err "invalid character looking for beginning of value".

(** ** Specification predicates *)

(** The cached token, if any, was stored [token_ttl] before it expires,
    and not later than now. *)
Definition cache_ok (s : Server) : Prop :=
  forall tok, token (cache s) = Some tok ->
    (tok, expiresAt (cache s) - token_ttl) ∈ stored s /\ expiresAt (cache s) - token_ttl <= clock s.

(** Every token a request was answered with had been stored less than
    [token_ttl] before the answer. *)
Definition served_fresh (s : Server) (ps : list Phase) : Prop :=
  forall i tok t, ps !! i = Some (PDone (Ok tok) t) ->
    exists ts, (tok, ts) ∈ stored s /\ ts <= t < ts + token_ttl.

Definition fresh_inv (rs : RState) : Prop := cache_ok (srv rs) /\ served_fresh (srv rs) (reqs rs).

(** ** Lemmas *)

(** Take one step of [rstep] by the constructor application [c]. *)
Ltac rstep_to c := eapply rtc_l; [c|].

Section Lemmas.
Context `{!Marshaler Obj} `{!Unmarshaler SessionResponse}.

Lemma ce_lookup_spec s :
  ce_lookup s = match tc_get (cache s) (clock s) with
                | Some tok => (Ret (Some tok), (log_printf "Using cached ephemeral token" s).2)
                | None => (Ret None, s)
                end.
Proof. unfold ce_lookup, cache_get, st_bind. simpl. by destruct (tc_get _ _). Qed.

(** [ce_fetch] leaves the cache, the clock and the history alone. *)
Lemma ce_fetch_frame s o s' :
  ce_fetch s = (o, s') -> cache s' = cache s /\ clock s' = clock s /\ stored s' = stored s.
Proof.
  unfold ce_fetch, st_bind, st_get, http_do. simpl. case_bool_decide; [by intros [= _ <-]|].
  destruct (marshal _); [|by intros [= _ <-]]. destruct (net s); by intros [= _ <-].
Qed.

Lemma token_ttl_pos : 0 < token_ttl.
Proof. by vm_compute. Qed.

Lemma tc_get_Some tc now tok :
  tc_get tc now = Some tok <-> token tc = Some tok /\ now < expiresAt tc.
Proof.
  unfold tc_get. destruct (token tc); [case_bool_decide|]; naive_solver.
Qed.

Lemma served_fresh_mono s s' ps :
  stored s ⊆ stored s' -> served_fresh s ps -> served_fresh s' ps.
Proof. intros Hsub H i tok t Hi. destruct (H i tok t Hi) as (ts & ? & ?). eauto. Qed.

Lemma served_fresh_insert s ps i p :
  served_fresh s ps ->
  (forall tok t, p = PDone (Ok tok) t -> exists ts, (tok, ts) ∈ stored s /\ ts <= t < ts + token_ttl) ->
  served_fresh s (<[i := p]> ps).
Proof.
  intros H Hp j tok t Hj. apply list_lookup_insert_Some in Hj as [(_ & Hpj & _)|(_ & Hj)]; eauto.
Qed.

Lemma served_fresh_app s ps :
  served_fresh s ps -> served_fresh s (ps ++ [PStart]).
Proof.
  intros H i tok t Hi. apply lookup_app_Some in Hi as [Hi|(_ & Hi)]; [eauto|].
  apply list_lookup_singleton_Some in Hi as [_ [=]].
Qed.

(** The server after [ce_fetch] sent its request and got [o]. *)
Lemma ce_fetch_request s jd o os :
  api_key s <> "" -> marshal session_payload = Ok jd -> net s = o :: os ->
  ce_fetch s =
    (Ret (read_session o),
     {| cache := cache s; clock := clock s; api_key := api_key s; net := os;
        sent := sent s ++ [session_request (api_key s) jd];
        logs := logs s ++ ["Creating new ephemeral token"]; stored := stored s |}).
Proof.
  intros Hk Hm Hn. unfold ce_fetch, st_bind, st_get, http_do. simpl.
  rewrite bool_decide_false by done. rewrite Hm. simpl. by rewrite Hn.
Qed.

(** A call that misses the cache is [ce_fetch], then [ce_store] on
    success. *)
Lemma createEphemeralToken_miss s :
  tc_get (cache s) (clock s) = None ->
  createEphemeralToken s =
    match ce_fetch s with
    | (Ret (Ok sr), s1) => (Ret (Ok sr), (cache_set sr s1).2)
    | (Ret (Err e), s1) => (Ret (Err e), s1)
    | (Throw e, s1) => (Throw e, s1)
    | (Hang, s1) => (Hang, s1)
    | (NoFuel, s1) => (NoFuel, s1)
    end.
Proof.
  intros Hg. unfold createEphemeralToken. unfold st_bind at 1. rewrite ce_lookup_spec, Hg.
  unfold st_bind. destruct (ce_fetch s) as [[[sr|e]| | |] s1]; reflexivity.
Qed.

(** A call that missed the cache and succeeded stored its token at the
    clock of the call. *)
Lemma createEphemeralToken_fetched s sr s' :
  tc_get (cache s) (clock s) = None -> createEphemeralToken s = (Ret (Ok sr), s') ->
  cache s' = tc_set (cache s) sr (clock s) /\ clock s' = clock s /\
  stored s' = stored s ++ [(sr, clock s)].
Proof.
  intros Hg. rewrite (createEphemeralToken_miss _ Hg).
  destruct (ce_fetch s) as [o s1] eqn:Hf. destruct (ce_fetch_frame _ _ _ Hf) as (Hc & Hk & Hs).
  destruct o as [[sr'|e']| | |]; intros H; inversion H; subst. simpl. by rewrite Hc, Hk, Hs.
Qed.

Lemma rstep_fresh rs rs' : rstep rs rs' -> fresh_inv rs -> fresh_inv rs'.
Proof.
  intros Hstep [Hc Hf]. destruct Hstep as [rs|rs d Hd|rs i r s' Hi Hl|rs i r s' Hi Hfe|rs i sr s' Hi Hst];
    unfold fresh_inv, cache_ok in *; simpl in *.
  - split; [done|]. by apply served_fresh_app.
  - split; [|done]. intros tok Htok. destruct (Hc tok Htok). split; [done|lia].
  - rewrite ce_lookup_spec in Hl. destruct (tc_get _ _) as [tok|] eqn:Hg; injection Hl as <- <-; simpl.
    + apply tc_get_Some in Hg as [Htok Hlt]. destruct (Hc tok Htok).
      split; [done|]. apply served_fresh_insert; [done|]. intros ?? [= <- <-].
      exists (expiresAt (cache (srv rs)) - token_ttl). split; [done|lia].
    + split; [done|]. by apply served_fresh_insert.
  - destruct (ce_fetch_frame _ _ _ Hfe) as (Hc' & Hk' & Hs'). split.
    + intros tok. rewrite Hc', Hk', Hs'. apply Hc.
    + apply served_fresh_insert; [apply (served_fresh_mono (srv rs)); [by rewrite Hs'|done]|].
      destruct r; intros ?? Heq; inversion Heq.
  - injection Hst as <-. simpl. split.
    + intros tok [= <-]. split; [|lia]. rewrite Z.add_simpl_r. set_solver.
    + apply served_fresh_insert.
      * eapply served_fresh_mono; [|done]. set_solver.
      * intros ?? [= <- <-]. exists (clock (srv rs)). split; [set_solver|]. pose proof token_ttl_pos; lia.
Qed.
End Lemmas.

(** ** Theorems *)

Section Theorems.
Context `{!Marshaler Obj} `{!Unmarshaler SessionResponse}.

(** A request that finds an unexpired token in the cache is
    answered with it: no request goes to OpenAI, the exchanges, the
    history and the cache are untouched, and only the log line is
    added. *)
Theorem createEphemeralToken_cached s tok :
  tc_get (cache s) (clock s) = Some tok ->
  createEphemeralToken s = (Ret (Ok tok), (log_printf "Using cached ephemeral token" s).2).
Proof.
  intros Hg. unfold createEphemeralToken, st_bind at 1. by rewrite ce_lookup_spec, Hg.
Qed.

(** Failures are not cached: when [createEphemeralToken] returns
    an error, the cache and its history are as before, so the next
    request tries OpenAI again; without an API key no request is sent
    at all. *)
Theorem createEphemeralToken_error_uncached s e s' :
  createEphemeralToken s = (Ret (Err e), s') ->
  cache s' = cache s /\ stored s' = stored s /\ (api_key s = "" -> sent s' = sent s).
Proof.
  unfold createEphemeralToken, st_bind at 1. rewrite ce_lookup_spec.
  destruct (tc_get _ _); [by intros [=]|]. unfold st_bind.
  destruct (ce_fetch s) as [o s1] eqn:Hf. destruct (ce_fetch_frame _ _ _ Hf) as (Hc & _ & Hs).
  destruct o as [[sr|e']| | |]; intros H; inversion H; subst. split_and!; [done|done|].
  intros Hk. revert Hf. unfold ce_fetch, st_bind, st_get. simpl.
  rewrite bool_decide_true by done. by intros [= _ <-].
Qed.


(** C38: A token fetched by a call is served from the cache for exactly
    the [token_ttl] = 50 s after that call: at [d] nanoseconds later the
    cache returns it if and only if [d < 50 s] ([Before] is strict, so
    at 50 s the next request fetches a new token). *)
Theorem token_cached_for_ttl s sr s' d :
  tc_get (cache s) (clock s) = None -> createEphemeralToken s = (Ret (Ok sr), s') -> 0 <= d ->
  tc_get (cache s') (clock s' + d) = Some sr <-> d < token_ttl.
Proof.
  intros Hg Hc Hd. destruct (createEphemeralToken_fetched _ _ _ Hg Hc) as (-> & -> & _).
  rewrite tc_get_Some. simpl. split; [intros [_ ?]; lia|intros ?; split; [done|lia]].
Qed.

(** C17: Under any interleaving of any number of concurrent requests
    and any passage of time, every request answered with a token got
    one that a request had stored less than 50 s before the answer, at
    most at the answer's time: the cache never hands out a token past
    the lifetime it gave it. *)
Theorem token_served_fresh t0 key os rs i tok t :
  rtc rstep {| srv := server_init t0 key os; reqs := [] |} rs ->
  reqs rs !! i = Some (PDone (Ok tok) t) ->
  exists ts, (tok, ts) ∈ stored (srv rs) /\ ts <= t < ts + token_ttl.
Proof.
  intros Hr. refine (proj2 (rtc_preserved rstep fresh_inv _ _ (fun a b Ha Hs => rstep_fresh a b Hs Ha) _ Hr) i tok t).
  split; [intros ? [=]|intros ? ? ? [=]].
Qed.

(** C18: The cache does not stop concurrent fetches: when two requests
    arrive while no token is cached, both can miss the cache before
    either stores, so two tokens are requested from OpenAI at the same
    instant, each request is answered with its own token, and the one
    stored first is overwritten. *)
Theorem concurrent_requests_fetch_twice s jd o1 o2 os sr1 sr2 :
  tc_get (cache s) (clock s) = None -> api_key s <> "" -> marshal session_payload = Ok jd ->
  net s = o1 :: o2 :: os -> read_session o1 = Ok sr1 -> read_session o2 = Ok sr2 ->
  exists rs, rtc rstep {| srv := s; reqs := [PStart; PStart] |} rs /\
    sent (srv rs) = sent s ++ [session_request (api_key s) jd; session_request (api_key s) jd] /\
    reqs rs = [PDone (Ok sr1) (clock s); PDone (Ok sr2) (clock s)] /\
    token (cache (srv rs)) = Some sr2.
Proof.
  intros Hg Hk Hm Hn H1 H2. eexists. split.
  - rstep_to ltac:(eapply (rs_lookup _ 0); [done|simpl; by rewrite ce_lookup_spec, Hg]).
    rstep_to ltac:(eapply (rs_lookup _ 1); [done|simpl; by rewrite ce_lookup_spec, Hg]).
    rstep_to ltac:(eapply (rs_fetch _ 0); [done|simpl; by apply ce_fetch_request]).
    rstep_to ltac:(eapply (rs_fetch _ 1); [done|simpl; apply ce_fetch_request; done]).
    simpl. rewrite H1, H2. simpl.
    rstep_to ltac:(eapply (rs_store _ 0); reflexivity).
    rstep_to ltac:(eapply (rs_store _ 1); reflexivity).
    apply rtc_refl.
  - simpl. split_and!; [by rewrite <- app_assoc|done|done].
Qed.
(** A token request on a server with no valid token: the reply is
    what [createEphemeralToken] returns on the logged server. *)
Lemma handleWebRTCSignaling_ok s sr s' :
  createEphemeralToken (log_printf "New token request" s).2 = (Ret (Ok sr), s') ->
  handleWebRTCSignaling s = (Ret (signaling_reply (Ok sr)), s').
Proof. intros Hc. unfold handleWebRTCSignaling, st_bind at 1. simpl in *. unfold st_bind. by rewrite Hc. Qed.

(** A request that finds a valid token is answered with it and sends
    nothing to OpenAI. *)
Lemma handleWebRTCSignaling_cached s tok :
  tc_get (cache s) (clock s) = Some tok ->
  (handleWebRTCSignaling s).1 = Ret (signaling_reply (Ok tok)) /\
  sent (handleWebRTCSignaling s).2 = sent s.
Proof.
  intros Hg. rewrite (handleWebRTCSignaling_ok s tok _
    (createEphemeralToken_cached (log_printf "New token request" s).2 _ Hg)).
  by split.
Qed.

(** C39: Any 200 reply whose body decodes to the zero
    [SessionResponse] (what [encoding/json] makes of a body without
    [client_secret]) is taken as a token: the endpoint answers 200 with
    the empty token and caches it, and the next request at the same
    instant is answered with the empty token again, without asking
    OpenAI. *)
Theorem empty_token_served s jd body os :
  tc_get (cache s) (clock s) = None -> api_key s <> "" -> marshal session_payload = Ok jd ->
  net s = Reply 200 (Ok body) :: os -> unmarshal body = Ok {| ClientSecretValue := "" |} ->
  let empty_reply := {| Status := 200; ContentType := "application/json";
                        RBodyOut := BodyJSON [("token", VString "")] |} in
  (handleWebRTCSignaling s).1 = Ret empty_reply /\
  cache (handleWebRTCSignaling s).2 = tc_set (cache s) {| ClientSecretValue := "" |} (clock s) /\
  (handleWebRTCSignaling (handleWebRTCSignaling s).2).1 = Ret empty_reply /\
  sent (handleWebRTCSignaling (handleWebRTCSignaling s).2).2 = sent (handleWebRTCSignaling s).2.
Proof.
  intros Hg Hk Hm Hn Hu empty_reply.
  set (s0 := (log_printf "New token request" s).2).
  pose proof (ce_fetch_request s0 jd _ os Hk Hm Hn) as Hf.
  cbn [read_session] in Hf. rewrite bool_decide_true, Hu in Hf by done.
  pose proof (createEphemeralToken_miss s0 Hg) as H1. rewrite Hf in H1.
  rewrite (handleWebRTCSignaling_ok _ _ _ H1). simpl.
  match goal with |- context [handleWebRTCSignaling ?s1] =>
    destruct (handleWebRTCSignaling_cached s1 {| ClientSecretValue := "" |}) as [H3 H4] end.
  { apply tc_get_Some. simpl. pose proof token_ttl_pos. split; [done|lia]. }
  by rewrite H3, H4.
Qed.
End Theorems.

(** ** Witnesses *)

Section Witnesses.
#[local] Existing Instances string_map_json secret_json.

Lemma empty_token_served_witness :
  let s := server_init 0 "sk-test" [Reply 200 (Ok "{}")] in
  let empty_reply := {| Status := 200; ContentType := "application/json";
                        RBodyOut := BodyJSON [("token", VString "")] |} in
  (handleWebRTCSignaling s).1 = Ret empty_reply /\
  cache (handleWebRTCSignaling s).2 = tc_set (cache s) {| ClientSecretValue := "" |} (clock s) /\
  (handleWebRTCSignaling (handleWebRTCSignaling s).2).1 = Ret empty_reply /\
  sent (handleWebRTCSignaling (handleWebRTCSignaling s).2).2 = sent (handleWebRTCSignaling s).2.
Proof.
  eapply (empty_token_served _ _ "{}" []);
    [reflexivity | discriminate | vm_compute; reflexivity | reflexivity | reflexivity].
Defined.


Lemma createEphemeralToken_cached_witness :
  let s := {| cache := {| token := Some {| ClientSecretValue := "ek_1" |}; expiresAt := 10 |};
              clock := 9; api_key := "sk-test"; net := []; sent := []; logs := [];
              stored := [({| ClientSecretValue := "ek_1" |}, -40)] |} in
  createEphemeralToken s = (Ret (Ok {| ClientSecretValue := "ek_1" |}),
                            (log_printf "Using cached ephemeral token" s).2).
Proof. intros s. apply createEphemeralToken_cached. reflexivity. Defined.

Lemma createEphemeralToken_error_uncached_witness :
  let s := server_init 0 "" [Reply 200 (Ok "ek_1")] in
  cache (createEphemeralToken s).2 = cache s /\ stored (createEphemeralToken s).2 = stored s /\
  (api_key s = "" -> sent (createEphemeralToken s).2 = sent s).
Proof.
  intros s. apply (createEphemeralToken_error_uncached s "OPENAI_API_KEY environment variable not set").
  vm_compute. reflexivity.
Defined.

Lemma token_cached_for_ttl_witness :
  let s := server_init 0 "sk-test" [Reply 200 (Ok "ek_1")] in
  tc_get (cache (createEphemeralToken s).2) (clock (createEphemeralToken s).2 + 49 * Second)
    = Some {| ClientSecretValue := "ek_1" |} <-> 49 * Second < token_ttl.
Proof.
  intros s. apply (token_cached_for_ttl s); [reflexivity|vm_compute; reflexivity|vm_compute; discriminate].
Defined.

Lemma token_served_fresh_witness :
  exists rs, rtc rstep {| srv := server_init 0 "sk-test" [Reply 200 (Ok "ek_1")]; reqs := [] |} rs /\
    reqs rs !! 0%nat = Some (PDone (Ok {| ClientSecretValue := "ek_1" |}) 0) /\
    exists ts, ({| ClientSecretValue := "ek_1" |}, ts) ∈ stored (srv rs) /\ ts <= 0 < ts + token_ttl.
Proof.
  cut (exists rs, rtc rstep {| srv := server_init 0 "sk-test" [Reply 200 (Ok "ek_1")]; reqs := [] |} rs /\
         reqs rs !! 0%nat = Some (PDone (Ok {| ClientSecretValue := "ek_1" |}) 0)).
  { intros (rs & Hr & Hi). exists rs. split_and!; [done|done|].
    exact (token_served_fresh 0 "sk-test" [Reply 200 (Ok "ek_1")] rs 0%nat _ _ Hr Hi). }
  eexists. split.
  - rstep_to ltac:(apply rs_request).
    rstep_to ltac:(eapply (rs_lookup _ 0); reflexivity).
    rstep_to ltac:(eapply (rs_fetch _ 0); reflexivity).
    rstep_to ltac:(eapply (rs_store _ 0); reflexivity).
    apply rtc_refl.
  - reflexivity.
Defined.

Lemma concurrent_requests_fetch_twice_witness :
  let s := server_init 0 "sk-test" [Reply 200 (Ok "ek_1"); Reply 200 (Ok "ek_2")] in
  exists rs, rtc rstep {| srv := s; reqs := [PStart; PStart] |} rs /\
    sent (srv rs) = sent s ++ [session_request (api_key s) ("{" +:+ dq +:+ "model" +:+ dq +:+ ":" +:+ dq +:+
                                 "gpt-4o-mini-realtime-preview-2024-12-17" +:+ dq +:+ "," +:+ dq +:+
                                 "voice" +:+ dq +:+ ":" +:+ dq +:+ "verse" +:+ dq +:+ "}");
                               session_request (api_key s) ("{" +:+ dq +:+ "model" +:+ dq +:+ ":" +:+ dq +:+
                                 "gpt-4o-mini-realtime-preview-2024-12-17" +:+ dq +:+ "," +:+ dq +:+
                                 "voice" +:+ dq +:+ ":" +:+ dq +:+ "verse" +:+ dq +:+ "}")] /\
    reqs rs = [PDone (Ok {| ClientSecretValue := "ek_1" |}) 0; PDone (Ok {| ClientSecretValue := "ek_2" |}) 0] /\
    token (cache (srv rs)) = Some {| ClientSecretValue := "ek_2" |}.
Proof.
  intros s. apply (concurrent_requests_fetch_twice s _ (Reply 200 (Ok "ek_1")) (Reply 200 (Ok "ek_2")) []);
    try reflexivity. discriminate.
Defined.
End Witnesses.
