(* ===== verification/Calculator.v ===== *)
(** * Calculator: the calculator tool of src/unnamed/part_002 (package tools)

    [Calculator] embeds a [BaseTool] whose schema is the literal of
    [NewCalculator]; its [Execute] reads [operation], [a] and [b] from the
    argument map and computes in [float64].  Go's [float64] arithmetic is
    IEEE binary64 with round-to-nearest-even, which is Rocq's primitive
    float arithmetic; Go's [b == 0] is [PrimFloat.eqb], true for [+0] and
    [-0].  [strconv.ParseFloat] is a library function the code only calls:
    it is the operation of the class [ParseFloat], and every theorem holds
    for every instance.  [float64(v)] of an [int] rounds to nearest even,
    which [SpecFloat.binary_normalize] computes. *)

From S2P Require Import Prelude Tool.
From Stdlib Require Import Floats.

(** [strconv.ParseFloat(s, 64)]. *)
Class ParseFloat := parseFloat : string -> res float.

(** [float64(v)] of an [int]. *)
Definition float64_of_int (z : Z) : float :=
  SF2Prim (SpecFloat.binary_normalize 53 1024 z 0 false).

Record Calculator := { base : BaseTool }.       (* embeds [core.BaseTool] *)

Definition calculator_schema : Obj :=
  [("type", VString "object");
   ("properties", VObject
      [("operation", VObject
          [("type", VString "string");
           ("enum", VStringSlice ["add"; "subtract"; "multiply"; "divide"; "square"]);
           ("description", VString "The mathematical operation to perform")]);
       ("a", VObject
          [("type", VString "number"); ("description", VString "The first number")]);
       ("b", VObject
          [("type", VString "number");
           ("description", VString "The second number (not used for square operation)")])]);
   ("required", VStringSlice ["operation"; "a"])].

Definition NewCalculator : Calculator :=
  {| base := NewBaseTool "calculator"
       "A tool for performing basic math operations (add, subtract, multiply, divide, square)"
       calculator_schema |}.

(** A [ParseFloat] for the concrete runs below: it reads unsigned
    decimal integers, as [strconv.ParseFloat] does, and reports the
    [strconv] syntax error for anything else (the fractions and
    exponents [ParseFloat] also reads are not needed there). *)
Fixpoint decimal_value (s : string) (acc : Z) : option Z :=
  match s with
  | EmptyString => Some acc
  | String c s' =>
      let d := (Z.of_nat (Ascii.nat_of_ascii c) - 48)%Z in
      if (0 <=? d)%Z && (d <=? 9)%Z then decimal_value s' (10 * acc + d)%Z else None
  end.

Definition parse_integral : ParseFloat := fun s =>
  let q := String (Ascii.ascii_of_nat 34) EmptyString in
  match s, decimal_value s 0 with
  | String _ _, Some z => Ok (float64_of_int z)
  | _, _ => Err ("strconv.ParseFloat: parsing " +:+ q +:+ s +:+ q +:+ ": invalid syntax")
  end.

Section Calc.
Context `{!ParseFloat}.

(** [getNumber]: a type switch on the dynamic type. *)
Definition getNumber (v : Value) : res float :=
  match v with
  | VFloat64 f => Ok f
  | VFloat32 f => Ok f
  | VInt z => Ok (float64_of_int z)
  | VString s => parseFloat s
  | _ => Err ("unsupported number type: " +:+ type_name v)
  end.

(** [Execute]; the [nil] result of the error returns is dropped. *)
Definition Execute (args : Obj) : res Value :=
  match as_string (index args "operation") with
  | None => Err "operation must be a string"
  | Some operation =>
      match getNumber (index args "a") with
      | Err e => Err ("invalid first number: " +:+ e)
      | Ok a =>
          if bool_decide (operation = "square") then Ok (VFloat64 (a * a)%float) else
          match getNumber (index args "b") with
          | Err e => Err ("invalid second number: " +:+ e)
          | Ok b =>
              if bool_decide (operation = "add") then Ok (VFloat64 (a + b)%float)
              else if bool_decide (operation = "subtract") then Ok (VFloat64 (a - b)%float)
              else if bool_decide (operation = "multiply") then Ok (VFloat64 (a * b)%float)
              else if bool_decide (operation = "divide") then
                if PrimFloat.eqb b PrimFloat.zero then Err "division by zero"
                else Ok (VFloat64 (a / b)%float)
              else Err ("unknown operation: " +:+ operation)
          end
      end
  end.

(** The method set of [*Calculator]: [Execute] its own, the others
    promoted from the embedded [BaseTool]. *)
Definition calculator_tool (c : Calculator) : Tool :=
  {| tName := Name (base c); tDescription := Description (base c);
     tJSONSchema := JSONSchema (base c); tExecute := Execute;
     tValidate := Validate (base c) |}.
End Calc.

(** ** Theorems *)

Section CalcTheorems.
Context `{!ParseFloat}.

Lemma Execute_operands args operation a :
  index args "operation" = VString operation -> getNumber (index args "a") = Ok a ->
  Execute args =
    if bool_decide (operation = "square") then Ok (VFloat64 (a * a)%float) else
    match getNumber (index args "b") with
    | Err e => Err ("invalid second number: " +:+ e)
    | Ok b =>
        if bool_decide (operation = "add") then Ok (VFloat64 (a + b)%float)
        else if bool_decide (operation = "subtract") then Ok (VFloat64 (a - b)%float)
        else if bool_decide (operation = "multiply") then Ok (VFloat64 (a * b)%float)
        else if bool_decide (operation = "divide") then
          if PrimFloat.eqb b PrimFloat.zero then Err "division by zero"
          else Ok (VFloat64 (a / b)%float)
        else Err ("unknown operation: " +:+ operation)
    end.
Proof. intros Ho Ha. unfold Execute. by rewrite Ho, Ha. Qed.

(** C25: Arguments that pass the calculator's [Validate] reach the
    operation switch: [Execute] then fails only on a bad or missing
    second number, a zero divisor, or an unknown operation, never on the
    operation's type or on the first number. *)
Theorem Validate_then_Execute args msg :
  Validate (base NewCalculator) args = Returns None ->
  Execute args = Err msg ->
  msg = "division by zero" \/ (exists op, msg = "unknown operation: " +:+ op) \/
  (exists e, msg = "invalid second number: " +:+ e).
Proof.
  intros Hv Hx.
  destruct (Validate_ok_required _ _ "operation" Hv) as [vo Ho]; [by left|].
  destruct (Validate_ok_required _ _ "a" Hv) as [va Ha]; [by right; left|].
  pose proof (Validate_ok_lookup _ _ _ _ _ Hv eq_refl Ho) as Fo.
  pose proof (Validate_ok_lookup _ _ _ _ _ Hv eq_refl Ha) as Fa.
  vm_compute in Fo, Fa. destruct vo as [| | | | |op| | |]; try discriminate.
  destruct va as [| | |a| | | | |]; try discriminate.
  rewrite (Execute_operands _ op a) in Hx by (unfold index; by rewrite ?Ho, ?Ha).
  case_bool_decide; [done|]. destruct (getNumber _); [|naive_solver].
  repeat case_bool_decide; try done; [|naive_solver].
  destruct (PrimFloat.eqb _ _); naive_solver.
Qed.

(** [square] ignores [b]: two argument maps that agree on
    [operation] (["square"]) and on [a] give the same result, whatever
    [b] holds, a non-number included. *)
Theorem Execute_square_ignores_b args args' :
  index args "operation" = VString "square" ->
  index args' "operation" = VString "square" ->
  index args "a" = index args' "a" ->
  Execute args = Execute args'.
Proof. intros Ho Ho' Ha. unfold Execute. by rewrite Ho, Ho', Ha. Qed.

(** Division checks its divisor with Go's [==], so both [+0] and
    [-0] are rejected with ["division by zero"]; any other divisor gives
    the IEEE quotient. *)
Theorem Execute_divide args a b :
  index args "operation" = VString "divide" ->
  getNumber (index args "a") = Ok a -> getNumber (index args "b") = Ok b ->
  Execute args = if PrimFloat.is_zero b then Err "division by zero" else Ok (VFloat64 (a / b)%float).
Proof. intros Ho Ha Hb. rewrite (Execute_operands _ _ a Ho Ha), Hb. done. Qed.

(** An unknown operation is reported only once [b] has been read:
    with a missing or bad [b] the error names the second number. *)
Theorem Execute_unknown_operation args op a :
  index args "operation" = VString op ->
  op ∉ ["add"; "subtract"; "multiply"; "divide"; "square"] ->
  getNumber (index args "a") = Ok a ->
  Execute args = match getNumber (index args "b") with
                 | Ok _ => Err ("unknown operation: " +:+ op)
                 | Err e => Err ("invalid second number: " +:+ e)
                 end.
Proof.
  intros Ho Hop Ha. rewrite (Execute_operands _ _ a Ho Ha).
  repeat case_bool_decide; subst; try set_solver.
Qed.

(** C24: The [enum] of the [operation] property is a [[]string], and
    [Validate] only checks enums of type [[]interface{}]: for every
    operation outside the enum and any two [float64] operands, the
    argument map passes validation in every iteration order, and
    [Execute] then fails with the unknown-operation error. *)
Theorem calculator_enum_unchecked op a b args :
  op ∉ ["add"; "subtract"; "multiply"; "divide"; "square"] ->
  args ≡ₚ [("operation", VString op); ("a", VFloat64 a); ("b", VFloat64 b)] ->
  Validate (base NewCalculator) args = Returns None /\
  Execute args = Err ("unknown operation: " +:+ op).
Proof.
  intros Hop Hp.
  assert (Hnd : NoDup ([("operation", VString op); ("a", VFloat64 a); ("b", VFloat64 b)]).*1).
  { simpl. repeat constructor; set_solver. }
  assert (Hi : forall k, index args k = index [("operation", VString op); ("a", VFloat64 a); ("b", VFloat64 b)] k).
  { intros k. unfold index. f_equal. symmetry. apply lookup_obj_perm; [done|by symmetry]. }
  split.
  - apply (Validate_ok_perm _ _ _ Hp). reflexivity.
  - rewrite (Execute_unknown_operation args op a); rewrite ?Hi; done.
Qed.
End CalcTheorems.

(** ** Witnesses *)

Lemma Validate_then_Execute_witness :
  "division by zero" = "division by zero" \/
  (exists op, "division by zero" = "unknown operation: " +:+ op) \/
  (exists e, "division by zero" = "invalid second number: " +:+ e).
Proof.
  apply (@Validate_then_Execute parse_integral
           [("operation", VString "divide"); ("a", VFloat64 PrimFloat.one);
            ("b", VFloat64 PrimFloat.zero)]); reflexivity.
Defined.

Lemma Execute_square_ignores_b_witness :
  @Execute parse_integral [("operation", VString "square"); ("a", VString "3"); ("b", VString "x")] =
  @Execute parse_integral [("operation", VString "square"); ("a", VString "3")].
Proof. apply Execute_square_ignores_b; reflexivity. Defined.

Lemma Execute_divide_witness :
  @Execute parse_integral
    [("operation", VString "divide"); ("a", VInt 1); ("b", VFloat64 PrimFloat.neg_zero)] =
  if PrimFloat.is_zero PrimFloat.neg_zero then Err "division by zero"
  else Ok (VFloat64 (float64_of_int 1 / PrimFloat.neg_zero)%float).
Proof. apply Execute_divide; reflexivity. Defined.

Lemma calculator_enum_unchecked_witness :
  let args := [("operation", VString "pow"); ("a", VFloat64 PrimFloat.two); ("b", VFloat64 PrimFloat.one)] in
  Validate (base NewCalculator) args = Returns None /\
  @Execute parse_integral args = Err ("unknown operation: " +:+ "pow").
Proof. apply (calculator_enum_unchecked "pow" PrimFloat.two PrimFloat.one); [set_solver | reflexivity]. Defined.

Lemma Execute_unknown_operation_witness :
  @Execute parse_integral [("operation", VString "pow"); ("a", VString "2")] =
  match @getNumber parse_integral (index [("operation", VString "pow"); ("a", VString "2")] "b") with
  | Ok _ => Err ("unknown operation: " +:+ "pow")
  | Err e => Err ("invalid second number: " +:+ e)
  end.
Proof.
  apply (Execute_unknown_operation _ _ (float64_of_int 2)); [reflexivity | set_solver | reflexivity].
Defined.
