(* ===== verification/Agent.v ===== *)
(** * Agent: the [OpenAIAgent] of src/pkg/agent/openai_agent.go

    The agent's state is the record [OpenAIAgent] (its id, [config] map,
    registered [tools] and chat [history]); the OpenAI client and the
    logger are not modelled (network I/O and logging).  [Configure] and
    [AddTool] are functions on it.  [ProcessMessage] is modelled from the
    moment the history is extended to the returned messages: the tool
    schemas' JSON round trip ([tool_params]), the model lookup
    [a.config["model"].(string)] (a panic when it is absent), the loop
    over the completion stream ([process_chunks]) with its tool calls
    ([process_tool_call]), the stream error check and the reply built from
    the accumulated first choice (a panic when there is none).  The
    stream itself is produced by the server: [StreamRun] is what the
    accumulator reports chunk by chunk ([JustFinishedToolCall],
    [JustFinishedContent]), the stream's final error and the content of
    [acc.Choices[0]].  [encoding/json] is the pair of classes [Marshaler]
    and [Unmarshaler], [fmt.Sprintf("%v", result)] the class [Sprint].
    The interface [agent.Agent] of src/pkg/agent/agent.go is the class
    [Agent]; [OpenAIAgent] is its instance and meets the contract
    [SingleReply] its clients use. *)

From S2P Require Import Prelude Interrupt Tool Calculator.

(** ** Data *)

(** [fmt.Sprintf("%v", v)]. *)
Class Sprint := sprint : Value -> string.

(** [core.Message] (declared outside src/) and the role the agent uses. *)
Record Message := { Role : string; Content : string }.
Definition RoleAssistant : string := "assistant".

(** The history entries the agent builds: [openai.UserMessage(content)]. *)
Inductive ChatMessage := UserMessage (content : string).

Record OpenAIAgent := {
  agent_id : string;                    (* Go field [id] *)
  config : Obj;
  tools : list Tool;
  history : list ChatMessage
}.

(** One tool entry of the request: name, description and parameters. *)
Record ToolParam := { PName : string; PDescription : string; PParameters : Obj }.

(** What the accumulator reports after one chunk. *)
Record Chunk := {
  JustFinishedToolCall : option (string * string);   (* name, arguments *)
  JustFinishedContent : option string
}.

Record StreamRun := {
  chunks : list Chunk;
  stream_err : option string;                        (* [stream.Err()] *)
  first_choice : option string                       (* [acc.Choices[0].Message.Content] *)
}.

(** ** Operations *)

Definition NewOpenAIAgent (id : string) : OpenAIAgent :=
  {| agent_id := id; config := []; tools := []; history := [] |}.

Definition ID (a : OpenAIAgent) : string := agent_id a.

Definition Configure (a : OpenAIAgent) (cfg : Obj) : OpenAIAgent * option string :=
  match as_string (index cfg "model") with
  | None => (a, Some "model must be a string")
  | Some model =>
      ({| agent_id := agent_id a; config := insert_obj (config a) "model" (VString model);
          tools := tools a; history := history a |}, None)
  end.

Definition AddTool (a : OpenAIAgent) (t : Tool) : OpenAIAgent :=
  {| agent_id := agent_id a; config := config a; tools := tools a ++ [t];
     history := history a |}.

Section Process.
Context `{!Marshaler Obj} `{!Unmarshaler Obj} `{!Sprint}.

(** [for _, tool := range a.tools { schema := tool.JSONSchema(); ... }] *)
Fixpoint tool_params (ts : list Tool) : res (list ToolParam) :=
  match ts with
  | [] => Ok []
  | t :: ts' =>
      match marshal (tJSONSchema t) with
      | Err e => Err ("failed to marshal tool schema: " +:+ e)
      | Ok schemaJSON =>
          match unmarshal schemaJSON with
          | Err e => Err ("failed to unmarshal schema to function parameters: " +:+ e)
          | Ok params =>
              ps <-? tool_params ts' ;;
              Ok ({| PName := tName t; PDescription := tDescription t;
                     PParameters := params |} :: ps)
          end
      end
  end.

(** [for _, t := range a.tools { if t.Name() == tool.Name { ... } }]:
    the results appended to [toolResults], in order. *)
Fixpoint process_tool_call (ts : list Tool) (name arguments : string) : res (list string) :=
  match ts with
  | [] => Ok []
  | t :: ts' =>
      if bool_decide (tName t = name) then
        match unmarshal arguments with
        | Err e => Err ("failed to unmarshal tool arguments: " +:+ e)
        | Ok args =>
            match tExecute t args with
            | Err e => Err ("failed to execute tool: " +:+ e)
            | Ok result =>
                rs <-? process_tool_call ts' name arguments ;; Ok (sprint result :: rs)
            end
        end
      else process_tool_call ts' name arguments
  end.

(** [for stream.Next() { ... }]: the content branch only logs. *)
Fixpoint process_chunks (ts : list Tool) (cs : list Chunk) : res (list string) :=
  match cs with
  | [] => Ok []
  | c :: cs' =>
      match JustFinishedToolCall c with
      | Some (name, arguments) =>
          rs <-? process_tool_call ts name arguments ;;
          rs' <-? process_chunks ts cs' ;; Ok (rs ++ rs')
      | None => process_chunks ts cs'
      end
  end.

Definition ProcessMessage (a : OpenAIAgent) (msg : Message) (s : StreamRun)
  : go_result (OpenAIAgent * res (list Message)) :=
  let a1 := {| agent_id := agent_id a; config := config a; tools := tools a;
               history := history a ++ [UserMessage (Content msg)] |} in
  match tool_params (tools a1) with
  | Err e => Returns (a1, Err e)
  | Ok _ =>
      match as_string (index (config a1) "model") with
      | None => Panics
      | Some _ =>
          match process_chunks (tools a1) (chunks s) with
          | Err e => Returns (a1, Err e)
          | Ok _ =>
              match stream_err s with
              | Some e => Returns (a1, Err ("stream error: " +:+ e))
              | None =>
                  match first_choice s with
                  | None => Panics
                  | Some content =>
                      Returns (a1, Ok [{| Role := RoleAssistant; Content := content |}])
                  end
              end
          end
      end
  end.

(** The reference behaviour of a tool call: every tool of [matching]
    runs, in order, on the same decoded arguments. *)
Fixpoint execute_all (matching : list Tool) (args : Obj) : res (list string) :=
  match matching with
  | [] => Ok []
  | t :: ms =>
      match tExecute t args with
      | Err e => Err ("failed to execute tool: " +:+ e)
      | Ok result => rs <-? execute_all ms args ;; Ok (sprint result :: rs)
      end
  end.
End Process.

(** ** The [Agent] interface (src/pkg/agent/agent.go) *)

(** [agent.Agent]: the methods the examples call on an agent.  The
    methods with a pointer receiver return the agent's new state;
    [ProcessMessage] also takes the completion the server streams. *)
Class Agent (A : Type) := {
  agent_ID : A -> string;
  agent_Configure : A -> Obj -> A * option string;
  agent_AddTool : A -> Tool -> A;
  agent_ProcessMessage : A -> Message -> StreamRun -> go_result (A * res (list Message))
}.

(** What a client of the interface may rely on: a successful
    [ProcessMessage] answers with exactly one assistant message. *)
Class SingleReply (A : Type) `{!Agent A} :=
  single_reply : forall a msg s a' rs,
    agent_ProcessMessage a msg s = Returns (a', Ok rs) ->
    exists c, rs = [{| Role := RoleAssistant; Content := c |}].

Section AgentInstances.
Context `{!Marshaler Obj} `{!Unmarshaler Obj} `{!Sprint}.

(** [*OpenAIAgent] implements [Agent] ([NewOpenAIAgent] returns it as one). *)
#[export] Instance OpenAIAgent_Agent : Agent OpenAIAgent :=
  {| agent_ID := ID; agent_Configure := Configure; agent_AddTool := AddTool;
     agent_ProcessMessage := ProcessMessage |}.

#[export] Instance OpenAIAgent_SingleReply : SingleReply OpenAIAgent.
Proof.
  intros a msg s a' rs. simpl. unfold ProcessMessage. simpl.
  intros Hp. repeat case_match; simplify_eq; eauto.
Qed.
End AgentInstances.

(** Library instances for the concrete runs below: a decoder that
    returns a fixed map, an encoder that renders every schema as an
    empty object, and a formatter that prints a value's type. *)
Definition fixed_unmarshal (m : Obj) : Unmarshaler Obj := fun _ => Ok m.
Definition empty_marshal : Marshaler Obj := fun _ => Ok "{}".
Definition sprint_type : Sprint := type_name.

(** ** Theorems *)

Section ProcessTheorems.
Context `{!Marshaler Obj} `{!Unmarshaler Obj} `{!Sprint}.

Lemma process_tool_call_ok ts name arguments args :
  unmarshal arguments = Ok args ->
  process_tool_call ts name arguments = execute_all (filter (fun t => tName t = name) ts) args.
Proof.
  intros Hu. induction ts as [|t ts IH]; simpl; [done|].
  rewrite filter_cons. case_decide; [rewrite bool_decide_true by done|by rewrite bool_decide_false].
  simpl. rewrite Hu. destruct (tExecute t args); [|done]. by rewrite IH.
Qed.

Lemma process_tool_call_err ts name arguments e :
  unmarshal arguments = Err e ->
  process_tool_call ts name arguments =
  if bool_decide (filter (fun t => tName t = name) ts = []) then Ok []
  else Err ("failed to unmarshal tool arguments: " +:+ e).
Proof.
  intros Hu. induction ts as [|t ts IH]; simpl; [done|].
  rewrite filter_cons. case_decide; [rewrite bool_decide_true by done|by rewrite bool_decide_false].
  by rewrite Hu.
Qed.

(** C21: A tool call runs every registered tool whose name matches,
    in registration order, on the arguments decoded once, and collects
    their printed results; [Validate] is never consulted, and an
    argument decoding error surfaces only when some tool matches. *)
Theorem process_tool_call_spec ts name arguments :
  process_tool_call ts name arguments =
  match filter (fun t => tName t = name) ts with
  | [] => Ok []
  | matching =>
      match unmarshal arguments with
      | Err e => Err ("failed to unmarshal tool arguments: " +:+ e)
      | Ok args => execute_all matching args
      end
  end.
Proof.
  destruct (unmarshal arguments) as [args|e] eqn:Hu.
  - rewrite (process_tool_call_ok _ _ _ args Hu). by destruct (filter _ _).
  - rewrite (process_tool_call_err _ _ _ e Hu). by destruct (filter _ _).
Qed.

(** C32: [ProcessMessage] changes only the history, and only by
    appending the user's message: neither the reply nor the tool results
    are ever recorded, whatever the outcome. *)
Theorem ProcessMessage_history a msg s a' r :
  ProcessMessage a msg s = Returns (a', r) ->
  a' = {| agent_id := agent_id a; config := config a; tools := tools a;
          history := history a ++ [UserMessage (Content msg)] |}.
Proof. unfold ProcessMessage. simpl. intros Hp. repeat case_match; congruence. Qed.

(** The reply is the accumulated first choice alone: the results of
    the tool calls made during the stream never reach it. *)
Theorem ProcessMessage_reply a msg s a' replies :
  ProcessMessage a msg s = Returns (a', Ok replies) ->
  exists content, first_choice s = Some content /\
    replies = [{| Role := RoleAssistant; Content := content |}].
Proof. unfold ProcessMessage. simpl. intros Hp. repeat case_match; simplify_eq; eauto. Qed.

(** C31: After a successful [Configure], [ProcessMessage] panics only
    when the stream yields no choice: the [model] type assertion holds. *)
Theorem Configure_no_model_panic a cfg a' msg s :
  Configure a cfg = (a', None) -> first_choice s <> None ->
  ProcessMessage a' msg s <> Panics.
Proof.
  unfold Configure. destruct (as_string (index cfg "model")) as [model|]; [|congruence].
  intros [= <-] Hc. unfold ProcessMessage, index. simpl. rewrite lookup_obj_insert. simpl.
  repeat case_match; congruence.
Qed.

(** C30: Without a configured model, a message whose tool schemas
    encode makes [ProcessMessage] panic at [a.config["model"].(string)],
    after the message has been added to the history. *)
Theorem ProcessMessage_unconfigured a msg s ps :
  as_string (index (config a) "model") = None -> tool_params (tools a) = Ok ps ->
  ProcessMessage a msg s = Panics.
Proof. intros Hm Ht. unfold ProcessMessage. simpl. by rewrite Ht, Hm. Qed.
End ProcessTheorems.

(** ** Witnesses *)

Lemma Configure_no_model_panic_witness :
  @ProcessMessage empty_marshal (fixed_unmarshal []) sprint_type
    (Configure (AddTool (NewOpenAIAgent "agent") (@calculator_tool parse_integral NewCalculator))
               [("model", VString "gpt-4o")]).1
    {| Role := "user"; Content := "hi" |}
    {| chunks := []; stream_err := None; first_choice := Some "hello" |} <> Panics.
Proof.
  apply (Configure_no_model_panic
           (AddTool (NewOpenAIAgent "agent") (@calculator_tool parse_integral NewCalculator))
           [("model", VString "gpt-4o")]); [reflexivity | discriminate].
Defined.

Lemma ProcessMessage_unconfigured_witness :
  @ProcessMessage empty_marshal (fixed_unmarshal []) sprint_type
    (AddTool (NewOpenAIAgent "agent") (@calculator_tool parse_integral NewCalculator))
    {| Role := "user"; Content := "hi" |}
    {| chunks := []; stream_err := None; first_choice := Some "hello" |} = Panics.
Proof. apply (ProcessMessage_unconfigured _ _ _ [{| PName := "calculator"; PDescription := Description (base NewCalculator); PParameters := [] |}]); reflexivity. Defined.

Lemma ProcessMessage_history_witness :
  let a := (Configure (NewOpenAIAgent "agent") [("model", VString "gpt-4o")]).1 in
  {| agent_id := "agent"; config := [("model", VString "gpt-4o")]; tools := [];
     history := [UserMessage "hi"] |} =
  {| agent_id := agent_id a; config := config a; tools := tools a;
     history := history a ++ [UserMessage (Content {| Role := "user"; Content := "hi" |})] |}.
Proof.
  intros a.
  apply (@ProcessMessage_history empty_marshal (fixed_unmarshal []) sprint_type a
           {| Role := "user"; Content := "hi" |}
           {| chunks := []; stream_err := None; first_choice := Some "hello" |} _
           (Ok [{| Role := RoleAssistant; Content := "hello" |}])).
  reflexivity.
Defined.

Lemma ProcessMessage_reply_witness :
  exists content, first_choice {| chunks := []; stream_err := None; first_choice := Some "hello" |}
                  = Some content /\
    [{| Role := RoleAssistant; Content := "hello" |}] =
    [{| Role := RoleAssistant; Content := content |}].
Proof.
  apply (@ProcessMessage_reply empty_marshal (fixed_unmarshal []) sprint_type
           (Configure (NewOpenAIAgent "agent") [("model", VString "gpt-4o")]).1
           {| Role := "user"; Content := "hi" |}
           {| chunks := []; stream_err := None; first_choice := Some "hello" |}
           {| agent_id := "agent"; config := [("model", VString "gpt-4o")]; tools := [];
              history := [UserMessage "hi"] |}).
  reflexivity.
Defined.
