(* ===== verification/Scenarios.v ===== *)
(** * Scenarios: the concrete graphs of spec section 8

    Small graphs over the state type [Z] (the [Result] field of the
    examples' [State]) with [string] interrupt payloads, built with the
    builder operations of [Graph]: scenario A ([calc] then [END]), B (a
    self-loop under recursion limit 1), C (a route to a missing node),
    D (a breakpoint on the second node), and a node that asks for
    approval with [core.Interrupt].  They are the
    concrete inputs at which the theorems of [Engine] are applied. *)

From S2P Require Import Prelude Stream Interrupt Graph.
From stdpp Require Import pretty.

(** JSON encodings of the scenario types. *)
#[export] Instance Marshaler_Z : Marshaler Z := fun z => Ok (pretty z).

Definition dquote : string := String (Ascii.Ascii false true false false false true false false) EmptyString.
#[export] Instance Marshaler_string : Marshaler string := fun s => Ok (dquote +:+ s +:+ dquote).

#[export] Instance GoZero_Z : GoZero Z := 0%Z.

Abbreviation SGraph := (StateGraph Z string).

Definition values_and_updates : StreamConfig :=
  {| Modes := [StreamValues; StreamUpdates]; BufferSize := 100 |}.

Definition to_end : Router (T:=Z) := fun _ => Ok [END].

(** An [interface{}] payload: text, or a channel, which [json.Marshal]
    rejects. *)
Inductive Payload := PText (s : string) | PChan.

#[export] Instance Marshaler_Payload : Marshaler Payload := fun p =>
  match p with
  | PText s => marshal s
  | PChan => Err "json: unsupported type: chan int"
  end.

(** Scenario A: [calc] sets the result to 55 and routes to [END]. *)
Definition calc_fn (s : Z) : Z * option (GoError string) := (55%Z, None).

Definition graphA_with (g : SGraph) : SGraph :=
  SetEntryPoint (AddConditionalEdges (AddNode g "calc" calc_fn) "calc" to_end None) "calc".

Definition graphA : SGraph := graphA_with (SetStreamConfig NewStateGraph values_and_updates).
Definition graphA_default : SGraph := graphA_with NewStateGraph.
Definition graphA_limit1 : SGraph := SetRecursionLimit graphA 1.

(** Scenario B: [loop] routes to itself; recursion limit 1. *)
Definition graphB : SGraph :=
  SetRecursionLimit
    (SetEntryPoint
       (AddConditionalEdges (AddNode NewStateGraph "loop" (fun s => (s + 1, None)%Z))
          "loop" (fun _ => Ok ["loop"]) None) "loop") 1.

(** Scenario C: [a] routes to [x], which is not a node. *)
Definition graphC : SGraph :=
  SetEntryPoint
    (AddConditionalEdges (AddNode NewStateGraph "a" (fun s => (s, None)))
       "a" (fun _ => Ok ["x"]) None) "a".

(** Scenario D: [a] adds one, [b] doubles; breakpoint on [b]. *)
Definition graphD : SGraph :=
  GAddBreakpoint
    (SetEntryPoint
       (AddConditionalEdges
          (AddConditionalEdges
             (AddNode (AddNode NewStateGraph "a" (fun s => (s + 1, None)%Z))
                "b" (fun s => (2 * s, None)%Z))
             "a" (fun _ => Ok ["b"]) None)
          "b" to_end None) "a") "b".

(** A router that returns no candidate. *)
Definition graphE : SGraph :=
  SetEntryPoint (AddConditionalEdges (AddNode NewStateGraph "a" (fun s => (s, None)))
                   "a" (fun _ => Ok []) None) "a".

(** A node that asks for approval until the state reaches 100. *)
Definition ask_fn (s : Z) : Z * option (GoError string) :=
  if (s <? 100)%Z then InterruptHelper (Some "approve?") else ((s + 1)%Z, None).

Definition graphI : SGraph :=
  SetEntryPoint (AddConditionalEdges (AddNode NewStateGraph "ask" ask_fn) "ask" to_end None) "ask".

(** The same node wrapping the sentinel with [fmt.Errorf("ask: %w", err)]. *)
Definition ask_wrapped_fn (s : Z) : Z * option (GoError string) :=
  (0%Z, Some (Wrapped "ask: " (InterruptError (Some "approve?")))).

Definition graphW : SGraph :=
  SetEntryPoint (AddConditionalEdges (AddNode NewStateGraph "ask" ask_wrapped_fn) "ask" to_end None) "ask".

(** Calls made on an interrupted manager by other goroutines. *)
Definition calls_while_interrupted : list (ManagerCall Z string) :=
  [CallAddBreakpoint "a"; CallInterrupt "a" None 0%Z; CallHasBreakpoint "a"].

(** ** Witnesses of the [Interrupt] and [Graph] theorems *)

Lemma interrupt_exclusive_witness :
  interrupted (run_calls (set_interrupted NewInterruptManager true) calls_while_interrupted).1 = true /\
  Forall2 (fun c r => is_interrupt c = true -> r = RInterrupt (Err "already interrupted"))
    calls_while_interrupted
    (run_calls (set_interrupted NewInterruptManager true) calls_while_interrupted).2.
Proof.
  apply interrupt_exclusive.
  - reflexivity.
  - repeat constructor.
Defined.

Lemma interrupt_marshal_error_sets_flag_witness :
  Interrupt NewInterruptManager "ask" (Some PChan) 0%Z =
    (set_interrupted NewInterruptManager true, Err "json: unsupported type: chan int") /\
  (Interrupt (set_interrupted NewInterruptManager true) "ask" (Some (PText "ok")) 1%Z).2 =
    Err "already interrupted".
Proof.
  apply interrupt_marshal_error_sets_flag.
  - reflexivity.
  - left. reflexivity.
Defined.

Lemma AddConditionalEdges_shadowed_witness :
  route (edges (AddConditionalEdges graphA "calc" (fun _ => Ok ["calc"]) None)) "calc" 0%Z =
  route (edges graphA) "calc" 0%Z.
Proof.
  apply (AddConditionalEdges_shadowed graphA "calc" "calc" (fun _ => Ok ["calc"]) None 0%Z
           {| From := "calc"; ERouter := to_end; Mapping := None |}).
  reflexivity.
Defined.
