(* ===== verification/Engine.v ===== *)
(** * Engine: [RunnableState.Invoke] of src/unnamed/part_000 (graph.go)

    The execution loop, lines 171-317.  Effects go through the monad
    [M] = [ST World InvokeError]: a [World] holds the interrupt
    manager's state, the controller's queued answers to pauses
    ([Response]) and the trace of values sent on the streamer's event
    and data channels and on the manager's interrupt channel
    ([Output]).  The loop body is [iteration] (limit check, [END]
    check, [breakpoint_check], then [run_node]: lookup, start event,
    step function, interrupt-error retry or end event, update and
    routing); [loop] runs it with fuel; [Invoke] computes enough fuel
    from the world ([invoke_fuel]) and brackets the loop with the
    run-level emissions.  A pause ([pause]) is [Interrupt] followed by
    [WaitForResume], which takes the next [Response]: the controller's
    breakpoint edits and [Resume(s)], or the cancellation of the
    context.  With no response left the engine blocks forever ([Hang]). *)

From S2P Require Import Prelude Stream Interrupt Graph Scenarios.

Section Engine.
Context {T D : Type} `{!Marshaler T} `{!Marshaler D}.

(** ** Data *)

(** A value sent on one of the three channels. *)
Inductive Output :=
| OutEvent (e : Event)
| OutStream (se : StreamEvent T)
| OutInterrupt (info : InterruptInfo).

Inductive BreakpointEdit :=
| BpAdd (n : string)
| BpRemove (n : string).

(** What happens while the engine waits in [WaitForResume]: the
    controller edits breakpoints and calls [Resume(s)], or the
    context is cancelled. *)
Inductive Response :=
| RespResume (edits : list BreakpointEdit) (s : T)
| RespCancel.

Record World := {
  wim : InterruptManager;
  wenv : list Response;
  wout : list Output
}.

(** The errors [Invoke] returns, one per [return zero, fmt.Errorf(...)]
    of the loop; the [string]s are the wrapped errors' messages. *)
Inductive InvokeError :=
| ErrRecursionLimit (limit : Z)
| ErrTriggerBreakpoint (msg : string)
| ErrWaitResume (msg : string)
| ErrNodeNotFound (node : string)
| ErrTriggerInterrupt (msg : string)
| ErrInNode (node : string) (err : GoError D)
| ErrRouter (node : string) (msg : string)
| ErrInvalidRouterOutput
| ErrNoOutgoingEdge (node : string).

(** The loop's control: go round again, or [break] with the state. *)
Inductive Ctl :=
| Continue (cur : string) (steps : Z) (st : T)
| Break (st : T).

Local Abbreviation M := (ST World InvokeError).

(** ** Effects *)

Definition tell (o : Output) : M unit :=
  fun w => (Ret tt, {| wim := wim w; wenv := wenv w; wout := wout w ++ [o] |}).

Definition emit_event (s : Streamer) (e : Event) : M unit :=
  match EmitEvent s e with
  | Some e' => tell (OutEvent e')
  | None => st_ret tt
  end.

Definition emit_stream (o : option (StreamEvent T)) : M unit :=
  match o with
  | Some se => tell (OutStream se)
  | None => st_ret tt
  end.

Definition get_manager : M InterruptManager := fun w => (Ret (wim w), w).

(** [interruptManager.Interrupt(node, data, state)]; on success the
    info is delivered on the interrupt channel. *)
Definition im_interrupt (cur : string) (data : option D) (st : T) : M (res unit) :=
  fun w =>
    let '(m', r) := Interrupt (wim w) cur data st in
    match r with
    | Ok info =>
        (Ret (Ok tt), {| wim := m'; wenv := wenv w; wout := wout w ++ [OutInterrupt info] |})
    | Err e => (Ret (Err e), {| wim := m'; wenv := wenv w; wout := wout w |})
    end.

Definition apply_edit (m : InterruptManager) (e : BreakpointEdit) : InterruptManager :=
  match e with
  | BpAdd n => AddBreakpoint m n
  | BpRemove n => RemoveBreakpoint m n
  end.

(** [WaitForResume(ctx)]: receive the state the controller's [Resume]
    sends, or [ctx.Err()] on cancellation. *)
Definition WaitForResume : M (res T) :=
  fun w =>
    match wenv w with
    | [] => (Hang, w)
    | RespCancel :: env' =>
        (Ret (Err "context canceled"), {| wim := wim w; wenv := env'; wout := wout w |})
    | RespResume edits s :: env' =>
        match Resume (foldl apply_edit (wim w) edits) s with
        | (m', Ok s') => (Ret (Ok s'), {| wim := m'; wenv := env'; wout := wout w |})
        | (_, Err _) => (Hang, w)
        end
    end.

(** ** The loop *)

Definition run_event (t : EventType) : Event :=
  {| EvType := t; Name := "LangGraph"; Meta := NoMetadata |}.

Definition node_event (t : EventType) (cur : string) (steps : Z) : Event :=
  {| EvType := t; Name := cur; Meta := StepMetadata steps cur |}.

(** [Interrupt] then [WaitForResume], shared by the breakpoint path
    (lines 196-208) and the interrupt-error path (lines 232-244). *)
Definition pause (cur : string) (data : option D) (st : T)
           (trigger_err : string -> InvokeError) : M T :=
  r <- im_interrupt cur data st ;;
  match r with
  | Err e => st_throw (trigger_err e)
  | Ok _ =>
      r' <- WaitForResume ;;
      match r' with
      | Err e => st_throw (ErrWaitResume e)
      | Ok st' => st_ret st'
      end
  end.

Definition breakpoint_check (g : StateGraph T D) (cur : string) (st : T) : M T :=
  m <- get_manager ;;
  if HasBreakpoint m cur then pause cur None st ErrTriggerBreakpoint
  else st_ret st.

(** Lines 210-304: look the node up, run it, retry after an interrupt
    error, or emit and route. *)
Definition run_node (g : StateGraph T D) (cur : string) (steps : Z) (st : T) : M Ctl :=
  match nodes g !! cur with
  | None => st_throw (ErrNodeNotFound cur)
  | Some node =>
      emit_event (streamer g) (node_event EventChainStart cur steps) ;;;
      match Function node st with
      | (st', Some e) =>
          if IsInterruptError e then
            st'' <- pause cur (fst (GetInterruptData e)) st' ErrTriggerInterrupt ;;
            st_ret (Continue cur steps st'')
          else st_throw (ErrInNode cur e)
      | (st', None) =>
          emit_event (streamer g) (node_event EventChainEnd cur steps) ;;;
          emit_stream (EmitUpdate (streamer g) st') ;;;
          match route (edges g) cur st' with
          | NextNode n => st_ret (Continue n (steps + 1)%Z st')
          | NoOutgoingEdge => st_throw (ErrNoOutgoingEdge cur)
          | RouterError msg => st_throw (ErrRouter cur msg)
          | InvalidRouterOutput => st_throw ErrInvalidRouterOutput
          end
      end
  end.

(** One pass of the [for] loop, lines 185-305. *)
Definition iteration (g : StateGraph T D) (cur : string) (steps : Z) (st : T) : M Ctl :=
  if bool_decide (recursionLimit g <= steps)%Z then st_throw (ErrRecursionLimit (recursionLimit g))
  else if bool_decide (cur = END) then st_ret (Break st)
  else
    st' <- breakpoint_check g cur st ;;
    run_node g cur steps st'.

Fixpoint loop (fuel : nat) (g : StateGraph T D) (cur : string) (steps : Z) (st : T) : M T :=
  match fuel with
  | O => st_nofuel
  | S fuel' =>
      c <- iteration g cur steps st ;;
      match c with
      | Break st' => st_ret st'
      | Continue cur' steps' st' => loop fuel' g cur' steps' st'
      end
  end.

(** Every continuing pass increments [steps] below the limit or
    consumes a response, so this many passes suffice. *)
Definition invoke_fuel (g : StateGraph T D) (w : World) : nat :=
  S (Z.to_nat (recursionLimit g) + length (wenv w)).

Definition Invoke (r : RunnableState T D) (state : T) : M T :=
  let g := graph r in
  emit_stream (EmitValue (streamer g) state) ;;;
  emit_event (streamer g) (run_event EventChainStart) ;;;
  w <- st_get ;;
  st <- loop (invoke_fuel g w) g (entryPoint g) 0 state ;;
  emit_stream (EmitValue (streamer g) st) ;;;
  emit_event (streamer g) (run_event EventChainEnd) ;;;
  st_ret st.

(** ** Specification helpers *)

(** The world after appending [os] to the trace. *)
Definition out_app (w : World) (os : list Output) : World :=
  {| wim := wim w; wenv := wenv w; wout := wout w ++ os |}.

(** What [EmitEvent] / [Emit*] put on the trace. *)
Definition event_out (s : Streamer) (e : Event) : list Output :=
  match EmitEvent s e with Some e' => [OutEvent e'] | None => [] end.

Definition stream_out (o : option (StreamEvent T)) : list Output :=
  match o with Some se => [OutStream se] | None => [] end.

(** The measure that bounds the number of passes of the loop. *)
Definition loop_measure (g : StateGraph T D) (steps : Z) (w : World) : nat :=
  Z.to_nat (recursionLimit g - steps) + length (wenv w).

(** The effect on the controller's answers of a computation [c]: it
    never runs out of fuel, never adds answers, and when it returns
    [a] it has consumed at least [k a] of them. *)
Definition consumes {A} (c : M A) (k : A -> nat) : Prop :=
  forall w o w', c w = (o, w') ->
    o <> NoFuel /\ length (wenv w') <= length (wenv w) /\
    forall a, o = Ret a -> length (wenv w') + k a <= length (wenv w).

(** [math.MaxInt] on a 64-bit target: the range of Go's [int]. *)
Definition max_int : Z := 2 ^ 63 - 1.

(** ** Abstract specification of a run without pauses *)

(** One node execution as spec section 4.2 describes it: the node
    exists, its step function returns a new state without error, and
    routing names the next node. *)
Definition node_step (g : StateGraph T D) (cur : string) (st : T) : option (string * T) :=
  match nodes g !! cur with
  | Some node =>
      match Function node st with
      | (st', None) =>
          match route (edges g) cur st' with
          | NextNode n => Some (n, st')
          | _ => None
          end
      | (_, Some _) => None
      end
  | None => None
  end.

(** [Path g cur st vs cur' st']: starting at [cur] with [st], the nodes
    [vs] (each with the state it produced) execute in order, none of
    them [END], and control arrives at [cur'] with [st']. *)
Inductive Path (g : StateGraph T D) : string -> T -> list (string * T) -> string -> T -> Prop :=
| Path_nil cur st : Path g cur st [] cur st
| Path_cons cur st n st' vs cur' st'' :
    cur <> END -> node_step g cur st = Some (n, st') ->
    Path g n st' vs cur' st'' -> Path g cur st ((cur, st') :: vs) cur' st''.

(** The values a path sends: per node, its start event, its end event
    and its state update, each if the mode is active. *)
Fixpoint path_out (s : Streamer) (steps : Z) (vs : list (string * T)) : list Output :=
  match vs with
  | [] => []
  | (n, st') :: vs' =>
      event_out s (node_event EventChainStart n steps) ++
      event_out s (node_event EventChainEnd n steps) ++
      stream_out (EmitUpdate s st') ++ path_out s (steps + 1)%Z vs'
  end.

(** The path from [cur] computed for at most [n] nodes: it stops at
    [END], at a node that does not step normally, or after [n] nodes. *)
Fixpoint path_run (g : StateGraph T D) (n : nat) (cur : string) (st : T)
  : list (string * T) * string * T :=
  match n with
  | O => ([], cur, st)
  | S n' =>
      if bool_decide (cur = END) then ([], cur, st)
      else
        match node_step g cur st with
        | Some (nx, st') =>
            let '(vs, c, s) := path_run g n' nx st' in ((cur, st') :: vs, c, s)
        | None => ([], cur, st)
        end
  end.

(** The manager after a completed pause: [Interrupt] set the flag, the
    controller applied its edits, [Resume] cleared the flag. *)
Definition after_pause (m : InterruptManager) (edits : list BreakpointEdit) : InterruptManager :=
  set_interrupted (foldl apply_edit (set_interrupted m true) edits) false.

(** What [Invoke] sends before and after the loop. *)
Definition run_prefix (s : Streamer) (st : T) : list Output :=
  stream_out (EmitValue s st) ++ event_out s (run_event EventChainStart).
Definition run_suffix (s : Streamer) (st : T) : list Output :=
  stream_out (EmitValue s st) ++ event_out s (run_event EventChainEnd).

(** The loop states reachable by passes that continue. *)
Inductive loop_reach (g : StateGraph T D)
  : string -> Z -> T -> World -> string -> Z -> T -> World -> Prop :=
| reach_refl cur steps st w : loop_reach g cur steps st w cur steps st w
| reach_step cur steps st w c s st' w' c2 s2 st2 w2 :
    iteration g cur steps st w = (Ret (Continue c s st'), w') ->
    loop_reach g c s st' w' c2 s2 st2 w2 ->
    loop_reach g cur steps st w c2 s2 st2 w2.

(** A run from the graph's manager, the controller's answers [env] and
    an empty trace. *)
Definition RunInvoke (r : RunnableState T D) (state : T) (env : list Response)
  : exec InvokeError T * World :=
  Invoke r state {| wim := interruptManager (graph r); wenv := env; wout := [] |}.
End Engine.

Arguments Output : clear implicits.
Arguments Response : clear implicits.
Arguments World : clear implicits.
Arguments InvokeError : clear implicits.
Arguments Ctl : clear implicits.

Create Rewrite HintDb engine_rw.

Section EffectLemmas.
Context {T D : Type} `{!Marshaler T} `{!Marshaler D}.
Local Abbreviation M := (ST (World T) (InvokeError D)).
Implicit Types (w : World T) (g : StateGraph T D).

Lemma out_app_nil w : out_app w [] = w.
Proof. destruct w; unfold out_app; simpl. by rewrite app_nil_r. Qed.

Lemma out_app_app w os1 os2 : out_app (out_app w os1) os2 = out_app w (os1 ++ os2).
Proof. unfold out_app; simpl. by rewrite app_assoc. Qed.

Lemma bind_emit_event {A} s e (k : unit -> M A) w :
  st_bind (emit_event s e) k w = k tt (out_app w (event_out s e)).
Proof.
  unfold emit_event, event_out. destruct (EmitEvent s e); [done|].
  by rewrite out_app_nil.
Qed.

Lemma bind_emit_stream {A} o (k : unit -> M A) w :
  st_bind (emit_stream o) k w = k tt (out_app w (stream_out o)).
Proof. unfold emit_stream, stream_out. destruct o; [done|]. by rewrite out_app_nil. Qed.

Lemma bind_get_manager {A} (k : InterruptManager -> M A) w :
  st_bind get_manager k w = k (wim w) w.
Proof. done. Qed.

Lemma bind_st_get {A} (k : World T -> M A) w : st_bind st_get k w = k w w.
Proof. done. Qed.

Lemma bind_st_ret {A B} (a : A) (k : A -> M B) w : st_bind (st_ret a) k w = k a w.
Proof. done. Qed.

Lemma wenv_out_app w os : wenv (out_app w os) = wenv w.
Proof. done. Qed.

Lemma wim_out_app w os : wim (out_app w os) = wim w.
Proof. done. Qed.
End EffectLemmas.

#[export] Hint Rewrite @bind_emit_event @bind_emit_stream @bind_get_manager
  @bind_st_get @bind_st_ret @out_app_app @wenv_out_app @wim_out_app @st_bind_assoc : engine_rw.

(** Close an arithmetic goal on lengths of the controller's answers. *)
Ltac env_lia :=
  repeat match goal with E : wenv _ = _ |- _ => rewrite E in *; clear E end;
  simpl in *; lia.

Section Progress.
Context {T D : Type} `{!Marshaler T} `{!Marshaler D}.
Implicit Types (w : World T) (g : StateGraph T D).

Lemma WaitForResume_consumes : consumes (T:=T) (D:=D) WaitForResume (fun _ => 1).
Proof.
  unfold WaitForResume. intros w o w' H.
  repeat case_match; simplify_eq/=; split_and!; try done; intros; simplify_eq/=; env_lia.
Qed.

Lemma pause_consumes cur (data : option D) (st : T) f :
  consumes (T:=T) (D:=D) (pause cur data st f) (fun _ => 1).
Proof.
  intros w o w' H. unfold pause, st_throw, st_ret in H.
  st_inv H Hc; unfold im_interrupt in Hc; repeat case_match; simplify_eq/=; try done.
  st_inv H Hw; destruct (WaitForResume_consumes _ _ _ Hw) as (? & ? & Hw2);
    repeat case_match; simplify_eq/=;
    split_and!; try done; try lia; intros ? [= <-]; specialize (Hw2 _ eq_refl); lia.
Qed.

Lemma breakpoint_check_consumes g cur (st : T) :
  consumes (T:=T) (D:=D) (breakpoint_check g cur st) (fun _ => 0).
Proof.
  intros w o w' H. unfold breakpoint_check in H. autorewrite with engine_rw in H.
  destruct (HasBreakpoint (wim w) cur).
  - destruct (pause_consumes _ _ _ _ _ _ _ H) as (? & ? & ?). split_and!; [done|lia|lia].
  - unfold st_ret in H. simplify_eq/=. split_and!; [done|lia|lia].
Qed.

(** A pass of [run_node] that continues either advanced [steps] by one
    or consumed an answer (the interrupt-error retry). *)
Lemma run_node_progress g cur steps st w o w' :
  run_node g cur steps st w = (o, w') ->
  o <> NoFuel /\ length (wenv w') <= length (wenv w) /\
  (forall st', o <> Ret (Break st')) /\
  forall c s st', o = Ret (Continue c s st') ->
    s = (steps + 1)%Z \/ (s = steps /\ length (wenv w') < length (wenv w)).
Proof.
  intros H. unfold run_node in H.
  destruct (nodes g !! cur) as [node|];
    [|unfold st_throw in H; simplify_eq/=; split_and!; done].
  autorewrite with engine_rw in H.
  destruct (Function node st) as [st' [e|]].
  - destruct (IsInterruptError e); [|unfold st_throw in H; simplify_eq/=; split_and!; done].
    st_inv H Hc; destruct (pause_consumes _ _ _ _ _ _ _ Hc) as (? & ? & Hc2);
      unfold st_ret in H; simplify_eq/=; split_and!; try done; try lia.
    intros ? ? ? [= <- <- <-]. specialize (Hc2 _ eq_refl). right. split; [done|lia].
  - autorewrite with engine_rw in H.
    destruct (route (edges g) cur st'); unfold st_ret, st_throw in H; simplify_eq/=;
      split_and!; try done; try lia; intros ? ? ? [= <- <- <-]; by left.
Qed.

Lemma iteration_progress g cur steps st w o w' :
  iteration g cur steps st w = (o, w') ->
  o <> NoFuel /\ length (wenv w') <= length (wenv w) /\
  forall c s st', o = Ret (Continue c s st') ->
    (s = steps + 1 /\ steps < recursionLimit g)%Z \/
    (s = steps /\ length (wenv w') < length (wenv w)).
Proof.
  intros H. unfold iteration in H. case_bool_decide as Hlim;
    [unfold st_throw in H; simplify_eq/=; split_and!; done|].
  case_bool_decide; [unfold st_ret in H; simplify_eq/=; split_and!; done|].
  st_inv H Hc; destruct (breakpoint_check_consumes _ _ _ _ _ _ Hc) as (? & ? & ?); try (split_and!; done).
  apply run_node_progress in H as (? & ? & _ & Hr).
  split_and!; [done|lia|]. intros c s st' ->.
  destruct (Hr _ _ _ eq_refl) as [->|[-> ?]]; [left; lia|right; split; [done|lia]].
Qed.

(** The loop never runs out of fuel when the fuel exceeds the measure. *)
Lemma loop_total fuel g cur steps st w :
  loop_measure g steps w < fuel -> fst (loop fuel g cur steps st w) <> NoFuel.
Proof.
  revert cur steps st w. induction fuel as [|fuel IH]; intros cur steps st w Hf; [lia|].
  simpl. unfold st_bind. destruct (iteration g cur steps st w) as [o w'] eqn:Hit.
  apply iteration_progress in Hit as (Hno & Hle & Hc).
  destruct o as [[c s st'|st']| | |]; simpl; try done.
  apply IH. unfold loop_measure in *.
  destruct (Hc _ _ _ eq_refl) as [[-> ?]|[-> ?]]; lia.
Qed.
End Progress.

Section Runs.
Context {T D : Type} `{!Marshaler T} `{!Marshaler D}.
Implicit Types (w : World T) (g : StateGraph T D).

(** C3: [Invoke] always terminates: with the fuel it computes, the loop
    never runs out, so every run returns, fails or blocks. *)
Theorem invoke_terminates (r : RunnableState T D) (st : T) w :
  fst (Invoke r st w) <> NoFuel.
Proof.
  unfold Invoke. autorewrite with engine_rw. unfold st_bind at 1.
  match goal with |- context [loop ?f ?g ?c ?s ?x ?w1] =>
    destruct (loop f g c s x w1) as [o w2] eqn:E;
    assert (o <> NoFuel) by
      (change o with (fst (o, w2)); rewrite <- E; apply loop_total;
       unfold loop_measure, invoke_fuel; simpl; lia)
  end.
  destruct o; simpl; [|done..]. by autorewrite with engine_rw.
Qed.

(** A pass over a node that exists, runs without error and routes,
    with no breakpoint on it. *)
Lemma iteration_normal g cur steps st w n st' :
  (steps < recursionLimit g)%Z -> cur <> END -> HasBreakpoint (wim w) cur = false ->
  node_step g cur st = Some (n, st') ->
  iteration g cur steps st w =
    (Ret (Continue n (steps + 1)%Z st'), out_app w (path_out (streamer g) steps [(cur, st')])).
Proof.
  intros Hlt Hne Hbp Hstep. unfold iteration.
  rewrite bool_decide_false by lia. rewrite bool_decide_false by done.
  unfold breakpoint_check. autorewrite with engine_rw. rewrite Hbp.
  autorewrite with engine_rw. unfold node_step, run_node in *.
  destruct (nodes g !! cur) as [node|]; [|done].
  autorewrite with engine_rw. destruct (Function node st) as [st1 [e|]]; [done|].
  autorewrite with engine_rw. destruct (route (edges g) cur st1); simplify_eq.
  simpl. by rewrite !app_nil_r, !app_assoc.
Qed.

(** Along a path with no breakpoints and within the limit, the loop
    performs exactly the path's passes. *)
Lemma loop_path g cur st vs cur' st' fuel steps w :
  Path g cur st vs cur' st' ->
  (steps + Z.of_nat (length vs) <= recursionLimit g)%Z ->
  Forall (fun p => HasBreakpoint (wim w) p.1 = false) vs ->
  loop (length vs + fuel) g cur steps st w =
  loop fuel g cur' (steps + Z.of_nat (length vs))%Z st'
       (out_app w (path_out (streamer g) steps vs)).
Proof.
  intros Hp. revert steps w.
  induction Hp as [cur st|cur st n st1 vs cur' st'' Hne Hstep Hp IH];
    intros steps w Hlim Hbp; simpl.
  - by rewrite Z.add_0_r, out_app_nil.
  - apply Forall_cons in Hbp as [Hbp1 Hbp]. cbn [length] in Hlim.
    rewrite Nat2Z.inj_succ in Hlim. cbn [length Nat.add loop].
    assert (Hlt : (steps < recursionLimit g)%Z) by lia.
    rewrite (st_bind_Ret _ _ _ _ _ (iteration_normal _ _ _ _ _ _ _ Hlt Hne Hbp1 Hstep)).
    rewrite IH by (done || lia).
    rewrite out_app_app. f_equal; [rewrite Nat2Z.inj_succ; lia|].
    f_equal. simpl. by rewrite app_nil_r, <- !app_assoc.
Qed.

Lemma iteration_limit g cur steps st w :
  (recursionLimit g <= steps)%Z ->
  iteration g cur steps st w = (Throw (ErrRecursionLimit (recursionLimit g)), w).
Proof. intros H. unfold iteration. by rewrite bool_decide_true. Qed.

Lemma iteration_end g steps st w :
  (steps < recursionLimit g)%Z -> iteration g END steps st w = (Ret (Break st), w).
Proof. intros H. unfold iteration. rewrite bool_decide_false by lia. by rewrite bool_decide_true. Qed.

(** [RunInvoke] unfolded up to the loop. *)
Lemma RunInvoke_loop (r : RunnableState T D) st env :
  let g := graph r in
  let w1 := {| wim := interruptManager g; wenv := env; wout := run_prefix (streamer g) st |} in
  RunInvoke r st env =
    st_bind (loop (invoke_fuel g w1) g (entryPoint g) 0 st)
      (fun st' => emit_stream (EmitValue (streamer g) st') ;;;
                  emit_event (streamer g) (run_event EventChainEnd) ;;; st_ret st') w1.
Proof. unfold RunInvoke, Invoke. by autorewrite with engine_rw. Qed.

(** A pause-free run along a path to [END] within the limit. *)
Lemma RunInvoke_path (r : RunnableState T D) st vs fin env :
  Path (graph r) (entryPoint (graph r)) st vs END fin ->
  (Z.of_nat (length vs) < recursionLimit (graph r))%Z ->
  Forall (fun p => HasBreakpoint (interruptManager (graph r)) p.1 = false) vs ->
  RunInvoke r st env =
    (Ret fin, {| wim := interruptManager (graph r); wenv := env;
                 wout := run_prefix (streamer (graph r)) st ++
                         path_out (streamer (graph r)) 0 vs ++
                         run_suffix (streamer (graph r)) fin |}).
Proof.
  intros Hp Hlim Hbp. rewrite RunInvoke_loop.
  set (w1 := {| wim := _; wenv := env; wout := _ |}).
  replace (invoke_fuel (graph r) w1) with (length vs + S (invoke_fuel (graph r) w1 - S (length vs)))
    by (unfold invoke_fuel; lia).
  assert (Hle : (0 + Z.of_nat (length vs) <= recursionLimit (graph r))%Z) by lia.
  rewrite (st_bind_cong _ _ _ _ _ (loop_path (graph r) _ _ _ _ _ _ 0 w1 Hp Hle Hbp)).
  cbn [loop]. rewrite Z.add_0_l, st_bind_assoc.
  rewrite (st_bind_Ret _ _ _ _ _ (iteration_end (graph r) _ fin _ Hlim)).
  autorewrite with engine_rw. unfold out_app, run_suffix; simpl.
  by rewrite ?app_assoc.
Qed.

(** C1: Refinement.  A run whose path from the entry point reaches
    [END] after [vs], with fewer executions than the recursion limit and
    no breakpoint on the way, returns the path's final state; the
    values sent are the initial state, the run start event, for each
    node its start event, end event and update, then the final state
    and the run end event, each as its stream mode allows; the manager
    and the controller's answers are untouched. *)
Theorem invoke_refines_path (r : RunnableState T D) st vs fin env :
  Path (graph r) (entryPoint (graph r)) st vs END fin ->
  (Z.of_nat (length vs) < recursionLimit (graph r))%Z ->
  Forall (fun p => HasBreakpoint (interruptManager (graph r)) p.1 = false) vs ->
  RunInvoke r st env =
    (Ret fin, {| wim := interruptManager (graph r); wenv := env;
                 wout := run_prefix (streamer (graph r)) st ++
                         path_out (streamer (graph r)) 0 vs ++
                         run_suffix (streamer (graph r)) fin |}).
Proof. apply RunInvoke_path. Qed.

(** C2: The recursion limit counts executions, and the check precedes
    the [END] check: after exactly [recursionLimit] node executions
    along a pause-free path, the run fails with the recursion-limit
    error even when control has arrived at [END], and no further node
    runs (the trace stops after the [limit]-th node's values). *)
Theorem invoke_recursion_limit (r : RunnableState T D) st vs cur fin env :
  Path (graph r) (entryPoint (graph r)) st vs cur fin ->
  Z.of_nat (length vs) = recursionLimit (graph r) ->
  Forall (fun p => HasBreakpoint (interruptManager (graph r)) p.1 = false) vs ->
  RunInvoke r st env =
    (Throw (ErrRecursionLimit (recursionLimit (graph r))),
     {| wim := interruptManager (graph r); wenv := env;
        wout := run_prefix (streamer (graph r)) st ++ path_out (streamer (graph r)) 0 vs |}).
Proof.
  intros Hp Hlim Hbp. rewrite RunInvoke_loop.
  set (w1 := {| wim := _; wenv := env; wout := _ |}).
  replace (invoke_fuel (graph r) w1) with (length vs + S (invoke_fuel (graph r) w1 - S (length vs)))
    by (unfold invoke_fuel; lia).
  assert (Hle : (0 + Z.of_nat (length vs) <= recursionLimit (graph r))%Z) by lia.
  rewrite (st_bind_cong _ _ _ _ _ (loop_path (graph r) _ _ _ _ _ _ 0 w1 Hp Hle Hbp)).
  cbn [loop]. rewrite Z.add_0_l.
  unfold st_bind. rewrite iteration_limit by lia. reflexivity.
Qed.
End Runs.

Section Pauses.
Context {T D : Type} `{!Marshaler T} `{!Marshaler D}.
Implicit Types (w : World T) (g : StateGraph T D).

Lemma path_run_Path g n cur (st : T) :
  let '(vs, c, s) := path_run g n cur st in Path g cur st vs c s.
Proof.
  revert cur st. induction n as [|n IH]; intros cur st; simpl; [constructor|].
  case_bool_decide; [constructor|].
  destruct (node_step g cur st) as [[nx st']|] eqn:E; [|constructor].
  specialize (IH nx st'). destruct (path_run g n nx st') as [[vs c] s].
  by econstructor.
Qed.

Lemma foldl_apply_edit_interrupted m edits :
  interrupted (foldl apply_edit m edits) = interrupted m.
Proof. revert m. induction edits as [|[] edits IH]; intros m; simpl; rewrite ?IH; done. Qed.

(** A pause from an un-interrupted manager whose marshalling succeeds
    and which the controller answers with [Resume(s')]. *)
Lemma pause_resumed cur (data : option D) (st : T) f w db sb edits s' env' :
  interrupted (wim w) = false -> marshal_data data = Ok db -> marshal st = Ok sb ->
  wenv w = RespResume edits s' :: env' ->
  pause cur data st f w =
    (Ret s', {| wim := after_pause (wim w) edits; wenv := env';
                wout := wout w ++ [OutInterrupt {| NodeName := cur; IData := db; IState := sb |}] |}).
Proof.
  intros Hi Hd Hs Henv. unfold pause, st_bind, im_interrupt. simpl.
  unfold Interrupt. rewrite Hi, Hd, Hs. simpl.
  unfold WaitForResume. simpl. rewrite Henv. simpl.
  unfold Resume. rewrite foldl_apply_edit_interrupted. done.
Qed.

(** C4: Breakpoint.  When the current node has a breakpoint (and the
    manager is not interrupted), a pass sends exactly one
    [InterruptInfo] for the node, with payload "null" and the
    marshalled current state, before the node runs; the node then runs
    on the state passed to [Resume], with the controller's edits
    applied and the flag cleared. *)
Theorem iteration_breakpoint g cur steps st w sb edits s' env' :
  (steps < recursionLimit g)%Z -> cur <> END ->
  HasBreakpoint (wim w) cur = true -> interrupted (wim w) = false ->
  marshal st = Ok sb -> wenv w = RespResume edits s' :: env' ->
  iteration g cur steps st w =
    run_node g cur steps s'
      {| wim := after_pause (wim w) edits; wenv := env';
         wout := wout w ++ [OutInterrupt {| NodeName := cur; IData := "null"; IState := sb |}] |}.
Proof.
  intros Hlt Hne Hbp Hi Hs Henv. unfold iteration.
  rewrite bool_decide_false by lia. rewrite bool_decide_false by done.
  unfold breakpoint_check. autorewrite with engine_rw. rewrite Hbp.
  by rewrite (st_bind_Ret _ _ _ _ _ (pause_resumed _ None _ _ _ "null" _ _ _ _ Hi eq_refl Hs Henv)).
Qed.

(** C5: Interrupt error.  When the step function returns the sentinel
    [InterruptError] with payload [data], the engine sends the node's
    start event and one [InterruptInfo] carrying the marshalled payload
    and the marshalled state the step function returned, waits, and
    retries the same node with the resumed state without advancing
    [steps]. *)
Theorem run_node_interrupt_error g cur steps st w node st2 data db sb edits s' env' :
  nodes g !! cur = Some node -> Function node st = (st2, Some (InterruptError data)) ->
  interrupted (wim w) = false -> marshal_data data = Ok db -> marshal st2 = Ok sb ->
  wenv w = RespResume edits s' :: env' ->
  run_node g cur steps st w =
    (Ret (Continue cur steps s'),
     {| wim := after_pause (wim w) edits; wenv := env';
        wout := wout w ++ event_out (streamer g) (node_event EventChainStart cur steps) ++
                [OutInterrupt {| NodeName := cur; IData := db; IState := sb |}] |}).
Proof.
  intros Hn Hf Hi Hd Hs Henv. unfold run_node. rewrite Hn.
  autorewrite with engine_rw. rewrite Hf. simpl.
  rewrite (st_bind_Ret _ _ _ _ _ (pause_resumed _ _ _ _ (out_app w _) _ _ _ _ _ Hi Hd Hs Henv)).
  unfold st_ret, out_app. simpl. by rewrite ?app_assoc.
Qed.

(** C10: Only the bare sentinel pauses.  A step-function error that is
    not a [*InterruptError] value, including the sentinel wrapped with
    [%w], ends the run with the node-execution error after the node's
    start event. *)
Theorem run_node_fatal_error g cur steps st w node st2 e :
  nodes g !! cur = Some node -> Function node st = (st2, Some e) ->
  IsInterruptError e = false ->
  run_node g cur steps st w =
    (Throw (ErrInNode cur e), out_app w (event_out (streamer g) (node_event EventChainStart cur steps))).
Proof.
  intros Hn Hf He. unfold run_node. rewrite Hn. autorewrite with engine_rw.
  by rewrite Hf, He.
Qed.
End Pauses.

Section Flag.
Context {T D : Type} `{!Marshaler T} `{!Marshaler D}.
Implicit Types (w : World T) (g : StateGraph T D).

Lemma WaitForResume_flag w (s : T) w' :
  WaitForResume (D:=D) w = (Ret (Ok s), w') -> interrupted (wim w') = false.
Proof. unfold WaitForResume, Resume. intros H. repeat case_match; by simplify_eq/=. Qed.

(** A pause that returns leaves the manager un-interrupted. *)
Lemma pause_flag cur (data : option D) (st : T) f w a w' :
  pause cur data st f w = (Ret a, w') -> interrupted (wim w') = false.
Proof.
  unfold pause. intros H. st_inv_as H Hc r; try done.
  destruct r as [u|msg]; [|unfold st_throw in H; discriminate].
  st_inv_as H Hw r'; try done.
  destruct r' as [s'|msg]; [|unfold st_throw in H; discriminate].
  unfold st_ret in H. simplify_eq. by eapply WaitForResume_flag.
Qed.

Lemma iteration_flag g cur steps (st : T) w c w' :
  interrupted (wim w) = false -> iteration g cur steps st w = (Ret c, w') ->
  interrupted (wim w') = false.
Proof.
  intros Hi H. unfold iteration in H. case_bool_decide; [done|].
  case_bool_decide; [unfold st_ret in H; by simplify_eq|].
  st_inv H Hc; try done. unfold breakpoint_check in Hc. autorewrite with engine_rw in Hc.
  assert (interrupted (wim w0) = false) as Hi0.
  { destruct (HasBreakpoint (wim w) cur); [by eapply pause_flag|unfold st_ret in Hc; by simplify_eq]. }
  unfold run_node in H. destruct (nodes g !! cur); [|done].
  autorewrite with engine_rw in H. destruct (Function _ _) as [st2 [e|]].
  - destruct (IsInterruptError e); [|done]. st_inv H Hp; try done.
    unfold st_ret in H. simplify_eq. by eapply pause_flag.
  - autorewrite with engine_rw in H.
    destruct (route _ _ _); unfold st_ret, st_throw in H; simplify_eq/=; by rewrite ?wim_out_app.
Qed.

Lemma loop_flag fuel g cur steps (st : T) w fin w' :
  interrupted (wim w) = false -> loop fuel g cur steps st w = (Ret fin, w') ->
  interrupted (wim w') = false.
Proof.
  revert cur steps st w. induction fuel as [|fuel IH]; intros cur steps st w Hi H; [done|].
  simpl in H. st_inv H Hc; try done. apply iteration_flag in Hc; [|done].
  destruct a; [by eapply IH|unfold st_ret in H; by simplify_eq].
Qed.

(** C7: A run of [Invoke] that returns normally from an un-interrupted
    manager leaves it un-interrupted: every pause it went through was
    closed by a [Resume]. *)
Theorem invoke_returns_uninterrupted (r : RunnableState T D) (st : T) w fin w' :
  interrupted (wim w) = false -> Invoke r st w = (Ret fin, w') ->
  interrupted (wim w') = false.
Proof.
  intros Hi H. unfold Invoke in H. autorewrite with engine_rw in H.
  st_inv H Hc; try done. apply loop_flag in Hc; [|done].
  autorewrite with engine_rw in H. unfold st_ret in H. by simplify_eq.
Qed.

Lemma pause_already cur (data : option D) (st : T) f w :
  interrupted (wim w) = true -> pause cur data st f w = (Throw (f "already interrupted"), w).
Proof.
  intros Hi. unfold pause, st_bind, im_interrupt. simpl. unfold Interrupt. rewrite Hi.
  by destruct w.
Qed.

Lemma pause_cancelled cur (data : option D) (st : T) f w db sb env' :
  interrupted (wim w) = false -> marshal_data data = Ok db -> marshal st = Ok sb ->
  wenv w = RespCancel :: env' ->
  pause cur data st f w =
    (Throw (ErrWaitResume "context canceled"),
     {| wim := set_interrupted (wim w) true; wenv := env';
        wout := wout w ++ [OutInterrupt {| NodeName := cur; IData := db; IState := sb |}] |}).
Proof.
  intros Hi Hd Hs Henv. unfold pause, st_bind, im_interrupt. simpl.
  unfold Interrupt. rewrite Hi, Hd, Hs. simpl. unfold WaitForResume. simpl. by rewrite Henv.
Qed.

(** A run whose first pass throws. *)
Lemma RunInvoke_first_throw (r : RunnableState T D) (st : T) env e w' :
  iteration (graph r) (entryPoint (graph r)) 0 st
    {| wim := interruptManager (graph r); wenv := env; wout := run_prefix (streamer (graph r)) st |}
    = (Throw e, w') ->
  RunInvoke r st env = (Throw e, w').
Proof.
  intros H. rewrite RunInvoke_loop. unfold invoke_fuel. cbn [loop].
  rewrite st_bind_assoc. unfold st_bind. by rewrite H.
Qed.

Lemma iteration_breakpoint_throw g cur steps (st : T) w e w' :
  (steps < recursionLimit g)%Z -> cur <> END -> HasBreakpoint (wim w) cur = true ->
  pause cur None st ErrTriggerBreakpoint w = (Throw e, w') ->
  iteration g cur steps st w = (Throw e, w').
Proof.
  intros Hlt Hne Hbp Hp. unfold iteration.
  rewrite bool_decide_false by lia. rewrite bool_decide_false by done.
  unfold breakpoint_check. autorewrite with engine_rw. rewrite Hbp. unfold st_bind. by rewrite Hp.
Qed.

(** C6: A cancelled pause leaves the manager interrupted.  If the
    context is cancelled while the run waits at a breakpoint on the
    entry node, [Invoke] fails with the context error and the shared
    manager keeps [interrupted = true]; every later run of the graph
    then fails at that breakpoint with "already interrupted". *)
Theorem cancelled_pause_leaves_interrupted (r : RunnableState T D) (st : T) sb env :
  (0 < recursionLimit (graph r))%Z -> entryPoint (graph r) <> END ->
  HasBreakpoint (interruptManager (graph r)) (entryPoint (graph r)) = true ->
  interrupted (interruptManager (graph r)) = false -> marshal st = Ok sb ->
  exists w, RunInvoke r st (RespCancel :: env) = (Throw (ErrWaitResume "context canceled"), w) /\
    interrupted (wim w) = true /\
    forall (st2 : T) env2,
      fst (RunInvoke {| graph := with_manager (graph r) (wim w) |} st2 env2) =
      Throw (ErrTriggerBreakpoint "already interrupted").
Proof.
  intros Hlim Hne Hbp Hi Hs.
  eexists. split; [|split].
  - apply RunInvoke_first_throw. apply iteration_breakpoint_throw; [lia|done|done|].
    by apply pause_cancelled with (db := "null").
  - done.
  - intros st2 env2. erewrite RunInvoke_first_throw; [done|].
    apply iteration_breakpoint_throw; [done|done|done|]. by apply pause_already.
Qed.
End Flag.

Section Bounds.
Context {T D : Type} `{!Marshaler T} `{!Marshaler D}.
Implicit Types (w : World T) (g : StateGraph T D).

(** C35: The step counter stays in range.  In every loop state reached
    from [steps = 0] by passes that continue, [0 <= steps <=
    max(0, recursionLimit)]; with the limit a Go [int], [steps++] never
    overflows. *)
Theorem reach_steps_bounded g cur (st : T) w c s st' w' :
  (recursionLimit g <= max_int)%Z ->
  loop_reach g cur 0 st w c s st' w' ->
  (0 <= s <= Z.max 0 (recursionLimit g))%Z /\ (s <= max_int)%Z.
Proof.
  intros Hmax Hr.
  enough (forall steps, (0 <= steps <= Z.max 0 (recursionLimit g))%Z ->
            loop_reach g cur steps st w c s st' w' ->
            (0 <= s <= Z.max 0 (recursionLimit g))%Z) as Hgen.
  { specialize (Hgen 0%Z ltac:(lia) Hr). unfold max_int in *. lia. }
  clear Hr. intros steps Hb Hr.
  induction Hr as [|cur steps st w c1 s1 st1 w1 c2 s2 st2 w2 Hit Hr IH]; [done|].
  apply IH. apply iteration_progress in Hit as (_ & _ & Hc).
  destruct (Hc _ _ _ eq_refl) as [[-> ?]|[-> _]]; lia.
Qed.

Lemma path_out_no_modes (s : Streamer) steps (vs : list (string * T)) :
  StreamDebug ∉ modes s -> StreamUpdates ∉ modes s -> path_out (T:=T) s steps vs = [].
Proof.
  intros Hd Hu. revert steps. induction vs as [|[n st'] vs IH]; intros steps; [done|].
  simpl. unfold event_out, EmitEvent, stream_out, EmitUpdate.
  rewrite (emit_mode_inactive _ _ _ Hu). apply hasMode_false in Hd as ->. apply IH.
Qed.

(** C34: Under the default stream configuration (values only) a
    pause-free run that reaches [END] sends exactly two values, the
    initial and the final state, and no event and no update. *)
Theorem default_config_trace (r : RunnableState T D) (st : T) vs fin env :
  streamer (graph r) = NewStreamer (Modes DefaultStreamConfig) ->
  Path (graph r) (entryPoint (graph r)) st vs END fin ->
  (Z.of_nat (length vs) < recursionLimit (graph r))%Z ->
  Forall (fun p => HasBreakpoint (interruptManager (graph r)) p.1 = false) vs ->
  RunInvoke r st env =
    (Ret fin, {| wim := interruptManager (graph r); wenv := env;
                 wout := [OutStream {| Mode := StreamValues; Data := st |};
                          OutStream {| Mode := StreamValues; Data := fin |}] |}).
Proof.
  intros Hs Hp Hlim Hbp. rewrite (RunInvoke_path r st vs fin env Hp Hlim Hbp), Hs.
  rewrite path_out_no_modes by (simpl; set_solver). reflexivity.
Qed.
End Bounds.

Section Errors.
Context {T D : Type} `{!Marshaler T} `{!Marshaler D}.
Implicit Types (w : World T) (g : StateGraph T D).

(** A route to a missing node.  When a pause-free path within the
    limit leads from the entry point to a name [cur] that is not [END],
    has no breakpoint and is not a registered node, the run fails with
    the node-not-found error for [cur] after sending the path's values. *)
Theorem invoke_node_not_found (r : RunnableState T D) (st : T) vs cur fin env :
  Path (graph r) (entryPoint (graph r)) st vs cur fin ->
  (Z.of_nat (length vs) < recursionLimit (graph r))%Z -> cur <> END ->
  Forall (fun p => HasBreakpoint (interruptManager (graph r)) p.1 = false) ((cur, fin) :: vs) ->
  nodes (graph r) !! cur = None ->
  RunInvoke r st env =
    (Throw (ErrNodeNotFound cur),
     {| wim := interruptManager (graph r); wenv := env;
        wout := run_prefix (streamer (graph r)) st ++ path_out (streamer (graph r)) 0 vs |}).
Proof.
  intros Hp Hlim Hne Hbp Hn. apply Forall_cons in Hbp as [Hbp0 Hbp].
  rewrite RunInvoke_loop.
  set (w1 := {| wim := _; wenv := env; wout := _ |}).
  replace (invoke_fuel (graph r) w1) with (length vs + S (invoke_fuel (graph r) w1 - S (length vs)))
    by (unfold invoke_fuel; lia).
  assert (Hle : (0 + Z.of_nat (length vs) <= recursionLimit (graph r))%Z) by lia.
  rewrite (st_bind_cong _ _ _ _ _ (loop_path (graph r) _ _ _ _ _ _ 0 w1 Hp Hle Hbp)).
  cbn [loop]. rewrite Z.add_0_l, st_bind_assoc.
  unfold iteration. rewrite bool_decide_false by lia. rewrite bool_decide_false by done.
  unfold breakpoint_check. autorewrite with engine_rw. simpl in Hbp0.
  change (wim w1) with (interruptManager (graph r)). rewrite Hbp0.
  autorewrite with engine_rw. unfold run_node. rewrite Hn. reflexivity.
Qed.

(** Routing failures end the run.  After a node ran and sent its
    start event, end event and update, a missing outgoing edge, a
    router error or an empty candidate list ends the run with the
    corresponding error. *)
Theorem run_node_route_error g cur steps (st : T) w node st' :
  nodes g !! cur = Some node -> Function node st = (st', None) ->
  (forall n, route (edges g) cur st' <> NextNode n) ->
  run_node g cur steps st w =
    (Throw (match route (edges g) cur st' with
            | NoOutgoingEdge => ErrNoOutgoingEdge cur
            | RouterError msg => ErrRouter cur msg
            | _ => ErrInvalidRouterOutput
            end),
     out_app w (path_out (streamer g) steps [(cur, st')])).
Proof.
  intros Hn Hf Hr. unfold run_node. rewrite Hn. autorewrite with engine_rw.
  rewrite Hf. autorewrite with engine_rw.
  destruct (route (edges g) cur st') as [n| | |]; [by destruct (Hr n)|..];
    simpl; by rewrite ?app_nil_r, ?app_assoc.
Qed.
End Errors.

Section DeadEdges.
Context {T D : Type} `{!Marshaler T} `{!Marshaler D}.
Implicit Types (g : StateGraph T D).

(** [Invoke] depends on its graph only through the streamer, the
    recursion limit, the entry point and the loop. *)
Lemma Invoke_graph_ext g1 g2 (st : T) w :
  streamer g1 = streamer g2 -> recursionLimit g1 = recursionLimit g2 ->
  entryPoint g1 = entryPoint g2 ->
  (forall fuel cur steps (s : T) w', loop fuel g1 cur steps s w' = loop fuel g2 cur steps s w') ->
  Invoke {| graph := g1 |} st w = Invoke {| graph := g2 |} st w.
Proof.
  intros Hs Hr He Hl. unfold Invoke, invoke_fuel. cbn [graph]. rewrite Hs, Hr, He.
  do 3 (apply st_bind_ext; intros ??). by apply st_bind_cong.
Qed.

(** Routing from a node other than [from] ignores edges added from [from]. *)
Lemma route_AddConditionalEdges_other g from router mapping cur (st : T) :
  cur <> from ->
  route (edges g ++ [{| From := from; ERouter := router; Mapping := mapping |}]) cur st =
  route (edges g) cur st.
Proof.
  intros Hne. unfold route, find_edge.
  destruct (List.find _ (edges g)) eqn:Hf.
  - by rewrite (find_app_l _ _ _ _ Hf).
  - rewrite (find_app_r _ _ _ Hf). simpl. by rewrite bool_decide_false.
Qed.

Lemma run_node_AddConditionalEdges g from router mapping cur steps (st : T) w :
  nodes g !! from = None ->
  run_node (AddConditionalEdges g from router mapping) cur steps st w = run_node g cur steps st w.
Proof.
  intros Hfrom. unfold run_node. simpl. destruct (nodes g !! cur) as [node|] eqn:Hn; [|done].
  autorewrite with engine_rw. destruct (Function node st) as [st' [e|]]; [done|].
  autorewrite with engine_rw. rewrite route_AddConditionalEdges_other; [done|].
  intros ->. congruence.
Qed.

Lemma loop_AddConditionalEdges fuel g from router mapping cur steps (st : T) w :
  nodes g !! from = None ->
  loop fuel (AddConditionalEdges g from router mapping) cur steps st w = loop fuel g cur steps st w.
Proof.
  intros Hfrom. revert cur steps st w.
  induction fuel as [|fuel IH]; intros cur steps st w; [done|]. simpl. unfold st_bind.
  assert (iteration (AddConditionalEdges g from router mapping) cur steps st w =
          iteration g cur steps st w) as ->.
  { unfold iteration. simpl. repeat case_bool_decide; try done.
    unfold st_bind. change (breakpoint_check (AddConditionalEdges g from router mapping) cur st)
      with (breakpoint_check g cur st).
    destruct (breakpoint_check g cur st w) as [[st'| | |] w']; try done.
    by apply run_node_AddConditionalEdges. }
  destruct (iteration g cur steps st w) as [[[c s st'|st']| | |] w']; try done.
Qed.

(** C36: Edges leaving a name that is not a node are dead: adding them
    changes no run of [Invoke], whatever their router.  In particular an
    edge from [START], which the spec calls the synthetic origin of the
    graph, is never taken: a run starts at the entry point. *)
Theorem Invoke_dead_edges (r : RunnableState T D) from router mapping (st : T) w :
  nodes (graph r) !! from = None ->
  Invoke {| graph := AddConditionalEdges (graph r) from router mapping |} st w = Invoke r st w.
Proof.
  intros Hfrom. destruct r as [g]. apply Invoke_graph_ext; try done.
  intros. by apply loop_AddConditionalEdges.
Qed.
End DeadEdges.

(** ** Witnesses: the theorems at the scenarios of [Scenarios] *)

Section Witnesses.
Local Abbreviation W0 env := ({| wim := NewInterruptManager; wenv := env; wout := [] |} : World Z).

Lemma invoke_refines_path_witness :
  RunInvoke {| graph := graphA |} 0%Z [] =
    (Ret 55%Z, {| wim := interruptManager graphA; wenv := [];
                  wout := [OutStream {| Mode := StreamValues; Data := 0%Z |};
                           OutStream {| Mode := StreamUpdates; Data := 55%Z |};
                           OutStream {| Mode := StreamValues; Data := 55%Z |}] |}).
Proof.
  assert (Hp : Path graphA "calc" 0%Z [("calc", 55%Z)] END 55%Z)
    by exact (path_run_Path graphA 1 "calc" 0%Z).
  rewrite (invoke_refines_path {| graph := graphA |} 0%Z [("calc", 55%Z)] 55%Z [] Hp).
  - reflexivity.
  - vm_compute. reflexivity.
  - constructor; [reflexivity|constructor].
Defined.

Lemma invoke_recursion_limit_witness :
  RunInvoke {| graph := graphA_limit1 |} 0%Z [] =
    (Throw (ErrRecursionLimit 1%Z),
     {| wim := interruptManager graphA_limit1; wenv := [];
        wout := [OutStream {| Mode := StreamValues; Data := 0%Z |};
                 OutStream {| Mode := StreamUpdates; Data := 55%Z |}] |}).
Proof.
  assert (Hp : Path graphA_limit1 "calc" 0%Z [("calc", 55%Z)] END 55%Z)
    by exact (path_run_Path graphA_limit1 1 "calc" 0%Z).
  rewrite (invoke_recursion_limit {| graph := graphA_limit1 |} 0%Z [("calc", 55%Z)] END 55%Z [] Hp).
  - reflexivity.
  - reflexivity.
  - constructor; [reflexivity|constructor].
Defined.

Lemma iteration_breakpoint_witness :
  iteration graphD "b" 1%Z 1%Z {| wim := interruptManager graphD; wenv := [RespResume [] 10%Z]; wout := [] |} =
    run_node graphD "b" 1%Z 10%Z
      {| wim := after_pause (interruptManager graphD) []; wenv := [];
         wout := [OutInterrupt {| NodeName := "b"; IData := "null"; IState := "1" |}] |}.
Proof.
  apply (iteration_breakpoint graphD "b" 1%Z 1%Z
           {| wim := interruptManager graphD; wenv := [RespResume [] 10%Z]; wout := [] |}
           "1" [] 10%Z []).
  - vm_compute. reflexivity.
  - discriminate.
  - reflexivity.
  - reflexivity.
  - reflexivity.
  - reflexivity.
Defined.

Lemma run_node_interrupt_error_witness :
  run_node graphI "ask" 0%Z 5%Z (W0 [RespResume [] 100%Z]) =
    (Ret (Continue "ask" 0%Z 100%Z),
     {| wim := after_pause NewInterruptManager []; wenv := [];
        wout := [OutInterrupt {| NodeName := "ask"; IData := dquote +:+ "approve?" +:+ dquote;
                                 IState := "0" |}] |}).
Proof.
  apply (run_node_interrupt_error graphI "ask" 0%Z 5%Z (W0 [RespResume [] 100%Z])
           {| NName := "ask"; Function := ask_fn |} 0%Z (Some "approve?")).
  - reflexivity.
  - reflexivity.
  - reflexivity.
  - reflexivity.
  - reflexivity.
  - reflexivity.
Defined.

Lemma run_node_fatal_error_witness :
  run_node graphW "ask" 0%Z 5%Z (W0 []) =
    (Throw (ErrInNode "ask" (Wrapped "ask: " (InterruptError (Some "approve?")))), W0 []).
Proof.
  rewrite (run_node_fatal_error graphW "ask" 0%Z 5%Z (W0 [])
             {| NName := "ask"; Function := ask_wrapped_fn |} 0%Z
             (Wrapped "ask: " (InterruptError (Some "approve?")))).
  - reflexivity.
  - reflexivity.
  - reflexivity.
  - reflexivity.
Defined.

Lemma invoke_returns_uninterrupted_witness :
  interrupted (wim (snd (RunInvoke {| graph := graphD |} 0%Z [RespResume [] 10%Z]))) = false.
Proof.
  apply (invoke_returns_uninterrupted {| graph := graphD |} 0%Z
           {| wim := interruptManager graphD; wenv := [RespResume [] 10%Z]; wout := [] |} 20%Z).
  - reflexivity.
  - vm_compute. reflexivity.
Defined.

Lemma cancelled_pause_leaves_interrupted_witness :
  exists w, RunInvoke {| graph := GAddBreakpoint graphA "calc" |} 0%Z [RespCancel] =
              (Throw (ErrWaitResume "context canceled"), w) /\
    interrupted (wim w) = true /\
    forall (st2 : Z) env2,
      fst (RunInvoke {| graph := with_manager (GAddBreakpoint graphA "calc") (wim w) |} st2 env2) =
      Throw (ErrTriggerBreakpoint "already interrupted").
Proof.
  apply (cancelled_pause_leaves_interrupted {| graph := GAddBreakpoint graphA "calc" |} 0%Z "0" []).
  - reflexivity.
  - discriminate.
  - vm_compute. reflexivity.
  - reflexivity.
  - reflexivity.
Defined.

Lemma reach_steps_bounded_witness :
  (0 <= 1 <= Z.max 0 (recursionLimit graphA))%Z /\ (1 <= max_int)%Z.
Proof.
  apply (reach_steps_bounded graphA "calc" 0%Z (W0 []) END 1%Z 55%Z
           {| wim := NewInterruptManager; wenv := [];
              wout := [OutStream {| Mode := StreamUpdates; Data := 55%Z |}] |}).
  - vm_compute. discriminate.
  - eapply reach_step; [vm_compute; reflexivity|apply reach_refl].
Defined.

Lemma default_config_trace_witness :
  RunInvoke {| graph := graphA_default |} 0%Z [] =
    (Ret 55%Z, {| wim := interruptManager graphA_default; wenv := [];
                  wout := [OutStream {| Mode := StreamValues; Data := 0%Z |};
                           OutStream {| Mode := StreamValues; Data := 55%Z |}] |}).
Proof.
  assert (Hp : Path graphA_default "calc" 0%Z [("calc", 55%Z)] END 55%Z)
    by exact (path_run_Path graphA_default 1 "calc" 0%Z).
  apply (default_config_trace {| graph := graphA_default |} 0%Z [("calc", 55%Z)] 55%Z [] eq_refl Hp).
  - vm_compute. reflexivity.
  - constructor; [reflexivity|constructor].
Defined.

Lemma invoke_node_not_found_witness :
  RunInvoke {| graph := graphC |} 5%Z [] =
    (Throw (ErrNodeNotFound "x"),
     {| wim := interruptManager graphC; wenv := [];
        wout := [OutStream {| Mode := StreamValues; Data := 5%Z |}] |}).
Proof.
  assert (Hp : Path graphC "a" 5%Z [("a", 5%Z)] "x" 5%Z)
    by exact (path_run_Path graphC 1 "a" 5%Z).
  rewrite (invoke_node_not_found {| graph := graphC |} 5%Z [("a", 5%Z)] "x" 5%Z [] Hp).
  - reflexivity.
  - vm_compute. reflexivity.
  - discriminate.
  - repeat constructor.
  - reflexivity.
Defined.

Lemma run_node_route_error_witness :
  run_node graphE "a" 0%Z 5%Z (W0 []) = (Throw ErrInvalidRouterOutput, W0 []).
Proof.
  rewrite (run_node_route_error graphE "a" 0%Z 5%Z (W0 [])
             {| NName := "a"; Function := fun s => (s, None) |} 5%Z).
  - reflexivity.
  - reflexivity.
  - reflexivity.
  - intros n. discriminate.
Defined.
Lemma Invoke_dead_edges_witness :
  Invoke {| graph := AddConditionalEdges graphA START (fun _ => Ok ["calc"]) None |} 0%Z (W0 []) =
  Invoke {| graph := graphA |} 0%Z (W0 []).
Proof. apply (Invoke_dead_edges {| graph := graphA |}). vm_compute. reflexivity. Defined.
End Witnesses.
