(* ===== verification/Fanout.v ===== *)
(** * Fanout: [RunnableState.Stream] of src/unnamed/part_000 (lines 319-377)

    [Stream] makes two buffered output channels of capacity
    [BufferSize] and starts a goroutine (the runner) that starts a
    second goroutine (the forwarder), runs [Invoke] and, on error, sends
    a synthetic [on_chain_end] event; its deferred calls then run in
    reverse order: [cancel()], [close(eventCh)], [close(streamCh)].  The
    forwarder loops on a [select] over the streamer's two unbuffered
    channels and [ctx.Done()], and forwards each value it receives with
    a second [select] between the send and [ctx.Done()].

    The program state [SState] holds the runner's phase, the
    forwarder's phase, the two output channels (buffer, closed flag and
    the values the consumer has received) and the derived context's
    cancellation flag.  [fstep cap] is one atomic step of one goroutine:
    a rendezvous of [Invoke]'s send with the forwarder's receive, a
    forwarder send (into the buffer below capacity, or handed to a
    waiting consumer when the buffer is empty), a forwarder return on
    [ctx.Done()], a send on a closed channel (a panic, which ends the
    program), a consumer receive, or the runner's next statement.  Every
    [select] with several ready cases is a choice between steps.

    [Invoke]'s sends are the [Item]s of its output trace in order (the
    interrupt payloads go to the controller, not to the forwarder), and
    its end is [Returned err] or [Blocks] (a pause nobody resumes).  The
    caller's context is never cancelled: the only cancellation is the
    runner's deferred [cancel()].  The invariants of the reachable states
    ([phase_ok], the in-flight lists, [error_flight]) are proved by
    induction over the steps; the schedules build explicit runs.  The
    streamer's own channels, its getters and [Streamer.Close] are
    [StreamerChans].  [InvokeError_Error] is the text [err.Error()]
    of the engine's errors that [Stream] reports; the theorems hold for
    any text [msg]. *)

From S2P Require Import Prelude Stream Interrupt Graph Scenarios Engine.
From stdpp Require Import pretty.

(** ** Data *)

Section Data.
Context {T : Type}.

(** A value [Invoke] sends on one of the streamer's channels. *)
Inductive Item :=
| IEvent (e : Event)
| IStream (se : StreamEvent T).

(** How [Invoke] ends after its sends. *)
Inductive InvokeEnd :=
| Returned (err : option string)
| Blocks.

Inductive Runner :=
| RInvoke (pending : list Item) (fin : InvokeEnd)  (* [r.Invoke(ctx, state)] *)
| RErrSend (e : Event)                             (* [select { case eventCh <- ... }] *)
| RCancel                                          (* deferred [cancel()] *)
| RCloseE                                          (* deferred [close(eventCh)] *)
| RCloseS                                          (* deferred [close(streamCh)] *)
| RDone.

Inductive Forwarder :=
| FIdle                       (* in the outer [select] *)
| FHolding (it : Item)        (* in the inner [select], about to send [it] *)
| FReturned
| FPanicked.                  (* sent on a closed channel *)

(** A buffered channel with the values its consumer has received. *)
Record Chan (A : Type) := { buf : list A; closed : bool; got : list A }.

Record SState := {
  runner : Runner;
  fwd : Forwarder;
  evch : Chan Event;                     (* [eventCh] *)
  stch : Chan (StreamEvent T);           (* [streamCh] *)
  cancelled : bool
}.
End Data.
Arguments Item : clear implicits.
Arguments Runner : clear implicits.
Arguments Forwarder : clear implicits.
Arguments Build_Chan {A}.
Arguments buf {A}.
Arguments closed {A}.
Arguments got {A}.
Arguments SState : clear implicits.

(** ** Channels *)

Section Channels.
Context {A : Type}.
Implicit Types (c : Chan A).

Definition new_chan : Chan A := {| buf := []; closed := false; got := [] |}.

Definition chan_push c (x : A) : Chan A := {| buf := buf c ++ [x]; closed := closed c; got := got c |}.

(** A send taken by a receiver waiting on the empty channel. *)
Definition chan_give c (x : A) : Chan A := {| buf := buf c; closed := closed c; got := got c ++ [x] |}.

Definition chan_close c : Chan A := {| buf := buf c; closed := true; got := got c |}.

(** A send [c <- x] that completes: into the buffer below capacity, or
    handed to a waiting receiver when the buffer is empty. *)
Inductive chan_send (cap : nat) : Chan A -> A -> Chan A -> Prop :=
| send_buffered c x :
    closed c = false -> length (buf c) < cap -> chan_send cap c x (chan_push c x)
| send_handoff c x :
    closed c = false -> buf c = [] -> chan_send cap c x (chan_give c x).

(** A receive [<-c] of a buffered value. *)
Inductive chan_recv : Chan A -> Chan A -> Prop :=
| recv_buffered x b cl g :
    chan_recv {| buf := x :: b; closed := cl; got := g |} {| buf := b; closed := cl; got := g ++ [x] |}.
End Channels.

(** ** The streamer's own channels

    [Stream] abstracts the [Streamer]'s two unbuffered channels into
    the rendezvous of the runner and the forwarder.  As channels of
    capacity 0 they are [Chan]s; [Close] closes both in order, and a
    [close] of a closed channel panics. *)

Section StreamerChannels.
Context {T : Type}.

Record StreamerChans := {
  eventCh : Chan Event;
  streamCh : Chan (StreamEvent T)
}.

(** The two [make(chan ...)] of [NewStreamer]. *)
Definition NewStreamerChans : StreamerChans := {| eventCh := new_chan; streamCh := new_chan |}.

Definition GetEventChannel (s : StreamerChans) : Chan Event := eventCh s.
Definition GetStreamChannel (s : StreamerChans) : Chan (StreamEvent T) := streamCh s.

Definition Close (s : StreamerChans) : go_result StreamerChans :=
  if closed (eventCh s) then Panics
  else if closed (streamCh s) then Panics
  else Returns {| eventCh := chan_close (eventCh s); streamCh := chan_close (streamCh s) |}.
End StreamerChannels.
Arguments StreamerChans : clear implicits.

(** ** The program *)

Section Program.
Context {T : Type}.
Implicit Types (s : SState T).

Definition set_runner s (r : Runner T) : SState T :=
  {| runner := r; fwd := fwd s; evch := evch s; stch := stch s; cancelled := cancelled s |}.
Definition set_fwd s (f : Forwarder T) : SState T :=
  {| runner := runner s; fwd := f; evch := evch s; stch := stch s; cancelled := cancelled s |}.
Definition set_evch s (c : Chan Event) : SState T :=
  {| runner := runner s; fwd := fwd s; evch := c; stch := stch s; cancelled := cancelled s |}.
Definition set_stch s (c : Chan (StreamEvent T)) : SState T :=
  {| runner := runner s; fwd := fwd s; evch := evch s; stch := c; cancelled := cancelled s |}.
Definition set_cancelled s : SState T :=
  {| runner := runner s; fwd := fwd s; evch := evch s; stch := stch s; cancelled := true |}.

(** The event the runner sends when [Invoke] fails (the clock fields
    [RunID] and [Timestamp] are omitted, as everywhere). *)
Definition chain_end_error (msg : string) : Event :=
  {| EvType := EventChainEnd; Name := "LangGraph"; Meta := ErrorMetadata msg |}.

Definition alive s : Prop := fwd s <> FPanicked.

Inductive fstep (cap : nat) : SState T -> SState T -> Prop :=
(* [Invoke]'s send meets the forwarder's receive in the outer select *)
| step_handoff s it rest fin :
    alive s -> runner s = RInvoke (it :: rest) fin -> fwd s = FIdle ->
    fstep cap s (set_fwd (set_runner s (RInvoke rest fin)) (FHolding it))
(* [Invoke] returns *)
| step_return_err s msg :
    alive s -> runner s = RInvoke [] (Returned (Some msg)) ->
    fstep cap s (set_runner s (RErrSend (chain_end_error msg)))
| step_return_ok s :
    alive s -> runner s = RInvoke [] (Returned None) -> fstep cap s (set_runner s RCancel)
(* the runner's error event *)
| step_err_send s e c' :
    alive s -> runner s = RErrSend e -> chan_send cap (evch s) e c' ->
    fstep cap s (set_runner (set_evch s c') RCancel)
(* the deferred calls *)
| step_cancel s :
    alive s -> runner s = RCancel -> fstep cap s (set_runner (set_cancelled s) RCloseE)
| step_close_events s :
    alive s -> runner s = RCloseE ->
    fstep cap s (set_runner (set_evch s (chan_close (evch s))) RCloseS)
| step_close_stream s :
    alive s -> runner s = RCloseS ->
    fstep cap s (set_runner (set_stch s (chan_close (stch s))) RDone)
(* the forwarder's inner select *)
| step_fwd_event s e c' :
    fwd s = FHolding (IEvent e) -> chan_send cap (evch s) e c' ->
    fstep cap s (set_fwd (set_evch s c') FIdle)
| step_fwd_stream s se c' :
    fwd s = FHolding (IStream se) -> chan_send cap (stch s) se c' ->
    fstep cap s (set_fwd (set_stch s c') FIdle)
| step_fwd_panic_event s e :
    fwd s = FHolding (IEvent e) -> closed (evch s) = true -> fstep cap s (set_fwd s FPanicked)
| step_fwd_panic_stream s se :
    fwd s = FHolding (IStream se) -> closed (stch s) = true -> fstep cap s (set_fwd s FPanicked)
| step_fwd_drop s it :
    fwd s = FHolding it -> cancelled s = true -> fstep cap s (set_fwd s FReturned)
(* the forwarder's outer select on [ctx.Done()] *)
| step_fwd_quit s :
    fwd s = FIdle -> cancelled s = true -> fstep cap s (set_fwd s FReturned)
(* the consumer *)
| step_recv_event s c' :
    alive s -> chan_recv (evch s) c' -> fstep cap s (set_evch s c')
| step_recv_stream s c' :
    alive s -> chan_recv (stch s) c' -> fstep cap s (set_stch s c').

Definition fanout_init (its : list (Item T)) (fin : InvokeEnd) : SState T :=
  {| runner := RInvoke its fin; fwd := FIdle; evch := new_chan; stch := new_chan;
     cancelled := false |}.

(** [Stream]: [make] panics on a negative capacity; otherwise the program
    starts from [fanout_init]. *)
Definition Stream_start (bufferSize : Z) (its : list (Item T)) (fin : InvokeEnd)
  : go_result (nat * SState T) :=
  if (bufferSize <? 0)%Z then Panics else Returns (Z.to_nat bufferSize, fanout_init its fin).

(** The values of each channel among [Invoke]'s sends. *)
Definition events_of (its : list (Item T)) : list Event :=
  omap (fun it => match it with IEvent e => Some e | IStream _ => None end) its.
Definition streams_of (its : list (Item T)) : list (StreamEvent T) :=
  omap (fun it => match it with IStream se => Some se | IEvent _ => None end) its.

(** The events the runner adds to [Invoke]'s: the error event. *)
Definition err_events (fin : InvokeEnd) : list Event :=
  match fin with Returned (Some msg) => [chain_end_error msg] | _ => [] end.

Definition is_error_event (e : Event) : bool :=
  match Meta e with ErrorMetadata _ => true | _ => false end.

(** ** What is in flight *)

Definition pending_of (r : Runner T) : list (Item T) :=
  match r with RInvoke p _ => p | _ => [] end.
Definition held_events (f : Forwarder T) : list Event :=
  match f with FHolding (IEvent e) => [e] | _ => [] end.
Definition held_streams (f : Forwarder T) : list (StreamEvent T) :=
  match f with FHolding (IStream se) => [se] | _ => [] end.

(** The stream values received, buffered, held by the forwarder and
    still to be sent, in this order. *)
Definition stream_flight s : list (StreamEvent T) :=
  got (stch s) ++ buf (stch s) ++ held_streams (fwd s) ++ streams_of (pending_of (runner s)).

(** The same for events, leaving out the runner's error event. *)
Definition event_flight s : list Event :=
  filter (fun e => is_error_event e = false) (got (evch s) ++ buf (evch s)) ++
  held_events (fwd s) ++ events_of (pending_of (runner s)).

(** How far the runner is in its body. *)
Definition phase_rank (r : Runner T) : nat :=
  match r with
  | RInvoke _ _ => 0 | RErrSend _ => 1 | RCancel => 2 | RCloseE => 3 | RCloseS => 4 | RDone => 5
  end.

(** The context is cancelled and the channels are closed only by the
    runner's deferred calls, in their order. *)
Definition phase_ok s : Prop :=
  (cancelled s = true -> 3 <= phase_rank (runner s)) /\
  (closed (evch s) = true -> 4 <= phase_rank (runner s)) /\
  (closed (stch s) = true -> 5 <= phase_rank (runner s)) /\
  (match runner s with RErrSend e => is_error_event e = true | _ => True end).

(** The only error event ever in flight is the runner's own, sent
    when [Invoke] failed. *)
Definition error_flight (fin : InvokeEnd) s : Prop :=
  Forall (fun e => is_error_event e = false \/ e ∈ err_events fin)
    (got (evch s) ++ buf (evch s) ++ held_events (fwd s) ++ events_of (pending_of (runner s))) /\
  match runner s with RInvoke _ f => f = fin | RErrSend e => e ∈ err_events fin | _ => True end.
End Program.

(** ** The text of the engine's errors *)

Section ErrorText.
Context {D : Type}.

(** [ErrNodeNotFound] and [ErrNoOutgoingEdge] are sentinels declared
    outside src/; their texts are parameters. *)
Context (node_not_found no_outgoing_edge : string).

(** [ErrInvalidRouterOutput = errors.New("invalid router output")]. *)
Definition ErrInvalidRouterOutput_text : string := "invalid router output".

(** [err.Error()] of each error [Invoke] returns, the text [Stream]
    puts in the [error] entry of its [on_chain_end] event: the
    [fmt.Errorf] formats of lines 188-301, where [%w] prints the
    wrapped error's [Error()] and [%d] the limit in decimal. *)
Definition InvokeError_Error (e : InvokeError D) : string :=
  match e with
  | ErrRecursionLimit limit => "recursion limit (" +:+ pretty limit +:+ ") exceeded"
  | ErrTriggerBreakpoint msg => "error triggering breakpoint: " +:+ msg
  | ErrWaitResume msg => "error waiting for resume: " +:+ msg
  | ErrNodeNotFound node => node_not_found +:+ ": " +:+ node
  | ErrTriggerInterrupt msg => "error triggering interrupt: " +:+ msg
  | ErrInNode node err => "error in node " +:+ node +:+ ": " +:+ Error err
  | ErrRouter node msg => "error in router for node " +:+ node +:+ ": " +:+ msg
  | ErrInvalidRouterOutput => ErrInvalidRouterOutput_text +:+ ": router returned no nodes"
  | ErrNoOutgoingEdge node => no_outgoing_edge +:+ ": " +:+ node
  end.
End ErrorText.

(** ** Link with [Invoke] *)

Section Link.
Context {T D : Type} `{!Marshaler T} `{!Marshaler D}.

(** The sends of a trace that reach the forwarder. *)
Definition items_of_outputs (os : list (Output T)) : list (Item T) :=
  omap (fun o => match o with
                 | OutEvent e => Some (IEvent e)
                 | OutStream se => Some (IStream se)
                 | OutInterrupt _ => None
                 end) os.

Definition invoke_end (msg : InvokeError D -> string) (o : exec (InvokeError D) T) : InvokeEnd :=
  match o with
  | Ret _ => Returned None
  | Throw e => Returned (Some (msg e))
  | Hang | NoFuel => Blocks
  end.

(** [Stream(ctx, state)] for a controller answering the pauses with
    [env]; [msg] is [err.Error()] of the engine's errors. *)
Definition Stream (msg : InvokeError D -> string) (r : RunnableState T D) (state : T)
           (env : list (Response T)) : go_result (nat * SState T) :=
  let '(o, w) := RunInvoke r state env in
  Stream_start (BufferSize (streamConfig (graph r))) (items_of_outputs (wout w)) (invoke_end msg o).

(** The outputs [Invoke] produces carry no error event. *)
Definition good_output (o : Output T) : bool :=
  match o with OutEvent e => negb (is_error_event e) | _ => true end.

(** A computation that only appends good outputs to the trace. *)
Definition appends_good {A} (c : ST (World T) (InvokeError D) A) : Prop :=
  forall w o w', c w = (o, w') ->
    exists new, wout w' = wout w ++ new /\ Forall (fun o => good_output o = true) new.
End Link.

(** ** Lemmas *)

Section Trace.
Context {T D : Type} `{!Marshaler T} `{!Marshaler D}.
Local Abbreviation M := (ST (World T) (InvokeError D)).

Lemma ag_same {A} (c : M A) : (forall w o w', c w = (o, w') -> wout w' = wout w) -> appends_good c.
Proof. intros Hc w o w' H. exists []. rewrite (Hc _ _ _ H), app_nil_r. split; [done|constructor]. Qed.

Lemma ag_ret {A} (a : A) : appends_good (st_ret (W:=World T) (E:=InvokeError D) a).
Proof. apply ag_same. by intros w o w' [= _ <-]. Qed.

Lemma ag_throw {A} (e : InvokeError D) : appends_good (st_throw (W:=World T) (A:=A) e).
Proof. apply ag_same. by intros w o w' [= _ <-]. Qed.

Lemma ag_bind {A B} (c : M A) (k : A -> M B) :
  appends_good c -> (forall a, appends_good (k a)) -> appends_good (st_bind c k).
Proof.
  intros Hc Hk w o w' H. unfold st_bind in H.
  destruct (c w) as [o1 w1] eqn:H1. destruct (Hc _ _ _ H1) as (n1 & E1 & F1).
  destruct o1 as [a| | |]; simplify_eq; try (exists n1; done).
  destruct (Hk a _ _ _ H) as (n2 & E2 & F2). exists (n1 ++ n2).
  rewrite E2, E1, app_assoc. split; [done|by apply Forall_app].
Qed.

Lemma ag_emit_event s e : is_error_event e = false -> appends_good (emit_event (T:=T) (D:=D) s e).
Proof.
  intros He. unfold emit_event, EmitEvent. destruct (hasMode s StreamDebug); [|apply ag_ret].
  intros w o w' [= _ <-]. exists [OutEvent e]. simpl. split; [done|].
  constructor; [simpl; by rewrite He|constructor].
Qed.

Lemma ag_emit_stream o : appends_good (emit_stream (T:=T) (D:=D) o).
Proof.
  destruct o as [se|]; [|apply ag_ret]. intros w o w' [= _ <-].
  exists [OutStream se]. split; [done|]. by repeat constructor.
Qed.

Lemma ag_pause cur (data : option D) (st : T) f : appends_good (pause cur data st f).
Proof.
  unfold pause. apply ag_bind.
  - intros w o w' H. unfold im_interrupt in H. destruct (Interrupt _ _ _ _) as [m' [info|e]].
    + injection H as <- <-. exists [OutInterrupt info]. split; [done|by repeat constructor].
    + injection H as <- <-. exists []. rewrite app_nil_r. split; [done|constructor].
  - intros [u|e]; [|apply ag_throw]. apply ag_bind.
    + apply ag_same. intros w o w' H. unfold WaitForResume in H. by repeat case_match; simplify_eq.
    + intros [s'|e]; [apply ag_ret|apply ag_throw].
Qed.

Lemma ag_iteration g cur steps (st : T) : appends_good (iteration g cur steps st).
Proof.
  unfold iteration. case_bool_decide; [apply ag_throw|]. case_bool_decide; [apply ag_ret|].
  apply ag_bind.
  - unfold breakpoint_check. apply ag_bind; [apply ag_same; by intros w o w' [= _ <-]|].
    intros m. destruct (HasBreakpoint m cur); [apply ag_pause|apply ag_ret].
  - intros st'. unfold run_node. destruct (nodes g !! cur) as [node|]; [|apply ag_throw].
    apply ag_bind; [by apply ag_emit_event|]. intros _.
    destruct (Function node st') as [st'' [e|]].
    + destruct (IsInterruptError e); [|apply ag_throw].
      apply ag_bind; [apply ag_pause|]. intros; apply ag_ret.
    + apply ag_bind; [by apply ag_emit_event|]. intros _.
      apply ag_bind; [apply ag_emit_stream|]. intros _.
      destruct (route _ _ _); [apply ag_ret|apply ag_throw..].
Qed.

Lemma ag_Invoke (r : RunnableState T D) (st : T) : appends_good (Invoke r st).
Proof.
  unfold Invoke. apply ag_bind; [apply ag_emit_stream|]. intros _.
  apply ag_bind; [by apply ag_emit_event|]. intros _.
  apply ag_bind; [apply ag_same; by intros w o w' [= _ <-]|]. intros w0.
  apply ag_bind.
  - generalize (invoke_fuel (graph r) w0) (entryPoint (graph r)) 0%Z st.
    intros fuel. induction fuel as [|fuel IH]; intros cur steps s; simpl.
    + apply ag_same. by intros w o w' [= _ <-].
    + apply ag_bind; [apply ag_iteration|]. intros [c s' st'|st']; [apply IH|apply ag_ret].
  - intros st'. apply ag_bind; [apply ag_emit_stream|]. intros _.
    apply ag_bind; [by apply ag_emit_event|]. intros _. apply ag_ret.
Qed.
End Trace.


Section ChanLemmas.
Context {A : Type} (cap : nat).
Implicit Types (c : Chan A).

Lemma chan_send_flight c x c' :
  chan_send cap c x c' -> got c' ++ buf c' = got c ++ buf c ++ [x].
Proof.
  intros [c0 x0 _ _|c0 x0 _ Hb]; simpl; [done|].
  rewrite Hb. by rewrite <-app_assoc.
Qed.

Lemma chan_recv_flight c c' : chan_recv c c' -> got c' ++ buf c' = got c ++ buf c.
Proof. intros []. simpl. by rewrite <-app_assoc. Qed.

Lemma chan_send_closed c x c' : chan_send cap c x c' -> closed c' = closed c.
Proof. by intros []. Qed.

Lemma chan_recv_closed c c' : chan_recv c c' -> closed c' = closed c.
Proof. by intros []. Qed.

Lemma chan_send_bounded c x c' :
  chan_send cap c x c' -> length (buf c') <= cap.
Proof.
  intros [c0 x0 _ Hl|c0 x0 _ Hb]; simpl; [rewrite length_app; simpl; lia|].
  rewrite Hb. simpl. lia.
Qed.
End ChanLemmas.

Section StreamerLemmas.
Context {T : Type}.
Implicit Types (s : StreamerChans T).

(** The streamer's channels are unbuffered: a send completes only as a
    hand-off to a receiver already waiting. *)
Lemma unbuffered_send {A} (c : Chan A) x c' :
  chan_send 0 c x c' -> c' = chan_give c x /\ buf c = [].
Proof. intros [c0 x0 _ Hl|c0 x0 _ Hb]; [simpl in Hl; lia|done]. Qed.

(** [Close] on a streamer whose channels are open closes both and
    keeps what was received; a second [Close] panics, and no send on
    either channel completes afterwards. *)
Theorem Close_once s s' :
  Close s = Returns s' ->
  closed (GetEventChannel s) = false /\ closed (GetStreamChannel s) = false /\
  got (GetEventChannel s') = got (GetEventChannel s) /\ got (GetStreamChannel s') = got (GetStreamChannel s) /\
  Close s' = Panics /\
  (forall cap e c, ~ chan_send cap (GetEventChannel s') e c) /\
  (forall cap se c, ~ chan_send cap (GetStreamChannel s') se c).
Proof.
  unfold Close, GetEventChannel, GetStreamChannel.
  destruct (closed (eventCh s)) eqn:He, (closed (streamCh s)) eqn:Hs; try discriminate.
  intros [= <-]. simpl. split_and!; try done; intros ??? Hsend; inversion Hsend; simpl in *; discriminate.
Qed.

End StreamerLemmas.

Section Invariants.
Context {T : Type} (cap : nat).
Implicit Types (s : SState T).

Lemma pending_late (r : Runner T) : 1 <= phase_rank r -> pending_of r = [].
Proof. destruct r; simpl; lia || done. Qed.

Lemma fstep_phase_ok s s' : fstep cap s s' -> phase_ok s -> phase_ok s'.
Proof.
  unfold phase_ok.
  intros Hs (Hc & He & Hst & Hr); inversion Hs; subst; simpl in *;
    repeat match goal with H : runner _ = _ |- _ => rewrite H in *; simpl in * end;
    repeat match goal with H : chan_send _ _ _ _ |- _ => rewrite (chan_send_closed _ _ _ _ H)
                         | H : chan_recv _ _ |- _ => rewrite (chan_recv_closed _ _ H) end;
    split_and!; intros; try lia; auto.
Qed.
Lemma fstep_error_flight fin s s' :
  fstep cap s s' -> error_flight fin s -> error_flight fin s'.
Proof.
  unfold error_flight. intros Hs [Hf Hr]. rewrite !Forall_app in Hf.
  destruct Hf as (Hg & Hb & Hh & Hp).
  inversion Hs; subst; simpl in *;
    repeat match goal with H : runner _ = _ |- _ => rewrite H in *; simpl in * end;
    try match goal with H : fwd _ = _ |- _ => rewrite H in *; simpl in * end;
    try (match goal with H : chan_send _ _ _ _ |- _ => pose proof (chan_send_flight _ _ _ _ H) as Hfl end;
         rewrite app_assoc, Hfl);
    try (match goal with H : chan_recv _ _ |- _ => pose proof (chan_recv_flight _ _ H) as Hfl end;
         rewrite app_assoc, Hfl);
    rewrite ?Forall_app, ?Forall_cons; subst; simpl; try set_solver.
  - destruct it; simpl in *; rewrite ?Forall_cons, ?Forall_nil in *; naive_solver.
  - rewrite ?Forall_cons, ?Forall_nil in *; naive_solver.
Qed.

Lemma phase_ok_pending s : phase_ok s -> cancelled s = true \/ closed (evch s) = true \/
  closed (stch s) = true -> pending_of (runner s) = [].
Proof.
  intros (Hc & He & Hs & _) Hor. apply pending_late.
  destruct Hor as [H|[H|H]]; [apply Hc in H|apply He in H|apply Hs in H]; lia.
Qed.

Lemma fstep_stream_flight s s' :
  fstep cap s s' -> phase_ok s -> stream_flight s' `prefix_of` stream_flight s.
Proof.
  intros Hs Hok. pose proof (phase_ok_pending s Hok) as Hp.
  inversion Hs; subst; unfold stream_flight; simpl in *;
    repeat match goal with H : runner _ = _ |- _ => rewrite H in *; simpl in * end;
    repeat match goal with H : fwd _ = _ |- _ => rewrite H end; simpl.
  all: try reflexivity.
  all: try (destruct it; reflexivity).
  all: try (match goal with H : chan_send _ _ _ _ |- _ =>
              rewrite app_assoc, (chan_send_flight _ _ _ _ H), <-!app_assoc; reflexivity end).
  all: try (match goal with H : chan_recv _ _ |- _ =>
              rewrite app_assoc, (chan_recv_flight _ _ H), <-!app_assoc; reflexivity end).
  all: try destruct it; simpl; try reflexivity.
  all: rewrite Hp by auto; apply prefix_app, prefix_app, prefix_nil.
Qed.

Lemma fstep_event_flight s s' :
  fstep cap s s' -> phase_ok s ->
  Forall (fun e => is_error_event e = false) (event_flight s) ->
  event_flight s' `prefix_of` event_flight s.
Proof.
  intros Hs Hok Hne. pose proof (phase_ok_pending s Hok) as Hp.
  pose proof (proj2 (proj2 (proj2 Hok))) as Hr.
  inversion Hs; subst; unfold event_flight in *; simpl in *;
    repeat match goal with H : runner _ = _ |- _ => rewrite H in *; simpl in * end;
    repeat match goal with H : fwd _ = _ |- _ => rewrite H in * end; simpl in *.
  all: try reflexivity.
  all: try (destruct it; reflexivity).
  all: try (match goal with H : chan_recv _ _ |- _ =>
              rewrite (chan_recv_flight _ _ H); reflexivity end).
  all: try (rewrite Hp by auto; simpl; apply prefix_app, prefix_nil).
  - (* the runner's error event *)
    match goal with H : chan_send _ _ _ _ |- _ => rewrite (chan_send_flight _ _ _ _ H) end.
    rewrite !filter_app, filter_cons_False by congruence. by rewrite filter_nil, !app_nil_r.
  - (* the forwarder's event *)
    apply Forall_app in Hne as [_ He%Forall_cons_1]. destruct He as [He _].
    match goal with H : chan_send _ _ _ _ |- _ => rewrite (chan_send_flight _ _ _ _ H) end.
    rewrite !filter_app, filter_cons_True by done. by rewrite filter_nil, <-!app_assoc.
Qed.
End Invariants.

(** ** Schedules *)

(** Take one step [c], then continue. *)
Ltac fstep_to c := eapply rtc_l; [c|].

Section Schedules.
Context {T : Type} (cap : nat).
Implicit Types (s : SState T).

Lemma forward_all its rest fin s :
  runner s = RInvoke (its ++ rest) fin -> fwd s = FIdle ->
  buf (evch s) = [] -> buf (stch s) = [] -> closed (evch s) = false -> closed (stch s) = false ->
  exists s', rtc (fstep cap) s s' /\ runner s' = RInvoke rest fin /\ fwd s' = FIdle /\
    buf (evch s') = [] /\ buf (stch s') = [] /\
    closed (evch s') = false /\ closed (stch s') = false /\
    got (evch s') = got (evch s) ++ events_of its /\
    got (stch s') = got (stch s) ++ streams_of its /\ cancelled s' = cancelled s.
Proof.
  revert s. induction its as [|it its IH]; intros s Hr Hf Hbe Hbs Hce Hcs.
  { exists s. rewrite !app_nil_r. by split_and!. }
  assert (Ha : alive s) by (unfold alive; congruence).
  destruct it as [e|se].
  - destruct (IH (set_fwd (set_evch (set_fwd (set_runner s (RInvoke (its ++ rest) fin))
                                       (FHolding (IEvent e))) (chan_give (evch s) e)) FIdle))
      as (s' & Hst & ?&?&?&?&?&?& He & Hs & ?); simpl; auto.
    exists s'. split_and!; auto.
    + fstep_to ltac:(eapply step_handoff; eauto).
      fstep_to ltac:(eapply step_fwd_event; [done|]; simpl; by apply send_handoff).
      exact Hst.
    + rewrite He. simpl. by rewrite <-app_assoc.
  - destruct (IH (set_fwd (set_stch (set_fwd (set_runner s (RInvoke (its ++ rest) fin))
                                       (FHolding (IStream se))) (chan_give (stch s) se)) FIdle))
      as (s' & Hst & ?&?&?&?&?&?& He & Hs & ?); simpl; auto.
    exists s'. split_and!; auto.
    + fstep_to ltac:(eapply step_handoff; eauto).
      fstep_to ltac:(eapply step_fwd_stream; [done|]; simpl; by apply send_handoff).
      exact Hst.
    + rewrite Hs. simpl. by rewrite <-app_assoc.
Qed.

(** The same, but the consumer takes only the events: every state value
    stays in the buffer of [streamCh], which has room for them. *)
Lemma forward_streams_buffered its rest fin s :
  runner s = RInvoke (its ++ rest) fin -> fwd s = FIdle ->
  buf (evch s) = [] -> closed (evch s) = false -> closed (stch s) = false ->
  length (buf (stch s)) + length (streams_of its) <= cap ->
  exists s', rtc (fstep cap) s s' /\ runner s' = RInvoke rest fin /\ fwd s' = FIdle /\
    buf (evch s') = [] /\ buf (stch s') = buf (stch s) ++ streams_of its /\
    closed (evch s') = false /\ closed (stch s') = false /\
    got (evch s') = got (evch s) ++ events_of its /\
    got (stch s') = got (stch s) /\ cancelled s' = cancelled s.
Proof.
  revert s. induction its as [|it its IH]; intros s Hr Hf Hbe Hce Hcs Hlen.
  { exists s. rewrite !app_nil_r. by split_and!. }
  assert (Ha : alive s) by (unfold alive; congruence).
  destruct it as [e|se].
  - destruct (IH (set_fwd (set_evch (set_fwd (set_runner s (RInvoke (its ++ rest) fin))
                                       (FHolding (IEvent e))) (chan_give (evch s) e)) FIdle))
      as (s' & Hst & ?&?&?& Hbs &?&?& He & Hs & ?); simpl; auto.
    exists s'. split_and!; auto.
    + fstep_to ltac:(eapply step_handoff; eauto).
      fstep_to ltac:(eapply step_fwd_event; [done|]; simpl; by apply send_handoff).
      exact Hst.
    + rewrite He. simpl. by rewrite <-app_assoc.
  - simpl in Hlen. destruct (IH (set_fwd (set_stch (set_fwd (set_runner s (RInvoke (its ++ rest) fin))
                                       (FHolding (IStream se))) (chan_push (stch s) se)) FIdle))
      as (s' & Hst & ?&?&?& Hbs &?&?& He & Hs & ?); simpl; auto.
    { rewrite length_app. simpl. lia. }
    exists s'. split_and!; auto.
    + fstep_to ltac:(eapply step_handoff; eauto).
      fstep_to ltac:(eapply step_fwd_stream; [done|]; simpl; apply send_buffered; [done|lia]).
      exact Hst.
    + rewrite Hbs. simpl. by rewrite <-app_assoc.
Qed.

(** The mirror image: the consumer takes only the state values, and
    every event stays in the buffer of [eventCh]. *)
Lemma forward_events_buffered its rest fin s :
  runner s = RInvoke (its ++ rest) fin -> fwd s = FIdle ->
  buf (stch s) = [] -> closed (evch s) = false -> closed (stch s) = false ->
  length (buf (evch s)) + length (events_of its) <= cap ->
  exists s', rtc (fstep cap) s s' /\ runner s' = RInvoke rest fin /\ fwd s' = FIdle /\
    buf (evch s') = buf (evch s) ++ events_of its /\ buf (stch s') = [] /\
    closed (evch s') = false /\ closed (stch s') = false /\
    got (evch s') = got (evch s) /\
    got (stch s') = got (stch s) ++ streams_of its /\ cancelled s' = cancelled s.
Proof.
  revert s. induction its as [|it its IH]; intros s Hr Hf Hbs Hce Hcs Hlen.
  { exists s. rewrite !app_nil_r. by split_and!. }
  assert (Ha : alive s) by (unfold alive; congruence).
  destruct it as [e|se].
  - simpl in Hlen. destruct (IH (set_fwd (set_evch (set_fwd (set_runner s (RInvoke (its ++ rest) fin))
                                       (FHolding (IEvent e))) (chan_push (evch s) e)) FIdle))
      as (s' & Hst & ?&?& Hbe &?&?&?& He & Hs & ?); simpl; auto.
    { rewrite length_app. simpl. lia. }
    exists s'. split_and!; auto.
    + fstep_to ltac:(eapply step_handoff; eauto).
      fstep_to ltac:(eapply step_fwd_event; [done|]; simpl; apply send_buffered; [done|lia]).
      exact Hst.
    + rewrite Hbe. simpl. by rewrite <-app_assoc.
  - destruct (IH (set_fwd (set_stch (set_fwd (set_runner s (RInvoke (its ++ rest) fin))
                                       (FHolding (IStream se))) (chan_give (stch s) se)) FIdle))
      as (s' & Hst & ?&?& Hbe &?&?&?& He & Hs & ?); simpl; auto.
    exists s'. split_and!; auto.
    + fstep_to ltac:(eapply step_handoff; eauto).
      fstep_to ltac:(eapply step_fwd_stream; [done|]; simpl; by apply send_handoff).
      exact Hst.
    + rewrite Hs. simpl. by rewrite <-app_assoc.
Qed.

Lemma runner_return fin s :
  runner s = RInvoke [] fin -> fin <> Blocks -> alive s ->
  buf (evch s) = [] -> closed (evch s) = false ->
  exists s', rtc (fstep cap) s s' /\ runner s' = RCancel /\ fwd s' = fwd s /\ stch s' = stch s /\
    buf (evch s') = [] /\ closed (evch s') = false /\
    got (evch s') = got (evch s) ++ err_events fin /\ cancelled s' = cancelled s.
Proof.
  intros Hr Hfin Ha Hb Hc. destruct fin as [[msg|]|]; [| |done].
  - exists (set_runner (set_evch (set_runner s (RErrSend (chain_end_error msg)))
                         (chan_give (evch s) (chain_end_error msg))) RCancel).
    split_and!; simpl; auto.
    fstep_to ltac:(by eapply step_return_err).
    fstep_to ltac:(eapply step_err_send; [done|done|]; simpl; by apply send_handoff).
    reflexivity.
  - exists (set_runner s RCancel). split_and!; simpl; auto; [|by rewrite app_nil_r].
    fstep_to ltac:(by eapply step_return_ok). reflexivity.
Qed.

Lemma runner_defer s :
  runner s = RCancel -> alive s ->
  exists s', rtc (fstep cap) s s' /\ runner s' = RDone /\ fwd s' = fwd s /\ cancelled s' = true /\
    evch s' = chan_close (evch s) /\ stch s' = chan_close (stch s).
Proof.
  intros Hr Ha.
  exists (set_runner (set_stch (set_runner (set_evch (set_runner (set_cancelled s) RCloseE)
            (chan_close (evch s))) RCloseS) (chan_close (stch s))) RDone).
  split_and!; [|reflexivity..].
  fstep_to ltac:(by eapply step_cancel).
  fstep_to ltac:(by eapply step_close_events).
  fstep_to ltac:(by eapply step_close_stream).
  reflexivity.
Qed.

(** Every item but the last is delivered, the runner then finishes while
    the forwarder still holds the last one. *)
Lemma schedule_hold_last its it fin :
  fin <> Blocks ->
  exists s, rtc (fstep cap) (fanout_init (its ++ [it]) fin) s /\
    runner s = RDone /\ fwd s = FHolding it /\ cancelled s = true /\
    closed (evch s) = true /\ closed (stch s) = true /\
    buf (evch s) = [] /\ buf (stch s) = [] /\
    got (evch s) = events_of its ++ err_events fin /\ got (stch s) = streams_of its.
Proof.
  intros Hfin.
  destruct (forward_all its [it] fin (fanout_init (its ++ [it]) fin))
    as (s1 & H01 & Hr1 & Hf1 & Hbe1 & Hbs1 & Hce1 & Hcs1 & Hge1 & Hgs1 & _); try done.
  assert (H12 : fstep cap s1 (set_fwd (set_runner s1 (RInvoke [] fin)) (FHolding it)))
    by (eapply step_handoff; eauto; unfold alive; congruence).
  destruct (runner_return fin (set_fwd (set_runner s1 (RInvoke [] fin)) (FHolding it)))
    as (s3 & H23 & Hr3 & Hf3 & Hst3 & Hb3 & Hc3 & Hg3 & _); try done.
  destruct (runner_defer s3) as (s4 & H34 & Hr4 & Hf4 & Hcan4 & He4 & Hs4);
    [done | unfold alive; by rewrite Hf3 |].
  exists s4. rewrite He4, Hs4, Hf4, Hf3, Hst3. simpl in *.
  split_and!; auto.
  - etrans; [exact H01|]. etrans; [apply rtc_once, H12|]. etrans; [exact H23|exact H34].
  - by rewrite Hg3, Hge1.
Qed.
End Schedules.

(** ** Theorems *)

Section Theorems.
Context {T D : Type} `{!Marshaler T} `{!Marshaler D} (cap : nat).

(** An invariant of the steps holds on every state reachable from a
    state where it holds. *)
Lemma Forall_prefix_of {A} (P : A -> Prop) (l1 l2 : list A) :
  l1 `prefix_of` l2 -> Forall P l2 -> Forall P l1.
Proof. intros [k ->] H. by apply Forall_app in H as [? _]. Qed.

Lemma fanout_reach_inv its fin (s : SState T) :
  Forall (fun e => is_error_event e = false) (events_of its) ->
  rtc (fstep cap) (fanout_init its fin) s ->
  phase_ok s /\ stream_flight s `prefix_of` streams_of its /\
  event_flight s `prefix_of` events_of its.
Proof.
  intros Hne Hr.
  refine (rtc_preserved (fstep cap)
            (fun s => phase_ok s /\ stream_flight s `prefix_of` streams_of its /\
                      event_flight s `prefix_of` events_of its) _ _ _ _ Hr).
  - intros s1 s2 (Hok & Hsf & Hef) Hs. split_and!.
    + by eapply fstep_phase_ok.
    + etrans; [by eapply fstep_stream_flight|done].
    + etrans; [eapply fstep_event_flight; eauto; by eapply Forall_prefix_of|done].
  - unfold phase_ok, stream_flight, event_flight. simpl.
    split_and!; try (intros [=]); reflexivity || done.
Qed.

Lemma fstep_bounded (s s' : SState T) :
  fstep cap s s' -> length (buf (evch s)) <= cap -> length (buf (stch s)) <= cap ->
  length (buf (evch s')) <= cap /\ length (buf (stch s')) <= cap.
Proof.
  intros Hs He Hst. inversion Hs; subst; simpl; auto;
    try match goal with H : chan_send _ _ _ _ |- _ => apply chan_send_bounded in H end;
    try match goal with H : chan_recv _ _ |- _ => destruct H; simpl in *; lia end;
    auto.
Qed.

(** The consumer reads each channel in order and without duplicates,
    for any sends whose events carry no error. *)
Lemma Stream_order its fin (s : SState T) :
  Forall (fun e => is_error_event e = false) (events_of its) ->
  rtc (fstep cap) (fanout_init its fin) s ->
  got (stch s) `prefix_of` streams_of its /\
  filter (fun e => is_error_event e = false) (got (evch s)) `prefix_of` events_of its.
Proof.
  intros Hne Hr. destruct (fanout_reach_inv its fin s Hne Hr) as (_ & Hs & He). split.
  - etrans; [|exact Hs]. by apply prefix_app_r.
  - etrans; [|exact He]. unfold event_flight. rewrite filter_app, <-app_assoc.
    by apply prefix_app_r.
Qed.

(** The only error event that reaches [eventCh] is the runner's. *)
Lemma error_events its fin (s : SState T) :
  Forall (fun e => is_error_event e = false) (events_of its) ->
  rtc (fstep cap) (fanout_init its fin) s ->
  Forall (fun e => is_error_event e = false \/ e ∈ err_events fin) (got (evch s)).
Proof.
  intros Hne Hr.
  assert (Hinv : error_flight fin s).
  { refine (rtc_preserved (fstep cap) (error_flight fin) _ _
              (fun a b Ha Hs => fstep_error_flight cap fin a b Hs Ha) _ Hr).
    split; [|reflexivity]. simpl. eapply Forall_impl; [exact Hne|]. auto. }
  destruct Hinv as [Hf _]. by apply Forall_app in Hf as [? _].
Qed.

Lemma good_events (os : list (Output T)) :
  Forall (fun o => good_output o = true) os ->
  Forall (fun e => is_error_event e = false) (events_of (items_of_outputs os)).
Proof.
  induction os as [|o os IH]; intros Hf; [constructor|].
  apply Forall_cons in Hf as [Ho Hf]. destruct o as [e|se|info]; simpl; auto.
  constructor; [|auto]. simpl in Ho. by destruct (is_error_event e).
Qed.

(** C13: For every graph, state and controller, [Stream] keeps order
    and never duplicates: in every interleaving of its goroutines the
    values the consumer has read from [streamCh] are a prefix of the
    state values [Invoke] produced, and the events read from [eventCh],
    the runner's error event left out, a prefix of its events. *)
Theorem Stream_invoke_order msg (r : RunnableState T D) (st : T) env s0 (s : SState T) :
  Stream msg r st env = Returns (cap, s0) -> rtc (fstep cap) s0 s ->
  got (stch s) `prefix_of` streams_of (items_of_outputs (wout (RunInvoke r st env).2)) /\
  filter (fun e => is_error_event e = false) (got (evch s)) `prefix_of`
    events_of (items_of_outputs (wout (RunInvoke r st env).2)).
Proof.
  unfold Stream, Stream_start. destruct (RunInvoke r st env) as [o w] eqn:HR. simpl.
  case_match; [done|]. intros [= _ <-] Hr.
  apply (Stream_order _ (invoke_end msg o)); [|done].
  apply good_events. unfold RunInvoke in HR.
  destruct (ag_Invoke r st _ _ _ HR) as (new & -> & Hg). done.
Qed.

(** The output channels never hold more than [BufferSize] values. *)
Theorem Stream_buffers_bounded (its : list (Item T)) fin (s : SState T) :
  rtc (fstep cap) (fanout_init its fin) s ->
  length (buf (evch s)) <= cap /\ length (buf (stch s)) <= cap.
Proof.
  intros Hr. refine (rtc_preserved (fstep cap)
    (fun s => length (buf (evch s)) <= cap /\ length (buf (stch s)) <= cap) _ _ _ _ Hr).
  - intros a b [He Hs] Hab. by apply (fstep_bounded a b).
  - simpl. lia.
Qed.

(** The forwarder can send on a closed channel once the runner has
    finished while it still holds the last item. *)
Lemma fanout_may_panic (its : list (Item T)) it fin :
  fin <> Blocks ->
  exists s, rtc (fstep cap) (fanout_init (its ++ [it]) fin) s /\ fwd s = FPanicked.
Proof.
  intros Hfin.
  destruct (schedule_hold_last cap its it fin Hfin)
    as (s & Hr & Hrun & Hf & _ & Hce & Hcs & _).
  exists (set_fwd s FPanicked). split; [|done].
  etrans; [exact Hr|]. apply rtc_once. destruct it.
  - by eapply step_fwd_panic_event.
  - by eapply step_fwd_panic_stream.
Qed.

(** The forwarder can return on [ctx.Done()] with the last item. *)
Lemma fanout_may_drop_last (its : list (Item T)) it fin :
  fin <> Blocks ->
  exists s, rtc (fstep cap) (fanout_init (its ++ [it]) fin) s /\
    runner s = RDone /\ fwd s = FReturned /\ buf (evch s) = [] /\ buf (stch s) = [] /\
    got (evch s) = events_of its ++ err_events fin /\ got (stch s) = streams_of its.
Proof.
  intros Hfin.
  destruct (schedule_hold_last cap its it fin Hfin)
    as (s & Hr & Hrun & Hf & Hc & _ & _ & Hbe & Hbs & Hge & Hgs).
  exists (set_fwd s FReturned). split_and!; try done.
  etrans; [exact Hr|]. apply rtc_once. by eapply step_fwd_drop.
Qed.

(** C11: [Stream] can panic: for every run of [Invoke] that sends a
    value and returns, some interleaving lets the runner's deferred
    [close] calls run while the forwarder still holds the last value,
    and the forwarder's [select] then picks the send on the closed
    channel. *)
Theorem Stream_may_panic msg (r : RunnableState T D) (st : T) env s0 :
  Stream msg r st env = Returns (cap, s0) ->
  invoke_end msg (RunInvoke r st env).1 <> Blocks ->
  items_of_outputs (wout (RunInvoke r st env).2) <> [] ->
  exists s, rtc (fstep cap) s0 s /\ fwd s = FPanicked.
Proof.
  unfold Stream, Stream_start. destruct (RunInvoke r st env) as [o w]. simpl.
  case_match; [done|]. intros [= _ <-] Hfin Hne.
  destruct (exists_last Hne) as (its & it & ->). by apply fanout_may_panic.
Qed.

(** C12: [Stream] can lose the last value [Invoke] sent: for every run
    of [Invoke] that returns, some interleaving lets the forwarder take
    [ctx.Done()] after the deferred [cancel()], and the run ends with both
    channels drained and closed without that value. *)
Theorem Stream_may_drop_last msg (r : RunnableState T D) (st : T) env s0 its it :
  Stream msg r st env = Returns (cap, s0) ->
  invoke_end msg (RunInvoke r st env).1 <> Blocks ->
  items_of_outputs (wout (RunInvoke r st env).2) = its ++ [it] ->
  exists s, rtc (fstep cap) s0 s /\
    runner s = RDone /\ fwd s = FReturned /\ buf (evch s) = [] /\ buf (stch s) = [] /\
    got (evch s) = events_of its ++ err_events (invoke_end msg (RunInvoke r st env).1) /\
    got (stch s) = streams_of its.
Proof.
  unfold Stream, Stream_start. destruct (RunInvoke r st env) as [o w]. simpl.
  case_match; [done|]. intros [= _ <-] Hfin ->. by apply fanout_may_drop_last.
Qed.

(** Some interleaving delivers everything: every value [Invoke]
    sent, then the error event when it failed, after which both channels
    are closed. *)
Theorem Stream_may_deliver_all (its : list (Item T)) fin :
  fin <> Blocks ->
  exists s, rtc (fstep cap) (fanout_init its fin) s /\
    runner s = RDone /\ fwd s = FReturned /\ closed (evch s) = true /\ closed (stch s) = true /\
    got (evch s) = events_of its ++ err_events fin /\ got (stch s) = streams_of its.
Proof.
  intros Hfin.
  destruct (forward_all cap its [] fin (fanout_init its fin))
    as (s1 & H01 & Hr1 & Hf1 & Hbe1 & _ & Hce1 & _ & Hge1 & Hgs1 & _);
    rewrite ?app_nil_r; try done.
  destruct (runner_return cap fin s1) as (s2 & H12 & Hr2 & Hf2 & Hst2 & _ & _ & Hg2 & _);
    try done; [unfold alive; by rewrite Hf1|].
  destruct (runner_defer cap s2) as (s3 & H23 & Hr3 & Hf3 & Hcan3 & He3 & Hs3);
    [done | unfold alive; by rewrite Hf2, Hf1 |].
  exists (set_fwd s3 FReturned). simpl. rewrite He3, Hs3, Hst2. simpl.
  split_and!; try done.
  - etrans; [exact H01|]. etrans; [exact H12|]. etrans; [exact H23|].
    apply rtc_once. eapply step_fwd_quit; [by rewrite Hf3, Hf2, Hf1|done].
  - by rewrite Hg2, Hge1.
Qed.

(** C28: When a failed run's last send is an event (as when a node
    fails: its start event is the last thing [Invoke] sends), the
    runner's error event can overtake it: while the forwarder still
    holds that event, the runner's own send on [eventCh] completes
    first, so the consumer reads the [on_chain_end] error before the
    run's last event.  (When a state value follows the last event, the
    forwarder has delivered that event before [Invoke] returns, and no
    overtaking is possible.) *)
Theorem Stream_error_overtakes (its : list (Item T)) e msg :
  exists s, rtc (fstep cap) (fanout_init (its ++ [IEvent e]) (Returned (Some msg))) s /\
    got (evch s) = events_of its ++ [chain_end_error msg; e].
Proof.
  destruct (forward_all cap its [IEvent e] (Returned (Some msg))
              (fanout_init (its ++ [IEvent e]) (Returned (Some msg))))
    as (s1 & H01 & Hr1 & Hf1 & Hbe1 & _ & Hce1 & _ & Hge1 & _); try done.
  set (s2 := set_fwd (set_runner s1 (RInvoke [] (Returned (Some msg)))) (FHolding (IEvent e))).
  set (s3 := set_runner s2 (RErrSend (chain_end_error msg))).
  set (s4 := set_runner (set_evch s3 (chan_give (evch s3) (chain_end_error msg))) RCancel).
  exists (set_fwd (set_evch s4 (chan_give (evch s4) e)) FIdle). split.
  - etrans; [exact H01|].
    assert (Ha : alive s1) by (unfold alive; by rewrite Hf1).
    fstep_to ltac:(eapply step_handoff; eauto). fold s2.
    fstep_to ltac:(by eapply step_return_err). fold s3.
    fstep_to ltac:(eapply step_err_send; [done|done|]; simpl; by apply send_handoff). fold s4.
    apply rtc_once. eapply step_fwd_event; [done|]. simpl. by apply send_handoff.
  - simpl. by rewrite Hge1, <-app_assoc.
Qed.

(** C29: A run whose [Invoke] blocks (a pause nobody resumes) never
    closes its channels: a consumer ranging over them waits forever. *)
Theorem Stream_blocked_never_closes (its : list (Item T)) (s : SState T) :
  rtc (fstep cap) (fanout_init its Blocks) s ->
  closed (evch s) = false /\ closed (stch s) = false.
Proof.
  intros Hr.
  assert (Hinv : (exists p, runner s = RInvoke p Blocks) /\ phase_ok s).
  { refine (rtc_preserved (fstep cap)
      (fun s => (exists p, runner s = RInvoke p Blocks) /\ phase_ok s) _ _ _ _ Hr).
    - intros a b [[p Hp] Hok] Hab. split; [|by eapply fstep_phase_ok].
      inversion Hab; subst; simpl; rewrite ?Hp in *; simplify_eq; eauto.
    - split; [by eexists|]. unfold phase_ok. simpl. split_and!; try (intros [=]); done. }
  destruct Hinv as [[p Hp] (_ & He & Hs & _)]. rewrite Hp in He, Hs. simpl in He, Hs.
  split; [destruct (closed (evch s))|destruct (closed (stch s))]; auto;
    [specialize (He eq_refl) | specialize (Hs eq_refl)]; lia.
Qed.
End Theorems.

(** ** Witnesses: [Stream] on scenario A (no error) and scenario C
    (routing to a missing node fails) *)

Lemma Stream_invoke_order_witness :
  let s0 := fanout_init [IStream {| Mode := StreamValues; Data := 0%Z |};
                         IStream {| Mode := StreamUpdates; Data := 55%Z |};
                         IStream {| Mode := StreamValues; Data := 55%Z |}] (Returned None) in
  got (stch s0) `prefix_of`
    streams_of (items_of_outputs (wout (@RunInvoke Z string _ _ {| graph := graphA |} 0%Z []).2)) /\
  filter (fun e => is_error_event e = false) (got (evch s0)) `prefix_of`
    events_of (items_of_outputs (wout (@RunInvoke Z string _ _ {| graph := graphA |} 0%Z []).2)).
Proof.
  intros s0. apply (Stream_invoke_order 100 (fun _ => "error") _ _ _ s0); [vm_compute; reflexivity|].
  reflexivity.
Defined.

Lemma Stream_buffers_bounded_witness :
  let s := fanout_init [IStream {| Mode := StreamValues; Data := 0%Z |}] (Returned None) in
  length (buf (evch s)) <= 100 /\ length (buf (stch s)) <= 100.
Proof. intros s. apply (Stream_buffers_bounded 100 [IStream {| Mode := StreamValues; Data := 0%Z |}] (Returned None)). reflexivity. Defined.

Lemma Stream_may_panic_witness :
  exists s, rtc (fstep 100)
              (fanout_init [IStream {| Mode := StreamValues; Data := 0%Z |};
                            IStream {| Mode := StreamUpdates; Data := 55%Z |};
                            IStream {| Mode := StreamValues; Data := 55%Z |}] (Returned None)) s /\
            fwd s = FPanicked.
Proof.
  apply (Stream_may_panic 100 (fun _ => "error") {| graph := graphA |} 0%Z []);
    [vm_compute; reflexivity | vm_compute; discriminate | vm_compute; discriminate].
Defined.

Lemma Stream_may_drop_last_witness :
  exists s, rtc (fstep 100) (fanout_init [IStream {| Mode := StreamValues; Data := 0%Z |}]
                                         (Returned (Some "error"))) s /\
    runner s = RDone /\ fwd s = FReturned /\ buf (evch s) = [] /\ buf (stch s) = [] /\
    got (evch s) = events_of ([] : list (Item Z)) ++
                   err_events (invoke_end (fun _ => "error")
                                 (@RunInvoke Z string _ _ {| graph := graphC |} 0%Z []).1) /\
    got (stch s) = streams_of ([] : list (Item Z)).
Proof.
  apply (Stream_may_drop_last 100 (fun _ => "error") {| graph := graphC |} 0%Z [] _ []
           (IStream {| Mode := StreamValues; Data := 0%Z |}));
    [vm_compute; reflexivity | vm_compute; discriminate | vm_compute; reflexivity].
Defined.

Lemma Stream_may_deliver_all_witness :
  exists s, rtc (fstep 100) (fanout_init [IStream {| Mode := StreamValues; Data := 0%Z |}]
                                         (Returned (Some "error"))) s /\
    runner s = RDone /\ fwd s = FReturned /\ closed (evch s) = true /\ closed (stch s) = true /\
    got (evch s) = events_of [IStream {| Mode := StreamValues; Data := 0%Z |}] ++
                   err_events (Returned (Some "error")) /\
    got (stch s) = streams_of [IStream {| Mode := StreamValues; Data := 0%Z |}].
Proof. apply Stream_may_deliver_all. discriminate. Defined.

Lemma Stream_blocked_never_closes_witness :
  @Stream Z string _ _ (fun _ => "error") {| graph := graphD |} 0%Z [] =
    Returns (100, fanout_init [IStream {| Mode := StreamValues; Data := 0%Z |}] Blocks) /\
  closed (evch (fanout_init [IStream {| Mode := StreamValues; Data := 0%Z |}] Blocks)) = false /\
  closed (stch (fanout_init [IStream {| Mode := StreamValues; Data := 0%Z |}] Blocks)) = false.
Proof.
  split; [vm_compute; reflexivity|].
  apply (Stream_blocked_never_closes 100 [IStream {| Mode := StreamValues; Data := 0%Z |}]).
  reflexivity.
Defined.
