(* ===== verification/Examples.v ===== *)
(** * Examples: the programs of src/examples/basic and src/examples/graph

    Both programs read [OPENAI_API_KEY], build OpenAI agents and
    configure them; the graph example then builds a two-node
    [StateGraph] over its own [State] (the messages so far, a result
    and a poem), streams a run of it and logs what arrives.

    - [startup] is the beginning of both [main]s (the [.env] warning,
      the zap configuration and its build, [os.Getenv]) over the class
      [ExampleEnv] of those library calls; [basic_program] and
      [graph_program] compose it with the agent set-up.
    - [basic_main] and [graph_agents] are the agent set-up of the two
      [main]s ([NewOpenAIAgent], [AddTool], [Configure]; the errors
      [Configure] returns are ignored by the code, as here).
    - [calculate] and [write_poem] are the two node closures: they call
      the captured agent's [ProcessMessage] through the [Agent]
      interface (any instance) on the completion it gets
      ([StreamRun]) and return the agent after the call, the new state
      and the node's error; [responses[len(responses)-1]] on an empty
      reply is a panic ([Panics]).
    - [example_graph] is the builder sequence of lines 67-146 for any
      step functions; the closures become step functions once their
      agent and completion are fixed, so the theorems about the run take
      them as parameters and the node theorems say what the closures
      return.
    - [graph_main_stream] is [Compile] and [Stream] (lines 148-161),
      [graph_main_done] the final wait (lines 211-219).
    - [consumer_step] and [consume] are the consumer goroutine of lines
      164-209 over the sequence of receives it makes; [Fanout] supplies
      the interleavings that decide which values it has received, and
      [interleave] the orders its [select] can take them in.  The stream data of
      this program always has dynamic type [State], so the
      [core.Message] type assertion of the [StreamMessages] case never
      succeeds. *)

From S2P Require Import Prelude Stream Interrupt Graph Tool Calculator Agent Engine Fanout.
From Stdlib Require Import Floats.

(** ** Data *)

(** [core.RoleUser] (declared outside src/). *)
Definition RoleUser : string := "user".

(** The graph example's [State]. *)
Record State := {
  Messages : list Message;
  Result : float;
  Poem : string
}.

Definition set_messages (st : State) (ms : list Message) : State :=
  {| Messages := ms; Result := Result st; Poem := Poem st |}.
Definition set_result (st : State) (r : float) : State :=
  {| Messages := Messages st; Result := r; Poem := Poem st |}.
Definition set_poem (st : State) (p : string) : State :=
  {| Messages := Messages st; Result := Result st; Poem := p |}.

(** The state [main] streams from: [State{Messages: []core.Message{}}]. *)
Definition initial_state : State := {| Messages := []; Result := 0%float; Poem := "" |}.

(** ** Agent set-up *)

Definition math_expert_config : Obj :=
  [("model", VString "gpt-4o-mini");
   ("system_message", VString ("You are a math expert. Use the calculator tool to perform calculations. " +:+
                               "Always explain your reasoning and show your work."))].

Definition poet_config : Obj :=
  [("model", VString "gpt-4o-mini");
   ("system_message", VString ("You are a creative poet. When given a number, create a beautiful and " +:+
                               "meaningful poem that incorporates that number in a creative way."))].

(** How the two [main]s end before their agents do anything:
    [logger.Fatal] on a missing key, or with the configured agents. *)
Inductive MainExit :=
| MainFatal (msg : string)
| MainAgents (agents : list OpenAIAgent).

Section Setup.
Context `{!ParseFloat}.

(** The math expert both examples build (lines 50-57 of the graph
    example, 50-54 of the basic one, with their own configurations). *)
Definition new_math_expert (cfg : Obj) : OpenAIAgent :=
  (Configure (AddTool (NewOpenAIAgent "math_expert") (calculator_tool NewCalculator)) cfg).1.

(** [main] of src/examples/basic, lines 39-59. *)
Definition basic_main (apiKey : string) : MainExit :=
  if bool_decide (apiKey = "") then MainFatal "OPENAI_API_KEY environment variable is required"
  else
    let mathExpert := new_math_expert [("model", VString "gpt-4o-mini")] in
    let assistant := (Configure (NewOpenAIAgent "assistant") [("model", VString "gpt-3.5-turbo")]).1 in
    MainAgents [mathExpert; assistant].

(** Lines 44-64 of the graph example. *)
Definition graph_agents (apiKey : string) : MainExit :=
  if bool_decide (apiKey = "") then MainFatal "OPENAI_API_KEY environment variable is required"
  else MainAgents [new_math_expert math_expert_config;
                   (Configure (NewOpenAIAgent "poet") poet_config).1].
End Setup.

(** ** Start-up *)

(** The [zap.Config] fields the two [main]s set (lines 28-33 of the
    graph example); the other fields keep the values of
    [zap.NewDevelopmentConfig] and are not modelled. *)
Inductive LevelEncoder := LowercaseLevelEncoder | CapitalLevelEncoder | CapitalColorLevelEncoder.
Inductive TimeEncoder := ISO8601TimeEncoder | EpochTimeEncoder.
Inductive ZapLevel := DebugLevel | InfoLevel | WarnLevel | ErrorLevel.

Record LoggerConfig := {
  EncodeLevel : LevelEncoder;
  TimeKey : string;
  EncodeTime : TimeEncoder;
  Level : ZapLevel;
  Development : bool
}.

(** What the start-up of both [main]s asks of its libraries: the error
    of [dotenv.Load()], the development configuration of zap, the error
    of [config.Build()] for a configuration, and [os.Getenv]. *)
Class ExampleEnv := {
  dotenv_load : option string;
  NewDevelopmentConfig : LoggerConfig;
  config_build : LoggerConfig -> option string;
  getenv : string -> string
}.

(** Lines 28-31 of the basic example. *)
Definition basic_logger_config (config : LoggerConfig) : LoggerConfig :=
  {| EncodeLevel := CapitalColorLevelEncoder; TimeKey := "timestamp";
     EncodeTime := ISO8601TimeEncoder; Level := Level config; Development := Development config |}.

(** Lines 28-33 of the graph example. *)
Definition graph_logger_config (config : LoggerConfig) : LoggerConfig :=
  {| EncodeLevel := CapitalColorLevelEncoder; TimeKey := "timestamp";
     EncodeTime := ISO8601TimeEncoder; Level := DebugLevel; Development := true |}.

(** The warning [log.Printf] writes when [.env] cannot be loaded. *)
Definition dotenv_warning (r : option string) : list string :=
  match r with
  | Some err => ["Warning: .env file not found: " +:+ err]
  | None => []
  end.

Section Startup.
Context `{!ExampleEnv}.

(** The first lines of both [main]s: load [.env] (a failure is only
    logged), build the logger from the adjusted development
    configuration ([log.Fatalf] on an error), read the API key.  The
    result is the log written and either the fatal message or the key. *)
Definition startup (adjust : LoggerConfig -> LoggerConfig) : list string * res string :=
  let logs := dotenv_warning dotenv_load in
  match config_build (adjust NewDevelopmentConfig) with
  | Some err => (logs, Err ("Failed to create logger: " +:+ err))
  | None => (logs, Ok (getenv "OPENAI_API_KEY"))
  end.

Context `{!ParseFloat}.

(** [main] of src/examples/basic up to its end: the start-up, then
    [basic_main] on the key read. *)
Definition basic_program : list string * MainExit :=
  let '(logs, r) := startup basic_logger_config in
  (logs, match r with Err msg => MainFatal msg | Ok apiKey => basic_main apiKey end).

(** [main] of src/examples/graph up to the agents it builds. *)
Definition graph_program : list string * MainExit :=
  let '(logs, r) := startup graph_logger_config in
  (logs, match r with Err msg => MainFatal msg | Ok apiKey => graph_agents apiKey end).
End Startup.

(** ** The nodes *)

Definition calculate_message : Message :=
  {| Role := RoleUser;
     Content := "Calculate the sum of squares from 1 to 5 (1² + 2² + 3² + 4² + 5²)" |}.

Section Nodes.
Context `{!Sprint} {A : Type} `{!Agent A} {D : Type}.

(** [fmt.Sprintf("... %v", state.Result)]. *)
Definition poem_message (st : State) : Message :=
  {| Role := RoleUser;
     Content := "Create a short, beautiful poem that incorporates the number " +:+
                sprint (VFloat64 (Result st)) |}.

(** The ["calculate"] closure, lines 80-106. *)
Definition calculate (mathExpert : A) (completion : StreamRun) (state : State)
  : go_result (A * (State * option (GoError D))) :=
  let msg := calculate_message in
  let state := set_messages state (Messages state ++ [msg]) in
  match agent_ProcessMessage mathExpert msg completion with
  | Panics => Panics
  | Returns (a, Err e) => Returns (a, (state, Some (Wrapped "math expert error: " (ErrorString e))))
  | Returns (a, Ok responses) =>
      let state := set_messages state (Messages state ++ responses) in
      match last responses with
      | None => Panics
      | Some lastMsg =>
          Returns (a, (if bool_decide (Role lastMsg = RoleAssistant) then set_result state 55%float
                       else state, None))
      end
  end.

(** The ["write_poem"] closure, lines 108-132. *)
Definition write_poem (poet : A) (completion : StreamRun) (state : State)
  : go_result (A * (State * option (GoError D))) :=
  let msg := poem_message state in
  let state := set_messages state (Messages state ++ [msg]) in
  match agent_ProcessMessage poet msg completion with
  | Panics => Panics
  | Returns (a, Err e) => Returns (a, (state, Some (Wrapped "poet error: " (ErrorString e))))
  | Returns (a, Ok responses) =>
      let state := set_messages state (Messages state ++ responses) in
      match last responses with
      | None => Panics
      | Some lastMsg =>
          Returns (a, (if bool_decide (Role lastMsg = RoleAssistant) then set_poem state (Content lastMsg)
                       else state, None))
      end
  end.
End Nodes.

(** ** The graph *)

Definition example_stream_config : StreamConfig :=
  {| Modes := [StreamValues; StreamMessages; StreamDebug]; BufferSize := 100 |}.

Section Graph.
Context {D : Type}.

(** Lines 67-146: the builder calls, in order. *)
Definition example_graph (calc poem : State -> State * option (GoError D)) : StateGraph State D :=
  let g := SetStreamConfig NewStateGraph example_stream_config in
  let g := AddNode g "calculate" calc in
  let g := AddNode g "write_poem" poem in
  let g := AddConditionalEdges g START (fun _ => Ok ["calculate"]) None in
  let g := AddConditionalEdges g "calculate" (fun _ => Ok ["write_poem"]) None in
  let g := AddConditionalEdges g "write_poem" (fun _ => Ok [END]) None in
  SetEntryPoint g "calculate".
End Graph.

(** ** The consumer *)

(** What the consumer logs. *)
Inductive LogLine :=
| LogEvent (t : EventType) (name : string) (meta : Metadata)
| LogResult (r : float)
| LogPoem (p : string)
| LogMessage (role content : string).

(** One receive of the [select]: a value, or [ok = false] on a closed
    channel ([ctx.Done()] of [context.Background()] never fires). *)
Inductive Recv :=
| RecvEvent (e : option Event)
| RecvStream (se : option (StreamEvent State)).

(** [evt.Type == core.EventChainEnd && evt.Name == "LangGraph"]. *)
Definition is_run_end (evt : Event) : bool :=
  bool_decide (EvType evt = EventChainEnd) && bool_decide (Stream.Name evt = "LangGraph").

(** The body of the consumer's [for] loop for one receive: what it logs
    and whether it returns. *)
Definition consumer_step (r : Recv) : list LogLine * bool :=
  match r with
  | RecvEvent None | RecvStream None => ([], true)
  | RecvEvent (Some evt) =>
      ([LogEvent (EvType evt) (Stream.Name evt) (Meta evt)],
       is_run_end evt)
  | RecvStream (Some stream) =>
      (match Mode stream with
       | StreamValues =>
           let state := Data stream in
           (if PrimFloat.eqb (Result state) 0%float then [] else [LogResult (Result state)]) ++
           (if bool_decide (Poem state = "") then [] else [LogPoem (Poem state)])
       | _ => []   (* [stream.Data.(core.Message)] fails: the data is a [State] *)
       end, false)
  end.

(** The loop over a sequence of receives: the lines logged and whether
    it returned. *)
Fixpoint consume (rs : list Recv) : list LogLine * bool :=
  match rs with
  | [] => ([], false)
  | r :: rs' =>
      let '(l, stop) := consumer_step r in
      if stop then (l, true) else let '(l', b) := consume rs' in (l ++ l', b)
  end.

(** ** The rest of [main] *)

(** How the graph example's [main] goes on after building its graph: a
    fatal log, a panic of [make] inside [Stream], or [Stream]'s
    goroutines started with the channels' capacity.  [Stream] never
    returns an error, so ["Failed to start streaming"] is unreachable. *)
Inductive GraphMainExit :=
| GraphFatal (msg : string)
| GraphPanics
| GraphStreaming (cap : nat) (s0 : SState State).

Section MainStream.
Context {D : Type} `{!Marshaler State} `{!Marshaler D}.

(** Lines 148-161: [Compile], then [Stream] from the initial state (no
    controller answers: the graph has no breakpoint). *)
Definition graph_main_stream (msg : InvokeError D -> string)
           (calc poem : State -> State * option (GoError D)) : GraphMainExit :=
  match Compile (example_graph calc poem) with
  | Err _ => GraphFatal "Failed to compile graph"
  | Ok runnable =>
      match Stream msg runnable initial_state [] with
      | Panics => GraphPanics
      | Returns (cap, s0) => GraphStreaming cap s0
      end
  end.
End MainStream.

(** Lines 211-219: [main] waits for [done], which the consumer closes
    when it returns; [context.Background()] is never done.  [None]: it
    is still waiting. *)
Definition graph_main_done (rs : list Recv) : option string :=
  if (consume rs).2 then Some "Graph execution completed" else None.

(** ** Inputs for the concrete runs *)

Definition no_args : Unmarshaler Obj := fixed_unmarshal [].
Definition state_json : Marshaler State := fun _ => Ok "{}".
Definition unit_json : Marshaler unit := fun _ => Ok "null".

Definition answered (content : string) : StreamRun :=
  {| chunks := []; stream_err := None; first_choice := Some content |}.

Definition model_only (id : string) : OpenAIAgent :=
  {| agent_id := id; config := [("model", VString "gpt-4o-mini")]; tools := []; history := [] |}.


Definition calc_step (st : State) : State * option (GoError unit) := (set_result st 55%float, None).
Definition poem_step (st : State) : State * option (GoError unit) := (set_poem st "Five and fifty", None).
Definition calc_fail (st : State) : State * option (GoError unit) :=
  (set_messages st [calculate_message],
   Some (Wrapped "math expert error: " (ErrorString "stream error: 429 Too Many Requests"))).

(** ** Lemmas *)

Section RunLemmas.
Context {D : Type} `{!Marshaler State} `{!Marshaler D}.

(** The values a run of the example graph sends when both nodes step
    normally: the initial state, the run and node events (debug mode),
    no update (the mode is off) and no message (nothing emits one), the
    final state and the run end event. *)
Definition example_trace (st st2 : State) : list (Output State) :=
  [OutStream {| Mode := StreamValues; Data := st |};
   OutEvent (run_event EventChainStart);
   OutEvent (node_event EventChainStart "calculate" 0);
   OutEvent (node_event EventChainEnd "calculate" 0);
   OutEvent (node_event EventChainStart "write_poem" 1);
   OutEvent (node_event EventChainEnd "write_poem" 1);
   OutStream {| Mode := StreamValues; Data := st2 |};
   OutEvent (run_event EventChainEnd)].

Lemma example_run (calc poem : State -> State * option (GoError D)) st st1 st2 env :
  calc st = (st1, None) -> poem st1 = (st2, None) ->
  RunInvoke {| graph := example_graph calc poem |} st env =
    (Ret st2, {| wim := NewInterruptManager; wenv := env; wout := example_trace st st2 |}).
Proof.
  intros Hc Hp. rewrite (RunInvoke_path _ st [("calculate", st1); ("write_poem", st2)] st2 env).
  - reflexivity.
  - eapply Path_cons; [discriminate| |eapply Path_cons; [discriminate| |apply Path_nil]];
      unfold node_step; simpl; simplify_map_eq; simpl; [by rewrite Hc|by rewrite Hp].
  - simpl. lia.
  - repeat constructor.
Qed.
Lemma example_run_calc_error (calc poem : State -> State * option (GoError D)) st st1 e env :
  calc st = (st1, Some e) -> IsInterruptError e = false ->
  RunInvoke {| graph := example_graph calc poem |} st env =
    (Throw (ErrInNode "calculate" e),
     {| wim := NewInterruptManager; wenv := env;
        wout := [OutStream {| Mode := StreamValues; Data := st |};
                 OutEvent (run_event EventChainStart);
                 OutEvent (node_event EventChainStart "calculate" 0)] |}).
Proof.
  intros Hc Hi. apply RunInvoke_first_throw. simpl.
  unfold iteration. rewrite !bool_decide_false by (simpl; lia || discriminate).
  unfold breakpoint_check. autorewrite with engine_rw. simpl.
  unfold run_node. simpl. simplify_map_eq.
  replace (HasBreakpoint NewInterruptManager "calculate") with false by reflexivity.
  autorewrite with engine_rw. rewrite Hc, Hi. reflexivity.
Qed.
Lemma graph_main_stream_run msg (calc poem : State -> State * option (GoError D)) o w :
  RunInvoke {| graph := example_graph calc poem |} initial_state [] = (o, w) ->
  graph_main_stream msg calc poem =
    GraphStreaming 100 (fanout_init (items_of_outputs (wout w)) (invoke_end msg o)).
Proof.
  intros HR. unfold graph_main_stream, Compile. rewrite bool_decide_false by (simpl; discriminate).
  unfold Stream. by rewrite HR.
Qed.
End RunLemmas.

Section ConsumerLemmas.

(** A consumer that returned on values it received took the chain-end
    event of the run. *)
Lemma consume_returned rs :
  Forall (fun r => r <> RecvEvent None /\ r <> RecvStream None) rs -> (consume rs).2 = true ->
  exists e, RecvEvent (Some e) ∈ rs /\ is_run_end e = true.
Proof.
  induction rs as [|r rs IH]; simpl; [done|]. intros [[Hn1 Hn2] Hf]%Forall_cons.
  destruct (consume rs) as [l b] eqn:Hc. simpl in IH.
  destruct r as [[e|]|[se|]]; try congruence; simpl.
  - destruct (is_run_end e) eqn:He; simpl; [intros _; exists e; split; [left|done]|].
    intros Hb. destruct (IH Hf Hb) as (e' & ? & ?). exists e'. split; [by right|done].
  - intros Hb. destruct (IH Hf Hb) as (e' & ? & ?). exists e'. split; [by right|done].
Qed.

Lemma consume_interleave_run_end evs sts rs :
  interleave (map (fun e => RecvEvent (Some e)) evs) (map (fun se => RecvStream (Some se)) sts) rs ->
  (consume rs).2 = true -> exists e, e ∈ evs /\ is_run_end e = true.
Proof.
  intros Hi Hc. destruct (consume_returned rs) as (e & He & Hs); [|done|].
  - eapply interleave_Forall; [exact Hi| |]; apply Forall_map, Forall_forall; intros; split; discriminate.
  - exists e. split; [|done].
    destruct (interleave_elem_of _ _ _ _ Hi He) as [Hin|Hin];
      apply list_elem_of_In, in_map_iff in Hin as (x & Hx & Hin); [|discriminate].
    injection Hx as ->. by apply list_elem_of_In.
Qed.
End ConsumerLemmas.

(** ** Theorems *)

Section NodeTheorems.
Context `{!Sprint} {A : Type} `{!Agent A} `{!SingleReply A} {D : Type}.

(** C40: Against the [Agent] interface: once the agents have answered,
    the closures never panic at [responses[len(responses)-1]], because
    a successful [ProcessMessage] answers with one assistant message;
    [calculate] appends its prompt and the reply and sets [Result] to 55
    whatever the reply says, [write_poem] appends its prompt (which
    prints [Result]) and the reply and takes the reply's text as the
    poem. *)
Theorem example_nodes_return (mathExpert poet : A) c1 c2 st a1 a2 r1 r2 :
  agent_ProcessMessage mathExpert calculate_message c1 = Returns (a1, Ok r1) ->
  agent_ProcessMessage poet (poem_message st) c2 = Returns (a2, Ok r2) ->
  calculate (D:=D) mathExpert c1 st =
    Returns (a1, ({| Messages := Messages st ++ calculate_message :: r1; Result := 55%float;
                     Poem := Poem st |}, None)) /\
  exists reply, r2 = [{| Role := RoleAssistant; Content := reply |}] /\
    write_poem (D:=D) poet c2 st =
      Returns (a2, ({| Messages := Messages st ++ [poem_message st; {| Role := RoleAssistant; Content := reply |}];
                       Result := Result st; Poem := reply |}, None)).
Proof.
  intros H1 H2. destruct (single_reply _ _ _ _ _ H1) as (c & ->).
  destruct (single_reply _ _ _ _ _ H2) as (reply & ->). split.
  - unfold calculate. rewrite H1. simpl. by rewrite <- app_assoc.
  - exists reply. split; [done|]. unfold write_poem. rewrite H2. simpl. by rewrite <- app_assoc.
Qed.
End NodeTheorems.

Section RunTheorems.
Context {D : Type} `{!Marshaler State} `{!Marshaler D}.

(** C26: A run of the example graph whose two nodes step normally
    executes [calculate] then [write_poem] and returns the poem node's
    state; it sends exactly the initial and final states and the six
    debug events: no message although [StreamMessages] is configured
    (nothing emits one), no update, and the [START] edge is never used. *)
Theorem example_graph_run (calc poem : State -> State * option (GoError D)) st st1 st2 env :
  calc st = (st1, None) -> poem st1 = (st2, None) ->
  RunInvoke {| graph := example_graph calc poem |} st env =
    (Ret st2, {| wim := NewInterruptManager; wenv := env; wout := example_trace st st2 |}).
Proof. apply example_run. Qed.

(** C27: The example's consumer can stop before the results: in some
    interleaving of [Stream]'s goroutines the consumer receives the six
    events in order, returns at the [LangGraph] chain-end event, and the
    initial and final states are left unread in the closed [streamCh];
    neither the result nor the poem is ever logged. *)
Theorem example_consumer_misses_values msg (calc poem : State -> State * option (GoError D)) st st1 st2 :
  calc st = (st1, None) -> poem st1 = (st2, None) ->
  exists s0 s, Stream msg {| graph := example_graph calc poem |} st [] = Returns (100, s0) /\
    rtc (fstep 100) s0 s /\ runner s = RDone /\ closed (evch s) = true /\ closed (stch s) = true /\
    got (stch s) = [] /\
    buf (stch s) = [{| Mode := StreamValues; Data := st |}; {| Mode := StreamValues; Data := st2 |}] /\
    consume (map (fun e => RecvEvent (Some e)) (got (evch s))) =
      (map (fun e => LogEvent (EvType e) (Stream.Name e) (Meta e)) (got (evch s)), true).
Proof.
  intros Hc Hp. set (its := items_of_outputs (example_trace st st2)).
  destruct (forward_streams_buffered 100 its [] (Returned None) (fanout_init its (Returned None)))
    as (s1 & H01 & Hr1 & Hf1 & Hbe1 & Hbs1 & Hce1 & Hcs1 & Hge1 & Hgs1 & _);
    rewrite ?app_nil_r; try done; [simpl; lia|].
  destruct (runner_return 100 (Returned None) s1) as (s2 & H12 & Hr2 & Hf2 & Hst2 & _ & _ & Hg2 & _);
    try done; [unfold alive; by rewrite Hf1|].
  destruct (runner_defer 100 s2) as (s3 & H23 & Hr3 & Hf3 & Hcan3 & He3 & Hs3);
    [done | unfold alive; by rewrite Hf2, Hf1 |].
  exists (fanout_init its (Returned None)), s3. split_and!.
  - unfold Stream. by rewrite (example_run calc poem st st1 st2 [] Hc Hp).
  - etrans; [exact H01|]. etrans; [exact H12|exact H23].
  - done.
  - by rewrite He3.
  - by rewrite Hs3.
  - rewrite Hs3, Hst2. simpl. by rewrite Hgs1.
  - rewrite Hs3, Hst2. simpl. by rewrite Hbs1.
  - rewrite He3. simpl. rewrite Hg2, Hge1. reflexivity.
Qed.

(** C15: The consumer can also stop before the events: its [select]
    returns on the first closed channel it sees, and the runner closes
    [streamCh] while [eventCh] may still buffer events.  In some
    interleaving of a normal run the consumer receives both state values
    and then the closed [streamCh], and returns with every event, the
    [LangGraph] chain end included, unread in [eventCh]: it logs no
    event at all. *)
Theorem example_consumer_misses_events msg (calc poem : State -> State * option (GoError D)) st st1 st2 :
  calc st = (st1, None) -> poem st1 = (st2, None) ->
  exists s0 s, Stream msg {| graph := example_graph calc poem |} st [] = Returns (100, s0) /\
    rtc (fstep 100) s0 s /\ runner s = RDone /\ closed (evch s) = true /\ closed (stch s) = true /\
    got (evch s) = [] /\ run_event EventChainEnd ∈ buf (evch s) /\
    buf (stch s) = [] /\
    got (stch s) = [{| Mode := StreamValues; Data := st |}; {| Mode := StreamValues; Data := st2 |}] /\
    (consume (map (fun se => RecvStream (Some se)) (got (stch s)) ++ [RecvStream None])).2 = true /\
    (forall t n m, LogEvent t n m ∉
       (consume (map (fun se => RecvStream (Some se)) (got (stch s)) ++ [RecvStream None])).1).
Proof.
  intros Hc Hp. set (its := items_of_outputs (example_trace st st2)).
  destruct (forward_events_buffered 100 its [] (Returned None) (fanout_init its (Returned None)))
    as (s1 & H01 & Hr1 & Hf1 & Hbe1 & Hbs1 & Hce1 & Hcs1 & Hge1 & Hgs1 & _);
    rewrite ?app_nil_r; try done; [simpl; lia|].
  assert (H12 : fstep 100 s1 (set_runner s1 RCancel)) by (apply step_return_ok; [unfold alive; by rewrite Hf1|done]).
  destruct (runner_defer 100 (set_runner s1 RCancel)) as (s3 & H23 & Hr3 & Hf3 & Hcan3 & He3 & Hs3);
    [done | unfold alive; simpl; by rewrite Hf1 |].
  exists (fanout_init its (Returned None)), s3.
  assert (Hgot : got (stch s3) = [{| Mode := StreamValues; Data := st |}; {| Mode := StreamValues; Data := st2 |}]).
  { rewrite Hs3. simpl. by rewrite Hgs1. }
  rewrite Hgot. split_and!.
  - unfold Stream. by rewrite (example_run calc poem st st1 st2 [] Hc Hp).
  - etrans; [exact H01|]. eapply rtc_l; [exact H12|exact H23].
  - done.
  - by rewrite He3.
  - by rewrite Hs3.
  - rewrite He3. simpl. by rewrite Hge1.
  - rewrite He3. simpl. rewrite Hbe1. simpl. set_solver.
  - rewrite Hs3. simpl. by rewrite Hbs1.
  - done.
  - simpl. by repeat case_match.
  - intros t n m. simpl. repeat case_match; simpl; set_solver.
Qed.

(** C33: The consumer's check for the end of the run never fires
    early: in every interleaving of [Stream]'s goroutines and every order
    in which the consumer's [select] takes the received values, if it
    returns because of a value it received (its other way out is a
    closed channel, see C15), it has received every event of the run, in
    order, and the one it returned on is the run's final [LangGraph]
    chain end. *)
Theorem example_consumer_returns_after_run msg (calc poem : State -> State * option (GoError D))
        st1 st2 s0 s rs :
  calc initial_state = (st1, None) -> poem st1 = (st2, None) ->
  graph_main_stream msg calc poem = GraphStreaming 100 s0 -> rtc (fstep 100) s0 s ->
  interleave (map (fun e => RecvEvent (Some e)) (got (evch s)))
             (map (fun se => RecvStream (Some se)) (got (stch s))) rs ->
  (consume rs).2 = true ->
  got (evch s) = events_of (items_of_outputs (example_trace initial_state st2)).
Proof.
  intros Hc Hp Hm Hr Hi Hcons.
  rewrite (graph_main_stream_run msg calc poem _ _ (example_run calc poem _ _ _ [] Hc Hp)) in Hm.
  injection Hm as <-. set (its := items_of_outputs (example_trace initial_state st2)) in *.
  assert (Hne : Forall (fun e => is_error_event e = false) (events_of its)) by repeat constructor.
  destruct (Stream_order 100 its _ s Hne Hr) as [_ Hpre].
  rewrite filter_Forall_id in Hpre.
  2: { eapply Forall_impl; [exact (error_events 100 its _ s Hne Hr)|]. simpl. set_solver. }
  destruct (consume_interleave_run_end _ _ _ Hi Hcons) as (e & He & Hend).
  apply (prefix_snoc_marked is_run_end _
           [run_event EventChainStart; node_event EventChainStart "calculate" 0;
            node_event EventChainEnd "calculate" 0; node_event EventChainStart "write_poem" 1;
            node_event EventChainEnd "write_poem" 1] (run_event EventChainEnd) e);
    [exact Hpre|repeat constructor|done|done].
Qed.

(** C37: When the math expert fails, [calculate] returns its error and
    the run fails with the node error: [write_poem] never runs.  No
    event of the run ends it, so a consumer that returns because of a
    value it received (rather than on a closed channel) did so on the
    runner's error event carrying that error's text; the run's own
    events it received are at most the run start and the start of
    [calculate]. *)
Theorem example_math_expert_error msg (calc poem : State -> State * option (GoError D))
        st1 e s0 s rs :
  calc initial_state = (st1, Some e) -> IsInterruptError e = false ->
  graph_main_stream msg calc poem = GraphStreaming 100 s0 -> rtc (fstep 100) s0 s ->
  interleave (map (fun e => RecvEvent (Some e)) (got (evch s)))
             (map (fun se => RecvStream (Some se)) (got (stch s))) rs ->
  (consume rs).2 = true ->
  (RunInvoke {| graph := example_graph calc poem |} initial_state []).1 = Throw (ErrInNode "calculate" e) /\
  chain_end_error (msg (ErrInNode "calculate" e)) ∈ got (evch s) /\
  filter (fun e => is_error_event e = false) (got (evch s)) `prefix_of`
    [run_event EventChainStart; node_event EventChainStart "calculate" 0].
Proof.
  intros Hc Hie Hm Hr Hi Hcons. pose proof (example_run_calc_error calc poem _ _ _ [] Hc Hie) as HR.
  rewrite (graph_main_stream_run msg calc poem _ _ HR) in Hm. injection Hm as <-.
  set (its := [IStream {| Mode := StreamValues; Data := initial_state |};
              IEvent (run_event EventChainStart); IEvent (node_event EventChainStart "calculate" 0)])
    in *.
  assert (Hne : Forall (fun e => is_error_event e = false) (events_of its)) by repeat constructor.
  destruct (Stream_order 100 its _ s Hne Hr) as [_ Hpre].
  split_and!; [by rewrite HR| |exact Hpre].
  destruct (consume_interleave_run_end _ _ _ Hi Hcons) as (e' & He' & Hend).
  pose proof (error_events 100 its _ s Hne Hr) as Herr. rewrite Forall_forall in Herr.
  destruct (Herr e' He') as [Hok|Hin].
  - assert (e' ∈ [run_event EventChainStart; node_event EventChainStart "calculate" 0]) as Hin.
    { eapply elem_of_prefix; [|exact Hpre]. apply list_elem_of_filter. by split. }
    exfalso. revert Hend. apply elem_of_cons in Hin as [->|Hin]; [done|].
    by apply list_elem_of_singleton in Hin as ->.
  - simpl in Hin. apply list_elem_of_singleton in Hin as ->. done.
Qed.
End RunTheorems.

Section SetupTheorems.
Context `{!ParseFloat}.

(** With an API key, the examples build their agents as the code
    says: the math expert holds exactly the calculator tool, and every
    agent's configuration holds only its model.  The system messages the
    graph example passes to [Configure] are dropped, so they never reach
    the model. *)
Theorem example_agents apiKey :
  apiKey <> "" ->
  graph_agents apiKey = MainAgents
    [{| agent_id := "math_expert"; config := [("model", VString "gpt-4o-mini")];
        tools := [calculator_tool NewCalculator]; history := [] |};
     {| agent_id := "poet"; config := [("model", VString "gpt-4o-mini")]; tools := []; history := [] |}] /\
  basic_main apiKey = MainAgents
    [{| agent_id := "math_expert"; config := [("model", VString "gpt-4o-mini")];
        tools := [calculator_tool NewCalculator]; history := [] |};
     {| agent_id := "assistant"; config := [("model", VString "gpt-3.5-turbo")]; tools := []; history := [] |}].
Proof.
  intros Hk. unfold graph_agents, basic_main. rewrite !bool_decide_false by done. split; reflexivity.
Qed.

(** A missing or unreadable [.env] is only a warning: the start-up
    logs the error and ends as it would with the file loaded. *)
Theorem startup_dotenv_only_warns `{!ExampleEnv} adjust d :
  @startup {| dotenv_load := d; NewDevelopmentConfig := NewDevelopmentConfig;
              config_build := config_build; getenv := getenv |} adjust =
  (dotenv_warning d, (startup adjust).2).
Proof. unfold startup. simpl. by destruct config_build. Qed.

Section Programs.
Context `{!ExampleEnv}.

(** A logger that cannot be built ends each program with [log.Fatalf]
    before the API key is read; a logger that builds hands the key to
    the agent set-up. *)
Theorem basic_program_cases :
  basic_program = (dotenv_warning dotenv_load,
    match config_build (basic_logger_config NewDevelopmentConfig) with
    | Some err => MainFatal ("Failed to create logger: " +:+ err)
    | None => basic_main (getenv "OPENAI_API_KEY")
    end).
Proof. unfold basic_program, startup. by destruct config_build. Qed.

Theorem graph_program_cases :
  graph_program = (dotenv_warning dotenv_load,
    match config_build (graph_logger_config NewDevelopmentConfig) with
    | Some err => MainFatal ("Failed to create logger: " +:+ err)
    | None => graph_agents (getenv "OPENAI_API_KEY")
    end).
Proof. unfold graph_program, startup. by destruct config_build. Qed.

(** Without a key neither program gets to build its agents: it stops
    at [logger.Fatal], or earlier at [log.Fatalf]. *)
Theorem program_no_key agents :
  getenv "OPENAI_API_KEY" = "" ->
  (basic_program).2 <> MainAgents agents /\ (graph_program).2 <> MainAgents agents.
Proof.
  intros Hk. rewrite basic_program_cases, graph_program_cases. simpl.
  unfold basic_main, graph_agents. rewrite Hk, bool_decide_true by done.
  split; destruct config_build; discriminate.
Qed.
End Programs.
End SetupTheorems.

(** ** Witnesses *)

Section Witnesses.
#[local] Existing Instances empty_marshal no_args sprint_type state_json unit_json parse_integral.

Lemma example_nodes_return_witness :
  calculate (D:=unit) (model_only "math_expert") (answered "55") initial_state =
    Returns ({| agent_id := "math_expert"; config := [("model", VString "gpt-4o-mini")]; tools := [];
                history := [UserMessage (Content calculate_message)] |},
             ({| Messages := [] ++ calculate_message :: [{| Role := RoleAssistant; Content := "55" |}];
                 Result := 55%float; Poem := "" |}, None)) /\
  exists reply, [{| Role := RoleAssistant; Content := "Five and fifty" |}] =
                [{| Role := RoleAssistant; Content := reply |}] /\
    write_poem (D:=unit) (model_only "poet") (answered "Five and fifty") initial_state =
      Returns ({| agent_id := "poet"; config := [("model", VString "gpt-4o-mini")]; tools := [];
                  history := [UserMessage (Content (poem_message initial_state))] |},
               ({| Messages := [] ++ [poem_message initial_state; {| Role := RoleAssistant; Content := reply |}];
                   Result := 0%float; Poem := reply |}, None)).
Proof. eapply example_nodes_return; reflexivity. Defined.

Lemma example_graph_run_witness :
  RunInvoke {| graph := example_graph calc_step poem_step |} initial_state [] =
    (Ret (set_poem (set_result initial_state 55%float) "Five and fifty"),
     {| wim := NewInterruptManager; wenv := [];
        wout := example_trace initial_state (set_poem (set_result initial_state 55%float) "Five and fifty") |}).
Proof. apply (example_graph_run calc_step poem_step _ (set_result initial_state 55%float)); reflexivity. Defined.

Lemma example_consumer_misses_values_witness :
  let st2 := set_poem (set_result initial_state 55%float) "Five and fifty" in
  exists s0 s, Stream (fun _ => "error") {| graph := example_graph calc_step poem_step |} initial_state []
                 = Returns (100, s0) /\
    rtc (fstep 100) s0 s /\ runner s = RDone /\ closed (evch s) = true /\ closed (stch s) = true /\
    got (stch s) = [] /\
    buf (stch s) = [{| Mode := StreamValues; Data := initial_state |}; {| Mode := StreamValues; Data := st2 |}] /\
    consume (map (fun e => RecvEvent (Some e)) (got (evch s))) =
      (map (fun e => LogEvent (EvType e) (Stream.Name e) (Meta e)) (got (evch s)), true).
Proof.
  apply (example_consumer_misses_values _ calc_step poem_step _ (set_result initial_state 55%float));
    reflexivity.
Defined.

Lemma example_consumer_misses_events_witness :
  let st2 := set_poem (set_result initial_state 55%float) "Five and fifty" in
  exists s0 s, Stream (fun _ => "error") {| graph := example_graph calc_step poem_step |} initial_state []
                 = Returns (100, s0) /\
    rtc (fstep 100) s0 s /\ runner s = RDone /\ closed (evch s) = true /\ closed (stch s) = true /\
    got (evch s) = [] /\ run_event EventChainEnd ∈ buf (evch s) /\
    buf (stch s) = [] /\
    got (stch s) = [{| Mode := StreamValues; Data := initial_state |}; {| Mode := StreamValues; Data := st2 |}] /\
    (consume (map (fun se => RecvStream (Some se)) (got (stch s)) ++ [RecvStream None])).2 = true /\
    (forall t n m, LogEvent t n m ∉
       (consume (map (fun se => RecvStream (Some se)) (got (stch s)) ++ [RecvStream None])).1).
Proof.
  apply (example_consumer_misses_events _ calc_step poem_step _ (set_result initial_state 55%float));
    reflexivity.
Defined.

Lemma example_agents_witness :
  graph_agents "sk-test" = MainAgents
    [{| agent_id := "math_expert"; config := [("model", VString "gpt-4o-mini")];
        tools := [calculator_tool NewCalculator]; history := [] |};
     {| agent_id := "poet"; config := [("model", VString "gpt-4o-mini")]; tools := []; history := [] |}] /\
  basic_main "sk-test" = MainAgents
    [{| agent_id := "math_expert"; config := [("model", VString "gpt-4o-mini")];
        tools := [calculator_tool NewCalculator]; history := [] |};
     {| agent_id := "assistant"; config := [("model", VString "gpt-3.5-turbo")]; tools := []; history := [] |}].
Proof. apply example_agents. discriminate. Defined.

Lemma example_consumer_returns_after_run_witness :
  let st2 := set_poem (set_result initial_state 55%float) "Five and fifty" in
  exists s0 s rs, graph_main_stream (D:=unit) (fun _ => "error") calc_step poem_step = GraphStreaming 100 s0 /\
    rtc (fstep 100) s0 s /\
    interleave (map (fun e => RecvEvent (Some e)) (got (evch s)))
               (map (fun se => RecvStream (Some se)) (got (stch s))) rs /\
    (consume rs).2 = true /\
    got (evch s) = events_of (items_of_outputs (example_trace initial_state st2)).
Proof.
  intros st2. set (its := items_of_outputs (example_trace initial_state st2)).
  destruct (forward_all 100 its [] (Returned None) (fanout_init its (Returned None)))
    as (s & Hr & _ & _ & _ & _ & _ & _ & Hge & Hgs & _); rewrite ?app_nil_r; try done.
  assert (Hm : graph_main_stream (D:=unit) (fun _ => "error") calc_step poem_step =
               GraphStreaming 100 (fanout_init its (Returned None))) by (vm_compute; reflexivity).
  pose proof (interleave_app (map (fun e => RecvEvent (Some e)) (got (evch s)))
                             (map (fun se => RecvStream (Some se)) (got (stch s)))) as Hi.
  assert (Hc : (consume (map (fun e => RecvEvent (Some e)) (got (evch s)) ++
                         map (fun se => RecvStream (Some se)) (got (stch s)))).2 = true)
    by (rewrite Hge, Hgs; vm_compute; reflexivity).
  exists (fanout_init its (Returned None)), s. eexists. split_and!; [exact Hm|exact Hr|exact Hi|exact Hc|].
  exact (example_consumer_returns_after_run _ calc_step poem_step _ st2 _ s _ eq_refl eq_refl Hm Hr Hi Hc).
Defined.

Lemma example_math_expert_error_witness :
  let e := Wrapped "math expert error: " (ErrorString "stream error: 429 Too Many Requests") in
  exists s0 s rs, graph_main_stream (D:=unit) (fun _ => "error") calc_fail poem_step = GraphStreaming 100 s0 /\
    rtc (fstep 100) s0 s /\
    interleave (map (fun e => RecvEvent (Some e)) (got (evch s)))
               (map (fun se => RecvStream (Some se)) (got (stch s))) rs /\
    (consume rs).2 = true /\
    (RunInvoke {| graph := example_graph calc_fail poem_step |} initial_state []).1 =
      Throw (ErrInNode "calculate" e) /\
    chain_end_error "error" ∈ got (evch s) /\
    filter (fun e => is_error_event e = false) (got (evch s)) `prefix_of`
      [run_event EventChainStart; node_event EventChainStart "calculate" 0].
Proof.
  intros e.
  set (its := [IStream {| Mode := StreamValues; Data := initial_state |};
               IEvent (run_event EventChainStart); IEvent (node_event EventChainStart "calculate" 0)]).
  destruct (forward_all 100 its [] (Returned (Some "error")) (fanout_init its (Returned (Some "error"))))
    as (s1 & H01 & Hr1 & Hf1 & Hbe1 & _ & Hce1 & _ & Hge1 & Hgs1 & _); rewrite ?app_nil_r; try done.
  destruct (runner_return 100 (Returned (Some "error")) s1) as (s & H12 & _ & _ & Hst & _ & _ & Hg & _);
    try done; [unfold alive; by rewrite Hf1|].
  assert (Hr : rtc (fstep 100) (fanout_init its (Returned (Some "error"))) s) by (etrans; eauto).
  assert (Hm : graph_main_stream (D:=unit) (fun _ => "error") calc_fail poem_step =
               GraphStreaming 100 (fanout_init its (Returned (Some "error")))) by (vm_compute; reflexivity).
  pose proof (interleave_app (map (fun e => RecvEvent (Some e)) (got (evch s)))
                             (map (fun se => RecvStream (Some se)) (got (stch s)))) as Hi.
  assert (Hc : (consume (map (fun e => RecvEvent (Some e)) (got (evch s)) ++
                         map (fun se => RecvStream (Some se)) (got (stch s)))).2 = true)
    by (rewrite Hg, Hst, Hge1, Hgs1; vm_compute; reflexivity).
  exists (fanout_init its (Returned (Some "error"))), s. eexists.
  split_and!; [exact Hm|exact Hr|exact Hi|exact Hc|..];
    apply (example_math_expert_error _ calc_fail poem_step _ e _ s _ eq_refl eq_refl Hm Hr Hi Hc).
Defined.
End Witnesses.
